(** * vezda/plot_utils.py: wiggle rendering, captions and cyclic navigation

    A shallow embedding of the plotting helpers of [vezda/plot_utils.py]:
    caption formatting ([set_ylabel], [wave_title], [vector_title]), the
    wiggle renderer ([plotWiggles]), the frequency renderer
    ([plotFreqVectors]), the 2D image renderer ([image_viewer]), the map
    panel ([plotMap]), the keyboard navigation over a frame stack
    ([next_wave], [previous_wave], [next_map], [previous_map],
    [switch_experiments], [process_key_waves]), over singular vectors
    ([next_vector], [previous_vector]) and over images ([next_image],
    [previous_image], [process_key_images]), the removal of conflicting
    shortcuts ([remove_keymap_conflicts]) and the first display
    ([setFigure], [Experiment.plot], [Plotter.plot]).

    Numeric arrays are numpy [float64] arrays, modelled with Rocq's
    primitive binary64 floats.  A drawing surface is modelled by its
    injected style attributes together with the list of toolkit calls made
    on it since the last [ax.clear()].  Python code that mutates an array
    in place is modelled by state passing: the array after the call is part
    of the final state, also when the call ends in an exception. *)

From Stdlib Require Import ZArith List String Ascii Bool Lia Permutation.
From Stdlib Require Import Floats DecimalString.
Import ListNotations.

Local Open Scope string_scope.
Local Open Scope Z_scope.
#[local] Set Warnings "-inexact-float".

(** ** Exceptions and the state-and-exception monad *)

(** The Python exceptions the modelled code can end in. *)
Inductive exn : Type :=
| IndexError
| ValueError
| TypeError
| AttributeError
| UnboundLocalError
| ZeroDivisionError.

(** The outcome of a call: a value or a raised exception. *)
Inductive res (A : Type) : Type :=
| Ok (a : A)
| Raise (e : exn).
Arguments Ok {A} a.
Arguments Raise {A} e.

(** A computation over a mutable state [S]: the state reached is returned
    in both outcomes, since a Python exception does not undo the writes
    made before it. *)
Definition M (S A : Type) : Type := S -> S * res A.

Definition ret {S A} (a : A) : M S A := fun s => (s, Ok a).

Definition bind {S A B} (c : M S A) (k : A -> M S B) : M S B :=
  fun s =>
    match c s with
    | (s', Ok a) => k a s'
    | (s', Raise e) => (s', Raise e)
    end.

Definition get {S} : M S S := fun s => (s, Ok s).
Definition modify {S} (f : S -> S) : M S unit := fun s => (f s, Ok tt).

(** Lifts a pure, fallible value into a computation. *)
Definition lift {S A} (r : res A) : M S A := fun s => (s, r).

Declare Scope monad_scope.
Delimit Scope monad_scope with monad.
Notation "x <- c ;; k" := (bind c (fun x => k))
  (at level 61, c at next level, right associativity) : monad_scope.
Notation "c ;; k" := (bind c (fun _ => k))
  (at level 61, right associativity) : monad_scope.
Local Open Scope monad_scope.

(** [for x in xs: body x] *)
Fixpoint for_each {S A} (xs : list A) (body : A -> M S unit) : M S unit :=
  match xs with
  | [] => ret tt
  | x :: xs' => body x ;; for_each xs' body
  end.

Definition pure_bind {A B} (r : res A) (k : A -> res B) : res B :=
  match r with
  | Ok a => k a
  | Raise e => Raise e
  end.

(** ** Python integers and numpy floats *)

(** Python's [a % b] on integers: the result has the sign of the divisor,
    as [Z.modulo]; a zero divisor raises. *)
Definition py_mod (a b : Z) : res Z :=
  if b =? 0 then Raise ZeroDivisionError else Ok (a mod b).

(** Sequence indexing [xs[i]]: negative indices count from the end, an
    index outside the sequence raises [IndexError]. *)
Definition py_index {A} (xs : list A) (i : Z) : res A :=
  let n := Z.of_nat (List.length xs) in
  let j := if i <? 0 then i + n else i in
  if (j <? 0) || (n <=? j) then Raise IndexError
  else match nth_error xs (Z.to_nat j) with
       | Some a => Ok a
       | None => Raise IndexError
       end.

(** Conversion of a numpy [int64] to [float64] (round to nearest). *)
Definition float_of_Z (z : Z) : float :=
  if z <? 0 then PrimFloat.opp (PrimFloat.of_uint63 (Uint63.of_Z (- z)))
  else PrimFloat.of_uint63 (Uint63.of_Z z).

Definition is_nan (x : float) : bool := negb (PrimFloat.eqb x x).

(** [a != b] on floats: true also when an operand is not a number. *)
Definition float_neb (a b : float) : bool := negb (PrimFloat.eqb a b).

(** [str(n)] for an integer. *)
Definition str_of_Z (z : Z) : string := NilZero.string_of_int (Z.to_int z).

(** ** The [%0.2f] conversion *)

(** Rounds the positive rational [n / d] to the nearest integer, ties to
    even. *)
Definition round_half_even (n d : Z) : Z :=
  let q := n / d in
  let r := n mod d in
  if 2 * r <? d then q
  else if d <? 2 * r then q + 1
  else if Z.even q then q else q + 1.

(** [|x| * 100] rounded to the nearest integer, ties to even, for the
    finite value [m * 2^e]: the conversion is correctly rounded from the
    exact binary value. *)
Definition round_hundredths (m : positive) (e : Z) : Z :=
  if 0 <=? e then Z.pos m * 100 * 2 ^ e
  else round_half_even (Z.pos m * 100) (2 ^ (- e)).

Definition two_digits (n : Z) : string :=
  (if n <? 10 then "0" else "") ++ str_of_Z n.

Definition fixed2 (negative : bool) (hundredths : Z) : string :=
  (if negative then "-" else "")
  ++ str_of_Z (hundredths / 100) ++ "." ++ two_digits (hundredths mod 100).

(** ['%0.2f' % x] *)
Definition format_2f (x : float) : string :=
  match Prim2SF x with
  | S754_nan => "nan"
  | S754_infinity s => if s then "-inf" else "inf"
  | S754_zero s => fixed2 s 0
  | S754_finite s m e => fixed2 s (round_hundredths m e)
  end.

Example format_2f_samples :
  map format_2f [1.23; 4.56; 0.125; 0.375; -0.001; 1234.5; 2.675; 0]%float
  = ["1.23"; "4.56"; "0.12"; "0.38"; "-0.00"; "1234.50"; "2.67"; "0.00"].
Proof. vm_compute. reflexivity. Qed.

(** ** The [%0.1e] and [%d] conversions *)

(** The decimal exponent [k] of the positive rational [n / d], that is
    [10^k <= n / d < 10^(k+1)], searched from [k] by steps of one. *)
Fixpoint decimal_exponent (fuel : nat) (n d k : Z) : Z :=
  match fuel with
  | O => k
  | S fuel' =>
      let lo := if 0 <=? k then n <? d * 10 ^ k else n * 10 ^ (- k) <? d in
      let hi := if 0 <=? k + 1 then d * 10 ^ (k + 1) <=? n
                else d <=? n * 10 ^ (- (k + 1)) in
      if lo then decimal_exponent fuel' n d (k - 1)
      else if hi then decimal_exponent fuel' n d (k + 1)
      else k
  end.

Definition sci1 (negative : bool) (m : positive) (e : Z) : string :=
  let n := if 0 <=? e then Z.pos m * 2 ^ e else Z.pos m in
  let d := if 0 <=? e then 1 else 2 ^ (- e) in
  let k := decimal_exponent 400 n d 0 in
  (* the tenths of the mantissa [n / d / 10^k] *)
  let t := if 0 <=? k then round_half_even (n * 10) (d * 10 ^ k)
           else round_half_even (n * 10 * 10 ^ (- k)) d in
  let '(t, k) := if t =? 100 then (10, k + 1) else (t, k) in
  (if negative then "-" else "")
  ++ str_of_Z (t / 10) ++ "." ++ str_of_Z (t mod 10)
  ++ "e" ++ (if k <? 0 then "-" else "+") ++ two_digits (Z.abs k).

(** ['%0.1e' % x] *)
Definition format_1e (x : float) : string :=
  match Prim2SF x with
  | S754_nan => "nan"
  | S754_infinity s => if s then "-inf" else "inf"
  | S754_zero s => (if s then "-" else "") ++ "0.0e+00"
  | S754_finite s m e => sci1 s m e
  end.

(** ['%d' % x] for a float: the integer part, [int(x)]. *)
Definition format_d (x : float) : res string :=
  match Prim2SF x with
  | S754_nan => Raise ValueError
  | S754_infinity _ => Raise ValueError (* OverflowError, a sibling class *)
  | S754_zero _ => Ok "0"
  | S754_finite s m e =>
      let a := if 0 <=? e then Z.pos m * 2 ^ e else Z.pos m / 2 ^ (- e) in
      Ok (str_of_Z (if s then - a else a))
  end.

Example format_1e_samples :
  map format_1e [1; 0.001; 123456; 9.96; 0.25; -3.5e-7; 0]%float
  = ["1.0e+00"; "1.0e-03"; "1.2e+05"; "1.0e+01"; "2.5e-01"; "-3.5e-07"; "0.0e+00"].
Proof. vm_compute. reflexivity. Qed.

(** ** The [%] string-formatting operator *)

(** A value of the argument tuple. *)
Inductive fmt_arg : Type :=
| ArgS (s : string)
| ArgI (n : Z)
| ArgF (x : float).

(** One conversion specification, [flags] being the characters between
    the percent sign and the conversion type [c].  The specifications that
    occur in the module are modelled: [%s] on strings and integers,
    [%0.2f], [%0.1e] and [%d] on numbers.  A string given to a numeric
    conversion is the [TypeError] of Python; anything else the module never
    does is rejected the same way. *)
Definition convert (flags : string) (c : ascii) (a : fmt_arg) : res string :=
  if (Ascii.eqb c "s" && String.eqb flags "")%bool then
    match a with
    | ArgS s => Ok s
    | ArgI n => Ok (str_of_Z n)
    | ArgF _ => Raise TypeError
    end
  else if (Ascii.eqb c "f" && String.eqb flags "0.2")%bool then
    match a with
    | ArgS _ => Raise TypeError
    | ArgI n => Ok (format_2f (float_of_Z n))
    | ArgF x => Ok (format_2f x)
    end
  else if (Ascii.eqb c "e" && String.eqb flags "0.1")%bool then
    match a with
    | ArgS _ => Raise TypeError
    | ArgI n => Ok (format_1e (float_of_Z n))
    | ArgF x => Ok (format_1e x)
    end
  else if (Ascii.eqb c "d" && String.eqb flags "")%bool then
    match a with
    | ArgS _ => Raise TypeError
    | ArgI n => Ok (str_of_Z n)
    | ArgF x => format_d x
    end
  else Raise ValueError.

Definition is_conversion_type (c : ascii) : bool :=
  (Ascii.eqb c "s" || Ascii.eqb c "f" || Ascii.eqb c "e" || Ascii.eqb c "d")%bool.

(** Scans the format string.  [spec] is [None] in literal text and
    [Some flags] inside a conversion specification. *)
Fixpoint format_from (spec : option string) (fmt : string) (args : list fmt_arg)
  : res string :=
  match fmt with
  | EmptyString =>
      match spec, args with
      | None, [] => Ok ""
      | None, _ :: _ => Raise TypeError   (* not all arguments converted *)
      | Some _, _ => Raise ValueError     (* incomplete format *)
      end
  | String c rest =>
      match spec with
      | None =>
          if Ascii.eqb c "%" then format_from (Some "") rest args
          else pure_bind (format_from None rest args) (fun t => Ok (String c t))
      | Some flags =>
          if (Ascii.eqb c "%" && String.eqb flags "")%bool then
            pure_bind (format_from None rest args) (fun t => Ok (String c t))
          else if is_conversion_type c then
            match args with
            | [] => Raise TypeError       (* not enough arguments *)
            | a :: args' =>
                pure_bind (convert flags c a) (fun s =>
                pure_bind (format_from None rest args') (fun t => Ok (s ++ t)))
            end
          else format_from (Some (flags ++ String c "")) rest args
      end
  end.

(** [fmt % (args)] *)
Definition py_format (fmt : string) (args : list fmt_arg) : res string :=
  format_from None fmt args.

Example py_format_sample :
  py_format "%s [Source %s @ (%0.2f %s, %0.2f)] %d"
            [ArgS "Data"; ArgI 12; ArgF 0.5%float; ArgS "km"; ArgF (-2)%float; ArgF 0%float]
  = Ok "Data [Source 12 @ (0.50 km, -2.00)] 0".
Proof. vm_compute. reflexivity. Qed.

(** ** Arrays *)

(** A two-dimensional numpy [float64] array: [shape1] is [a.shape[1]] and
    every row of a well-formed array has that length. *)
Record ndarray2 : Type := mk_ndarray2 {
  shape1 : Z;
  rows : list (list float)
}.

(** [a.shape[0]] *)
Definition shape0 (a : ndarray2) : Z := Z.of_nat (List.length (rows a)).

Definition wf_ndarray2 (a : ndarray2) : Prop :=
  0 <= shape1 a /\ Forall (fun r => Z.of_nat (List.length r) = shape1 a) (rows a).

(** [a[i, :]] *)
Definition row (a : ndarray2) (i : Z) : res (list float) := py_index (rows a) i.

(** [a[i, j]] *)
Definition item (a : ndarray2) (i j : Z) : res float :=
  pure_bind (row a i) (fun r => py_index r j).

(** [a[:, j]] *)
Fixpoint column_of (rs : list (list float)) (j : Z) : res (list float) :=
  match rs with
  | [] => Ok []
  | r :: rs' =>
      pure_bind (py_index r j) (fun x =>
      pure_bind (column_of rs' j) (fun xs => Ok (x :: xs)))
  end.

Definition column (a : ndarray2) (j : Z) : res (list float) :=
  if (j <? - shape1 a) || (shape1 a <=? j) then Raise IndexError
  else column_of (rows a) j.

(** Elementwise map, the shape kept. *)
Definition map_ndarray2 (f : float -> float) (a : ndarray2) : ndarray2 :=
  mk_ndarray2 (shape1 a) (map (map f) (rows a)).

(** [np.maximum] and [np.minimum] on two scalars: a NaN operand wins. *)
Definition np_maximum (a b : float) : float :=
  if is_nan a then a else if is_nan b then b
  else if PrimFloat.ltb a b then b else a.

Definition np_minimum (a b : float) : float :=
  if is_nan a then a else if is_nan b then b
  else if PrimFloat.ltb b a then b else a.

(** [np.max] and [np.min] of a flat sequence; an empty one raises. *)
Definition np_max (xs : list float) : res float :=
  match xs with
  | [] => Raise ValueError
  | x :: xs' => Ok (fold_left np_maximum xs' x)
  end.

Definition np_min (xs : list float) : res float :=
  match xs with
  | [] => Raise ValueError
  | x :: xs' => Ok (fold_left np_minimum xs' x)
  end.

(** [np.ptp(r)], the peak-to-peak range [max - min] of one row. *)
Definition ptp (r : list float) : res float :=
  pure_bind (np_max r) (fun hi =>
  pure_bind (np_min r) (fun lo => Ok (PrimFloat.sub hi lo))).

Fixpoint map_res {A B} (f : A -> res B) (xs : list A) : res (list B) :=
  match xs with
  | [] => Ok []
  | x :: xs' =>
      pure_bind (f x) (fun y =>
      pure_bind (map_res f xs') (fun ys => Ok (y :: ys)))
  end.

(** [np.ptp(X, axis=1)] *)
Definition ptp_axis1 (X : ndarray2) : res (list float) := map_res ptp (rows X).

(** [np.max(np.ptp(X, axis=1))] *)
Definition max_ptp (X : ndarray2) : res float :=
  pure_bind (ptp_axis1 X) np_max.

(** [np.max(np.abs(X))] *)
Definition max_abs (X : ndarray2) : res float :=
  np_max (map PrimFloat.abs (List.concat (rows X))).

(** [X /= c], elementwise. *)
Definition idiv (X : ndarray2) (c : float) : ndarray2 :=
  map_ndarray2 (fun x => PrimFloat.div x c) X.

(** [k + r] for an integer [k] and a row [r] *)
Definition offset_row (k : Z) (r : list float) : list float :=
  map (fun x => PrimFloat.add (float_of_Z k) x) r.

(** ** Style configuration *)

(** The [plotParams] dictionary, with the keys of [default_params]. *)
Record PlotParams : Type := mk_PlotParams {
  pltformat : string;
  view_mode : string;
  isolevel : float;
  xlabel : string;
  ylabel : string;
  zlabel : string;
  xu : string;
  yu : string;
  zu : string;
  image_colormap : string;
  wiggle_colormap : string;
  colorbar : bool;
  shading : string;
  vmin : float;
  vmax : float;
  levels : Z;
  invert_xaxis : bool;
  invert_yaxis : bool;
  invert_zaxis : bool;
  show_scatterer : bool;
  show_sources : bool;
  show_receivers : bool;
  pclip : float;
  tu : string;
  au : string;
  data_title : string;
  impulse_title : string;
  fu : string;
  fmin : float;
  fmax : option float;
  freq_title : string;
  freq_ylabel : string
}.

Definition default_params : PlotParams := {|
  pltformat := "pdf";
  view_mode := "light";
  isolevel := 0.7%float;
  xlabel := "";
  ylabel := "";
  zlabel := "";
  xu := "";
  yu := "";
  zu := "";
  image_colormap := "magma";
  wiggle_colormap := "grays";
  colorbar := false;
  shading := "flat";
  vmin := 0.0%float;
  vmax := 1.0%float;
  levels := 100;
  invert_xaxis := false;
  invert_yaxis := false;
  invert_zaxis := false;
  show_scatterer := false;
  show_sources := true;
  show_receivers := true;
  pclip := 1.0%float;
  tu := "";
  au := "";
  data_title := "Data";
  impulse_title := "Impulse Response";
  fu := "";
  fmin := 0%float;
  fmax := None;
  freq_title := "Mean Amplitude Spectrum";
  freq_ylabel := "Amplitude"
|}.

(** [s != ''] *)
Definition nonempty (s : string) : bool := negb (String.eqb s "").

(** ** Colormaps *)

(** A colormap: one of the module's two, or one looked up by name in
    the toolkit's registry, [plt.get_cmap(name)]. *)
Inductive colormap : Type :=
| vz_cwm                       (* cyan, whitesmoke, magenta *)
| vz_cbm                       (* cyan, black, magenta *)
| plt_get_cmap (name : string).

(** What [get_cmap_colors] returns: a pair of fill colours, a colormap,
    or [None] when no branch is taken. *)
Inductive cmap_colors : Type :=
| Fills (pos_fill neg_fill : string)
| Cmap (c : colormap)
| NoColors.

Definition get_cmap_colors (cmap_string mode : string) (fills : bool) : cmap_colors :=
  if String.eqb cmap_string "native" then
    if fills then Fills "m" "c"
    else if String.eqb mode "light" then Cmap vz_cwm
    else Cmap vz_cbm
  else if String.eqb cmap_string "grays" then
    if fills then
      if String.eqb mode "light" then Fills "black" "None"
      else Fills "whitesmoke" "None"
    else Cmap (plt_get_cmap cmap_string)
  else if String.eqb cmap_string "seismic" then
    if fills then Fills "blue" "red"
    else Cmap (plt_get_cmap cmap_string)
  else NoColors.

(** [pos_fill, neg_fill = get_cmap_colors(..., fills=True)] *)
Definition unpack_fills (c : cmap_colors) : res (string * string) :=
  match c with
  | Fills p n => Ok (p, n)
  | Cmap _ => Raise TypeError
  | NoColors => Raise TypeError
  end.

(** ** Captions *)

Notation "'let?' x ':=' c 'in' k" := (pure_bind c (fun x => k))
  (at level 10, x name, c at level 100, k at level 200, only parsing).

(** Reading a local variable that some paths leave unassigned. *)
Definition load {A} (v : option A) : res A :=
  match v with
  | Some a => Ok a
  | None => Raise UnboundLocalError
  end.

(** [s == ''] *)
Definition empty (s : string) : bool := String.eqb s "".

(** The y-axis label of a wiggle plot.  [ylabel0] is the local [ylabel]
    after the first conditional, unassigned for an unknown [flag]. *)
Definition set_ylabel (N : Z) (coordinates : option ndarray2) (id_number : Z)
    (flag : string) (plotParams : PlotParams) : res string :=
  let ylabel0 : option string :=
    if (String.eqb flag "data" || String.eqb flag "impulse" || String.eqb flag "left")%bool
    then Some "Receiver"
    else if String.eqb flag "right" then Some "Source"
    else None in
  let au := au plotParams in
  let xu := xu plotParams in
  let yu := yu plotParams in
  let zu := zu plotParams in
  if N =? 1 then
    match coordinates with
    | Some c =>
        if shape1 c =? 2 then
          if (nonempty au && nonempty xu && nonempty yu)%bool then
            let? yl := load ylabel0 in
            let? c0 := item c 0 0 in
            let? c1 := item c 0 1 in
            py_format "Amplitude (%s) [%s %s @ (%0.2f %s, %0.2f %s)]"
              [ArgS au; ArgS yl; ArgI id_number; ArgF c0; ArgS xu; ArgF c1; ArgS yu]
          else if (empty au && nonempty xu && nonempty yu)%bool then
            let? yl := load ylabel0 in
            let? c0 := item c 0 0 in
            let? c1 := item c 0 1 in
            py_format "Amplitude [%s %s @ (%0.2f %s, %0.2f %s)]"
              [ArgS yl; ArgI id_number; ArgF c0; ArgS xu; ArgF c1; ArgS yu]
          else if (nonempty au && empty xu && empty yu)%bool then
            let? yl := load ylabel0 in
            let? c0 := item c 0 0 in
            let? c1 := item c 0 1 in
            py_format "Amplitude (%s) [%s %s @ (%0.2f, %0.2f)]"
              [ArgS au; ArgS yl; ArgI id_number; ArgF c0; ArgF c1]
          else if (empty au && empty xu && empty yu)%bool then
            let? yl := load ylabel0 in
            let? c0 := item c 0 0 in
            let? c1 := item c 0 1 in
            py_format "Amplitude [%s %s @ (%0.2f, %0.2f)]"
              [ArgS yl; ArgI id_number; ArgF c0; ArgF c1]
          else load ylabel0
        else if shape1 c =? 3 then
          if (nonempty au && nonempty xu && nonempty yu && nonempty zu)%bool then
            let? yl := load ylabel0 in
            let? c0 := item c 0 0 in
            let? c1 := item c 0 1 in
            let? c2 := item c 0 2 in
            py_format "Amplitude (%s) [%s %s @ (%0.2f %s, %0.2f %s, %0.2f %s)]"
              [ArgS au; ArgS yl; ArgI id_number;
               ArgF c0; ArgS xu; ArgF c1; ArgS yu; ArgF c2; ArgS zu]
          else if (empty au && nonempty xu && nonempty yu && nonempty zu)%bool then
            let? yl := load ylabel0 in
            let? c0 := item c 0 0 in
            let? c1 := item c 0 1 in
            let? c2 := item c 0 2 in
            py_format "Amplitude [%s %s @ (%0.2f %s, %0.2f %s, %0.2f %s)]"
              [ArgS yl; ArgI id_number;
               ArgF c0; ArgS xu; ArgF c1; ArgS yu; ArgF c2; ArgS zu]
          else if (nonempty au && empty xu && empty yu && empty zu)%bool then
            let? yl := load ylabel0 in
            let? c0 := item c 0 0 in
            let? c1 := item c 0 1 in
            let? c2 := item c 0 2 in
            py_format "Amplitude (%s) [%s %s @ (%0.2f, %0.2f, %0.2f)]"
              [ArgS au; ArgS yl; ArgI id_number; ArgF c0; ArgF c1; ArgF c2]
          else if (empty au && empty xu && empty yu && empty zu)%bool then
            let? yl := load ylabel0 in
            let? c0 := item c 0 0 in
            let? c1 := item c 0 1 in
            let? c2 := item c 0 2 in
            py_format "Amplitude [%s %s @ (%0.2f, %0.2f, %0.2f)]"
              [ArgS yl; ArgI id_number; ArgF c0; ArgF c1; ArgF c2]
          else load ylabel0
        else load ylabel0
    | None =>
        if nonempty au then
          let? yl := load ylabel0 in
          py_format "Amplitude (%s) [%s %s]" [ArgS au; ArgS yl; ArgI id_number]
        else
          let? yl := load ylabel0 in
          py_format "Amplitude [%s %s]" [ArgS yl; ArgI id_number]
    end
  else load ylabel0.

(** The title of a wiggle plot.  A path that assigns no title ends in the
    [UnboundLocalError] of [return title]. *)
Definition wave_title (index : Z) (sourceNumbers : list Z)
    (sourcePoints : option ndarray2) (flag : string) (plotParams : PlotParams)
  : res string :=
  let xu := xu plotParams in
  let yu := yu plotParams in
  let zu := zu plotParams in
  if String.eqb flag "data" then
    let data_title := data_title plotParams in
    match sourcePoints with
    | None =>
        let? n := py_index sourceNumbers index in
        py_format "%s [Record %s/%s]"
          [ArgS data_title; ArgI n; ArgI (Z.of_nat (List.length sourceNumbers))]
    | Some pts =>
        if shape1 pts =? 2 then
          if (nonempty xu && nonempty yu)%bool then
            let? n := py_index sourceNumbers index in
            let? c0 := item pts index 0 in
            let? c1 := item pts index 1 in
            py_format "%s [Source %s @ (%0.2f %s, %0.2f %s)]"
              [ArgS data_title; ArgI n; ArgF c0; ArgS xu; ArgF c1; ArgS yu]
          else
            let? n := py_index sourceNumbers index in
            let? c0 := item pts index 0 in
            let? c1 := item pts index 1 in
            py_format "%s [Source %s @ (%0.2f, %0.2f)]"
              [ArgS data_title; ArgI n; ArgF c0; ArgF c1]
        else if shape1 pts =? 3 then
          if (nonempty xu && nonempty yu && nonempty zu)%bool then
            let? n := py_index sourceNumbers index in
            let? c0 := item pts index 0 in
            let? c1 := item pts index 1 in
            let? c2 := item pts index 2 in
            py_format "%s [Source %s @ (%0.2f %s, %0.2f %s, %0.2f %s)]"
              [ArgS data_title; ArgI n;
               ArgF c0; ArgS xu; ArgF c1; ArgS yu; ArgF c2; ArgS zu]
          else
            let? n := py_index sourceNumbers index in
            let? c0 := item pts index 0 in
            let? c1 := item pts index 1 in
            let? c2 := item pts index 2 in
            py_format "%s [Source %s @ (%0.2f, %0.2f, %0.2f)]"
              [ArgS data_title; ArgI n; ArgF c0; ArgF c1; ArgF c2]
        else Raise UnboundLocalError
    end
  else
    let impulse_title := impulse_title plotParams in
    match sourcePoints with
    | None => Raise AttributeError
    | Some pts =>
        if shape1 pts =? 2 then
          if (nonempty xu && nonempty yu)%bool then
            let? c0 := item pts index 0 in
            let? c1 := item pts index 1 in
            py_format "%s [$\bf{z}$ @ (%0.2f %s, %0.2f %s)]"
              [ArgS impulse_title; ArgF c0; ArgS xu; ArgF c1; ArgS yu]
          else if (empty xu && empty yu)%bool then
            let? c0 := item pts index 0 in
            let? c1 := item pts index 1 in
            py_format "%s [$\bf{z}$ @ (%0.2f, %0.2f)]"
              [ArgS impulse_title; ArgF c0; ArgF c1]
          else Raise UnboundLocalError
        else if shape1 pts =? 3 then
          if (nonempty xu && nonempty yu && nonempty zu)%bool then
            let? c0 := item pts index 0 in
            let? c1 := item pts index 1 in
            let? c2 := item pts index 2 in
            py_format "%s [$\bf{z}$ @ (%0.2f %s, %0.2f %s, %0.2f %s)]"
              [ArgS impulse_title; ArgF c0; ArgS xu; ArgF c1; ArgS yu; ArgF c2; ArgS zu]
          else if (empty xu && empty yu && empty zu)%bool then
            let? c0 := item pts index 0 in
            let? c1 := item pts index 1 in
            let? c2 := item pts index 2 in
            py_format "%s [$\bf{z}$ @ (%0.2f, %0.2f, %0.2f)]"
              [ArgS impulse_title; ArgF c0; ArgF c1; ArgF c2]
          else Raise UnboundLocalError
        else Raise UnboundLocalError
    end.

Definition coords_2d : ndarray2 := mk_ndarray2 2 [[1.23; 4.56]%float].

Example set_ylabel_sample :
  set_ylabel 1 (Some coords_2d) 3 "data"
    {| pltformat := "pdf"; view_mode := "light"; isolevel := 0.7%float;
       xlabel := ""; ylabel := ""; zlabel := ""; xu := "m"; yu := "m"; zu := "";
       image_colormap := "magma"; wiggle_colormap := "grays"; colorbar := false;
       shading := "flat"; vmin := 0%float; vmax := 1%float; levels := 100;
       invert_xaxis := false; invert_yaxis := false; invert_zaxis := false;
       show_scatterer := false; show_sources := true; show_receivers := true;
       pclip := 1%float; tu := ""; au := ""; data_title := "Data";
       impulse_title := "Impulse Response"; fu := ""; fmin := 0%float;
       fmax := None; freq_title := "Mean Amplitude Spectrum";
       freq_ylabel := "Amplitude" |}
  = Ok "Amplitude [Receiver 3 @ (1.23 m, 4.56 m)]".
Proof. vm_compute. reflexivity. Qed.

(** ** The drawing surface *)

(** A call made on an axes object.  The toolkit is external: the model
    records what it is asked to draw, in order. *)
Inductive call : Type :=
| SetYLabel (label color : string)
| SetXLabel (label color : string)
| SetZLabel (label color : string)
| SetTitle (label color : string)
| SetYTicks (ticks : list Z)
| SetYTickLabels (labels : list Z)
| SetpYTickLabelsVisible
| SetpYTickLinesVisible
| Plot (x y : list float) (color : string) (linewidth : float)
| FillBetween (x : list float) (y1 : Z) (y2 : list float) (where_ : list bool)
              (color : string) (alpha : float)
| PColorMeshWiggle (x : list float) (y : list Z) (C : ndarray2)
                   (vmin vmax : float) (cmap : cmap_colors)
| PColorMeshImage (X Y C : ndarray2) (vmin vmax : float) (cmap : colormap)
                  (shading : string)
| Colorbar (label : bool)
| OffsetTextSetX (x : float)
| TickLabelFormatSciY
| SetXLim (lo hi : float)
| Grid (on : bool)
| SetAspectEqual
| InvertXAxis
| InvertYAxis
| InvertZAxis
| PlotPoints (coords : list (list float)) (marker : string)
             (markersize : option Z) (color : string).

(** An axes object: the attributes [setFigure] and the viewers attach to
    it, and the calls made on it since it was last cleared. *)
Record Axes : Type := mk_Axes {
  source_index : Z;
  alpha : float;
  linecolor : string;
  linewidth : float;
  labelcolor : string;
  titlecolor : string;
  receivercolor : string;
  sourcecolor : string;
  activesourcecolor : string;
  inactivesourcecolor : string;
  scatterercolor : string;
  surfacecolor : string;
  calls : list call
}.

Definition with_calls (cs : list call) (a : Axes) : Axes :=
  mk_Axes (source_index a) (alpha a) (linecolor a) (linewidth a) (labelcolor a)
          (titlecolor a) (receivercolor a) (sourcecolor a) (activesourcecolor a)
          (inactivesourcecolor a) (scatterercolor a) (surfacecolor a) cs.

Definition with_source_index (i : Z) (a : Axes) : Axes :=
  mk_Axes i (alpha a) (linecolor a) (linewidth a) (labelcolor a)
          (titlecolor a) (receivercolor a) (sourcecolor a) (activesourcecolor a)
          (inactivesourcecolor a) (scatterercolor a) (surfacecolor a) (calls a).

(** The single-panel axes of [setFigure(num_axes=1, mode='light')]. *)
Definition light_axes (i : Z) : Axes := {|
  source_index := i;
  alpha := 0.6%float;
  linecolor := "slategray";
  linewidth := 0.95%float;
  labelcolor := "#4c4c4c";
  titlecolor := "black";
  receivercolor := "black";
  sourcecolor := "black";
  activesourcecolor := "darkcyan";
  inactivesourcecolor := "darkgray";
  scatterercolor := "darkgray";
  surfacecolor := "c";
  calls := []
|}.

Section Drawing.
(** The state of a render call: the axes and the array it was handed. *)
Context {D : Type}.

(** [ax.clear()] *)
Definition ax_clear : M (Axes * D) unit :=
  modify (fun s => (with_calls [] (fst s), snd s)).

(** Any other call on [ax]. *)
Definition draw (c : call) : M (Axes * D) unit :=
  modify (fun s => (with_calls (calls (fst s) ++ [c])%list (fst s), snd s)).

Definition the_axes : M (Axes * D) Axes := fun s => (s, Ok (fst s)).
Definition the_array : M (Axes * D) D := fun s => (s, Ok (snd s)).
Definition set_array (d : D) : M (Axes * D) unit :=
  modify (fun s => (fst s, d)).
End Drawing.

(** [range(N)] *)
Definition range (N : Z) : list Z := map Z.of_nat (seq 0 (Z.to_nat N)).

(** ** Wiggle rendering *)

(** The body of the loop over traces: the line of trace [n] around its
    offset [interval[n]], and the fills above and below the offset. *)
Definition draw_trace (xvals : list float) (interval : list Z)
    (pos_fill neg_fill : string) (n : Z) : M (Axes * ndarray2) unit :=
  ax <- the_axes ;;
  X <- the_array ;;
  k <- lift (py_index interval n) ;;
  Xn <- lift (row X n) ;;
  draw (Plot xvals (offset_row k Xn) (linecolor ax) (linewidth ax)) ;;
  draw (FillBetween xvals k (offset_row k Xn)
          (map (fun y => PrimFloat.ltb (float_of_Z k) y) (offset_row k Xn))
          pos_fill (alpha ax)) ;;
  draw (FillBetween xvals k (offset_row k Xn)
          (map (fun y => PrimFloat.ltb y (float_of_Z k)) (offset_row k Xn))
          neg_fill (alpha ax)).

(** [scaleFactor = np.max(np.ptp(X, axis=1))] followed by the guarded
    in-place division [X /= scaleFactor]. *)
Definition rescale_by_ptp : M (Axes * ndarray2) unit :=
  X <- the_array ;;
  scaleFactor <- lift (max_ptp X) ;;
  if float_neb scaleFactor 0 then set_array (idiv X scaleFactor) else ret tt.

Definition plotWiggles (xvals : list float) (interval : list Z)
    (coordinates : option ndarray2) (title flag : string)
    (plotParams : PlotParams) : M (Axes * ndarray2) unit :=
  ax_clear ;;
  ax <- the_axes ;;
  X <- the_array ;;
  let N := shape0 X in
  id_number <- lift (py_index interval 0) ;;
  ylabel <- lift (set_ylabel N coordinates id_number flag plotParams) ;;
  draw (SetYLabel ylabel (labelcolor ax)) ;;
  (if 1 <? N then
     if N <=? 18 then
       draw (SetYTicks interval) ;;
       draw (SetYTickLabels interval) ;;
       draw SetpYTickLabelsVisible ;;
       draw SetpYTickLinesVisible ;;
       fills <- lift (unpack_fills (get_cmap_colors (wiggle_colormap plotParams)
                                      (view_mode plotParams) true)) ;;
       rescale_by_ptp ;;
       for_each (range N) (draw_trace xvals interval (fst fills) (snd fills))
     else if ((18 <? N) && (N <=? 70))%bool then
       fills <- lift (unpack_fills (get_cmap_colors (wiggle_colormap plotParams)
                                      (view_mode plotParams) true)) ;;
       rescale_by_ptp ;;
       for_each (range N) (draw_trace xvals interval (fst fills) (snd fills))
     else
       scaleFactor <- lift (max_abs X) ;;
       let pclip := pclip plotParams in
       let wiggle_cmap := get_cmap_colors (wiggle_colormap plotParams)
                            (view_mode plotParams) false in
       draw (PColorMeshWiggle xvals interval X
               (PrimFloat.mul (PrimFloat.opp scaleFactor) pclip)
               (PrimFloat.mul scaleFactor pclip) wiggle_cmap)
   else
     fills <- lift (unpack_fills (get_cmap_colors (wiggle_colormap plotParams)
                                    (view_mode plotParams) true)) ;;
     draw (OffsetTextSetX (-0.1)%float) ;;
     X0 <- lift (row X 0) ;;
     draw (Plot xvals X0 (linecolor ax) (linewidth ax)) ;;
     draw (FillBetween xvals 0 X0 (map (fun y => PrimFloat.ltb 0 y) X0)
             (fst fills) (alpha ax)) ;;
     draw (FillBetween xvals 0 X0 (map (fun y => PrimFloat.ltb y 0) X0)
             (snd fills) (alpha ax)) ;;
     draw TickLabelFormatSciY) ;;
  draw (SetTitle title (titlecolor ax)) ;;
  let tu := tu plotParams in
  (if nonempty tu then
     label <- lift (py_format "Time (%s)" [ArgS tu]) ;;
     draw (SetXLabel label (labelcolor ax))
   else draw (SetXLabel "Time" (labelcolor ax))) ;;
  lo <- lift (py_index xvals 0) ;;
  hi <- lift (py_index xvals (-1)) ;;
  draw (SetXLim lo hi).

(** ** Image rendering *)



(** ** Experiments and navigation *)

(** An experiment.  [data] is the three-dimensional recording, held as
    its frames [data[:, :, k]], one per source index [k]; each frame is a
    view, so a write to it is a write to the recording. *)
Record Experiment : Type := mk_Experiment {
  data : list ndarray2;
  time : list float;
  receiverNumbers : list Z;
  receiverPoints : option ndarray2;
  sourceNumbers : list Z;
  sourcePoints : option ndarray2;
  wiggleType : string
}.

Definition with_data (d : list ndarray2) (e : Experiment) : Experiment :=
  mk_Experiment d (time e) (receiverNumbers e) (receiverPoints e)
                (sourceNumbers e) (sourcePoints e) (wiggleType e).

(** [xs[i] = x] for an index already known to be in range. *)
Fixpoint list_update {A} (xs : list A) (i : nat) (x : A) : list A :=
  match xs, i with
  | [], _ => []
  | _ :: xs', O => x :: xs'
  | y :: xs', S i' => y :: list_update xs' i' x
  end.

Definition normal_index {A} (xs : list A) (i : Z) : nat :=
  Z.to_nat (if i <? 0 then i + Z.of_nat (List.length xs) else i).

(** Runs a render call on the view [experiment.data[:, :, i]]: what the
    call writes to the view is written to the recording. *)
Definition on_frame {A} (i : Z) (c : M (Axes * ndarray2) A)
  : M (Axes * Experiment) A :=
  fun s =>
    let ax := fst s in
    let e := snd s in
    match py_index (data e) i with
    | Raise err => (s, Raise err)
    | Ok X =>
        let (s', r) := c (ax, X) in
        ((fst s', with_data (list_update (data e) (normal_index (data e) i) (snd s')) e), r)
    end.

(** [ax.source_index = i] *)
Definition set_source_index {D} (i : Z) : M (Axes * D) unit :=
  modify (fun s => (with_source_index i (fst s), snd s)).

(** The title and wiggle plot of the frame at the cursor of [ax]. *)
Definition render_wave (plotParams : PlotParams) : M (Axes * Experiment) unit :=
  ax <- the_axes ;;
  experiment <- the_array ;;
  title <- lift (wave_title (source_index ax) (sourceNumbers experiment)
                   (sourcePoints experiment) (wiggleType experiment) plotParams) ;;
  on_frame (source_index ax)
    (plotWiggles (time experiment) (receiverNumbers experiment)
       (receiverPoints experiment) title (wiggleType experiment) plotParams).

Definition next_wave (plotParams : PlotParams) : M (Axes * Experiment) unit :=
  ax <- the_axes ;;
  experiment <- the_array ;;
  let Ns := Z.of_nat (List.length (sourceNumbers experiment)) in
  i <- lift (py_mod (source_index ax + 1) Ns) ;;
  set_source_index i ;;
  render_wave plotParams.

Definition previous_wave (plotParams : PlotParams) : M (Axes * Experiment) unit :=
  ax <- the_axes ;;
  experiment <- the_array ;;
  let Ns := Z.of_nat (List.length (sourceNumbers experiment)) in
  i <- lift (py_mod (source_index ax - 1) Ns) ;;
  set_source_index i ;;
  render_wave plotParams.

(** ** The map panel *)

(** [np.delete(a, index, axis=0)] *)
Definition np_delete_row (a : ndarray2) (i : Z) : res ndarray2 :=
  let? _ := py_index (rows a) i in
  let j := normal_index (rows a) i in
  Ok (mk_ndarray2 (shape1 a) (firstn j (rows a) ++ skipn (S j) (rows a))%list).

(** Reading an attribute of an object that may be [None]. *)
Definition attr_of {A} (a : option A) : res A :=
  match a with
  | Some a => Ok a
  | None => Raise AttributeError
  end.

Section Map.
Context {D : Type}.
Variable plotParams : PlotParams.

(** [ax.plot(a[:, 0], ..., a[:, dim-1], marker, color=color)] *)
Definition plot_columns (a : ndarray2) (dim : Z) (marker color : string)
  : M (Axes * D) unit :=
  cols <- lift (map_res (column a) (range dim)) ;;
  draw (PlotPoints cols marker None color).

(** [ax.plot(p[0], ..., p[dim-1], marker=marker, markersize=12, color=color)] *)
Definition plot_point (p : list float) (dim : Z) (marker color : string)
  : M (Axes * D) unit :=
  cur <- lift (map_res (fun j => let? c := py_index p j in Ok [c]) (range dim)) ;;
  draw (PlotPoints cur marker (Some 12) color).

(** The receivers, when shown. *)
Definition map_receivers (receiverPoints : ndarray2) (dim : Z)
  : M (Axes * D) unit :=
  ax <- the_axes ;;
  if show_receivers plotParams
  then plot_columns receiverPoints dim "v" (receivercolor ax)
  else ret tt.

(** The scatterer boundary, when known and shown. *)
Definition map_scatterer (scatterer : option ndarray2) (dim : Z)
  : M (Axes * D) unit :=
  ax <- the_axes ;;
  match scatterer with
  | Some sc =>
      if show_scatterer plotParams
      then plot_columns sc dim "--" (scatterercolor ax)
      else ret tt
  | None => ret tt
  end.

(** The z-axis label and inversion of a three-dimensional map. *)
Definition map_zaxis : M (Axes * D) unit :=
  ax <- the_axes ;;
  let zu := zu plotParams in
  let zlabel := zlabel plotParams in
  (if nonempty zu then
     unit_ <- lift (py_format " (%s)" [ArgS zu]) ;;
     draw (SetZLabel (zlabel ++ unit_) (labelcolor ax))
   else draw (SetZLabel zlabel (labelcolor ax))) ;;
  if invert_zaxis plotParams then draw InvertZAxis else ret tt.

(** All the sources in one colour (no cursor). *)
Definition map_sources (sourcePoints : ndarray2) (dim : Z) (flag : string)
  : M (Axes * D) unit :=
  ax <- the_axes ;;
  if (String.eqb flag "data" && show_sources plotParams)%bool
  then plot_columns sourcePoints dim "*" (sourcecolor ax)
  else if String.eqb flag "impulse"
  then plot_columns sourcePoints dim "." (sourcecolor ax)
  else ret tt.

(** The source at the cursor in the active colour, the others in the
    inactive one. *)
Definition map_sources_at (sources : ndarray2) (currentSource : list float)
    (dim : Z) (flag : string) : M (Axes * D) unit :=
  ax <- the_axes ;;
  if (String.eqb flag "data" && show_sources plotParams)%bool then
    plot_columns sources dim "*" (inactivesourcecolor ax) ;;
    plot_point currentSource dim "*" (activesourcecolor ax)
  else if String.eqb flag "impulse" then
    plot_columns sources dim "." (inactivesourcecolor ax) ;;
    plot_point currentSource dim "." (activesourcecolor ax)
  else ret tt.

(** The panel without sources, the same for both kinds of [index]. *)
Definition map_without_sources (receiverPoints scatterer : option ndarray2)
  : M (Axes * D) unit :=
  rp <- lift (attr_of receiverPoints) ;;
  if shape1 rp =? 2 then
    map_receivers rp 2 ;;
    map_scatterer scatterer 2
  else if shape1 rp =? 3 then
    map_receivers rp 3 ;;
    map_scatterer scatterer 3 ;;
    map_zaxis
  else ret tt.

Definition plotMap (index : option Z)
    (receiverPoints sourcePoints scatterer : option ndarray2) (flag : string)
  : M (Axes * D) unit :=
  (match index with
   | None =>
       match sourcePoints with
       | None => map_without_sources receiverPoints scatterer
       | Some pts =>
           rp <- lift (attr_of receiverPoints) ;;
           if shape1 rp =? 2 then
             map_receivers rp 2 ;;
             map_sources pts 2 flag ;;
             map_scatterer scatterer 2
           else if shape1 rp =? 3 then
             map_receivers rp 3 ;;
             map_sources pts 3 flag ;;
             map_scatterer scatterer 3 ;;
             map_zaxis
           else ret tt
       end
   | Some index =>
       ax_clear ;;
       ax <- the_axes ;;
       draw (SetTitle "Map" (titlecolor ax)) ;;
       match sourcePoints with
       | None => map_without_sources receiverPoints scatterer
       | Some pts =>
           sources <- lift (np_delete_row pts index) ;;
           currentSource <- lift (row pts index) ;;
           rp <- lift (attr_of receiverPoints) ;;
           if shape1 rp =? 2 then
             map_receivers rp 2 ;;
             map_sources_at sources currentSource 2 flag ;;
             map_scatterer scatterer 2
           else if shape1 rp =? 3 then
             map_receivers rp 3 ;;
             map_sources_at sources currentSource 3 flag ;;
             map_scatterer scatterer 3 ;;
             map_zaxis
           else ret tt
       end
   end) ;;
  draw (Grid false) ;;
  draw SetAspectEqual ;;
  ax <- the_axes ;;
  let xu := xu plotParams in
  let xlabel := xlabel plotParams in
  let yu := yu plotParams in
  let ylabel := ylabel plotParams in
  (if nonempty xu then
     unit_ <- lift (py_format " (%s)" [ArgS xu]) ;;
     draw (SetXLabel (xlabel ++ unit_) (labelcolor ax))
   else draw (SetXLabel xlabel (labelcolor ax))) ;;
  (if nonempty yu then
     unit_ <- lift (py_format " (%s)" [ArgS yu]) ;;
     draw (SetYLabel (ylabel ++ unit_) (labelcolor ax))
   else draw (SetYLabel ylabel (labelcolor ax))) ;;
  (if invert_xaxis plotParams then draw InvertXAxis else ret tt) ;;
  (if invert_yaxis plotParams then draw InvertYAxis else ret tt).
End Map.

(** [previous_map] and [next_map]: the map panel keeps a cursor of its
    own, over the rows of [sourcePoints]. *)
Definition previous_map {D} (receiverPoints sourcePoints scatterer : option ndarray2)
    (flag : string) (plotParams : PlotParams) : M (Axes * D) unit :=
  match sourcePoints with
  | Some pts =>
      ax <- the_axes ;;
      let Ns := shape0 pts in
      i <- lift (py_mod (source_index ax - 1) Ns) ;;
      set_source_index i ;;
      plotMap plotParams (Some i) receiverPoints sourcePoints scatterer flag
  | None => ret tt
  end.

Definition next_map {D} (receiverPoints sourcePoints scatterer : option ndarray2)
    (flag : string) (plotParams : PlotParams) : M (Axes * D) unit :=
  match sourcePoints with
  | Some pts =>
      ax <- the_axes ;;
      let Ns := shape0 pts in
      i <- lift (py_mod (source_index ax + 1) Ns) ;;
      set_source_index i ;;
      plotMap plotParams (Some i) receiverPoints sourcePoints scatterer flag
  | None => ret tt
  end.

(** ** The plotter and its key handlers *)

(** [Plotter]: the two experiments, the second possibly [None], and the
    index of the one on display. *)
Record Plotter : Type := mk_Plotter {
  experiments : list (option Experiment);
  index : Z
}.

(** [Plotter.__init__(original, reciprocal=None)] *)
Definition Plotter_init (original : Experiment) (reciprocal : option Experiment)
  : Plotter :=
  {| experiments := [Some original; reciprocal]; index := 0 |}.

(** What a key handler works on: the plotter and the axes of the figure
    that got the event, [event.canvas.figure.axes]. *)
Record Viewer : Type := mk_Viewer {
  plotter : Plotter;
  fig_axes : list Axes
}.

Definition set_index (i : Z) : M Viewer unit :=
  modify (fun v => mk_Viewer (mk_Plotter (experiments (plotter v)) i) (fig_axes v)).

(** Runs a render call on the axes [fig.axes[k]] and the experiment
    that [experiments[plotter.index]] refers to.  The axes are looked up
    first; an experiment that is [None] fails at its first attribute. *)
Definition on_panel {A} (k : Z) (c : M (Axes * Experiment) A) : M Viewer A :=
  fun v =>
    match py_index (fig_axes v) k with
    | Raise err => (v, Raise err)
    | Ok ax =>
        match py_index (experiments (plotter v)) (index (plotter v)) with
        | Raise err => (v, Raise err)
        | Ok None => (v, Raise AttributeError)
        | Ok (Some e) =>
            let (s', r) := c (ax, e) in
            (mk_Viewer
               (mk_Plotter
                  (list_update (experiments (plotter v))
                     (normal_index (experiments (plotter v)) (index (plotter v)))
                     (Some (snd s')))
                  (index (plotter v)))
               (list_update (fig_axes v) (normal_index (fig_axes v) k) (fst s')),
             r)
        end
    end.

(** The map panel of the experiment on display, at the panel's cursor. *)
Definition render_map (scatterer : option ndarray2) (plotParams : PlotParams)
  : M (Axes * Experiment) unit :=
  ax <- the_axes ;;
  experiment <- the_array ;;
  plotMap plotParams (Some (source_index ax)) (receiverPoints experiment)
    (sourcePoints experiment) scatterer (wiggleType experiment).

(** [switch_experiments(event, plotter, plotParams, scatterer, show_map)],
    [key] being [event.key].  ([fig.canvas.draw()] repaints and changes
    nothing in the modelled state.) *)
Definition switch_experiments (key : string) (plotParams : PlotParams)
    (scatterer : option ndarray2) (show_map : bool) : M Viewer unit :=
  v <- get ;;
  second <- lift (py_index (experiments (plotter v)) 1) ;;
  let Ne := match second with None => 1 | Some _ => 2 end in
  (if String.eqb key "r" then
     i <- lift (py_mod (index (plotter v) + 1) Ne) ;;
     set_index i
   else ret tt) ;;
  v <- get ;;
  _ <- lift (py_index (experiments (plotter v)) (index (plotter v))) ;;
  if show_map then
    _ <- lift (py_index (fig_axes v) 0) ;;
    _ <- lift (py_index (fig_axes v) 1) ;;
    on_panel 0 (render_wave plotParams) ;;
    on_panel 1 (render_map scatterer plotParams)
  else
    on_panel 0 (render_wave plotParams).

(** [process_key_waves(event, plotter, plotParams, scatterer, show_map)] *)
Definition process_key_waves (key : string) (plotParams : PlotParams)
    (scatterer : option ndarray2) (show_map : bool) : M Viewer unit :=
  v <- get ;;
  _ <- lift (py_index (experiments (plotter v)) (index (plotter v))) ;;
  if show_map then
    _ <- lift (py_index (fig_axes v) 0) ;;
    _ <- lift (py_index (fig_axes v) 1) ;;
    if (String.eqb key "left" || String.eqb key "down")%bool then
      on_panel 0 (previous_wave plotParams) ;;
      on_panel 1 (e <- the_array ;;
                  previous_map (receiverPoints e) (sourcePoints e) scatterer
                    (wiggleType e) plotParams)
    else if (String.eqb key "right" || String.eqb key "up")%bool then
      on_panel 0 (next_wave plotParams) ;;
      on_panel 1 (e <- the_array ;;
                  next_map (receiverPoints e) (sourcePoints e) scatterer
                    (wiggleType e) plotParams)
    else ret tt
  else
    _ <- lift (py_index (fig_axes v) 0) ;;
    if (String.eqb key "left" || String.eqb key "down")%bool then
      on_panel 0 (previous_wave plotParams)
    else if (String.eqb key "right" || String.eqb key "up")%bool then
      on_panel 0 (next_wave plotParams)
    else ret tt.

(** ** Keyboard shortcuts *)

(** [keys.remove(key)]: the first occurrence is removed; a list without
    the key raises. *)
Fixpoint list_remove (key : string) (keys : list string) : res (list string) :=
  match keys with
  | [] => Raise ValueError
  | k :: keys' =>
      if String.eqb k key then Ok keys'
      else pure_bind (list_remove key keys') (fun r => Ok (k :: r))
  end.

(** The same on the list held in the state. *)
Definition keys_remove (key : string) : M (list string) unit :=
  fun keys =>
    match list_remove key keys with
    | Ok keys' => (keys', Ok tt)
    | Raise e => (keys, Raise e)
    end.

(** [k in s] for a set of strings. *)
Definition mem (k : string) (s : list string) : bool := existsb (String.eqb k) s.

(** [set(keys) & new_keys_set], its elements listed once each.  (A Python
    set is iterated in an order of its own; the order is shown below to
    play no part.) *)
Definition set_inter (keys new_keys_set : list string) : list string :=
  nodup string_dec (filter (fun k => mem k new_keys_set) keys).

(** [plt.rcParams], as far as its values are lists of strings: the
    settings in the order of iteration. *)
Definition rcParams : Type := list (string * list string).

(** [for prop in d: body] where the body works on the value [d[prop]]. *)
Fixpoint for_each_item {V} (body : string -> M V unit) (d : list (string * V))
  : list (string * V) * res unit :=
  match d with
  | [] => ([], Ok tt)
  | (prop, v) :: d' =>
      match body prop v with
      | (v', Ok _) =>
          let (d'', r) := for_each_item body d' in ((prop, v') :: d'', r)
      | (v', Raise e) => ((prop, v') :: d', Raise e)
      end
  end.

(** The body of the loop of [remove_keymap_conflicts]. *)
Definition remove_conflicts (new_keys_set : list string) (prop : string)
  : M (list string) unit :=
  if String.prefix "keymap." prop then
    keys <- get ;;
    for_each (set_inter keys new_keys_set) keys_remove
  else ret tt.

Definition remove_keymap_conflicts (new_keys_set : list string) : M rcParams unit :=
  for_each_item (remove_conflicts new_keys_set).

(** ** Paging through images *)

(** The parameters of [image_viewer], each with whether it has a
    default value. *)
Definition image_viewer_parameters : list (string * bool) :=
  [("ax", false); ("volume", false); ("method", false); ("alpha", false);
   ("atol", false); ("btol", false); ("plotParams", false); ("X", false);
   ("Y", false); ("Z", true); ("tau", true)].

(** A call with [given] positional arguments and no keyword argument:
    the arguments are bound to the first parameters, and the call raises
    [TypeError] before the body is entered when there are more arguments
    than parameters or when a parameter left over has no default. *)
Definition positional_call (parameters : list (string * bool)) (given : nat)
  : res unit :=
  if (List.length parameters <? given)%nat then Raise TypeError
  else if forallb snd (skipn given parameters) then Ok tt
  else Raise TypeError.

(** What the image pager keeps on its axes: [ax.volume], of which only
    the shape plays a part here, and the cursor [ax.index]. *)
Record Pages : Type := mk_Pages {
  volume_shape : list Z;
  page_index : Z
}.

(** [a[:, ..., :, i]] with [axis] colons before [i], for its exceptions:
    an array with too few axes, or an index out of bounds for the axis,
    raises [IndexError]. *)
Definition index_axis (shape : list Z) (axis : nat) (i : Z) : res unit :=
  match nth_error shape axis with
  | None => Raise IndexError
  | Some n => if (i <? - n) || (n <=? i) then Raise IndexError else Ok tt
  end.

(** [tau[i]] for a [tau] that may be [None]. *)
Definition subscript (tau : option (list float)) (i : Z) : res float :=
  match tau with
  | Some t => py_index t i
  | None => Raise TypeError
  end.

Section Paging.
(** The grids [X], [Y], [Z] are handed on and never looked into. *)
Context {G : Type}.
(** What the body of [image_viewer] does once its parameters are bound. *)
Variable image_viewer_body : M (Axes * Pages) unit.

(** [ax.index = i] *)
Definition set_page_index (i : Z) : M (Axes * Pages) unit :=
  modify (fun s => (fst s, mk_Pages (volume_shape (snd s)) i)).

(** The call [image_viewer(ax, volume[..., ax.index], plotParams, alpha,
    X, Y, Z, tau[ax.index])] that ends both [previous_image] and
    [next_image]: the arguments are evaluated, then the eight of them are
    bound. *)
Definition show_page (Z_ : option G) (tau : option (list float))
  : M (Axes * Pages) unit :=
  pages <- the_array ;;
  _ <- lift (index_axis (volume_shape pages)
               (match Z_ with None => 2 | Some _ => 3 end) (page_index pages)) ;;
  _ <- lift (subscript tau (page_index pages)) ;;
  _ <- lift (positional_call image_viewer_parameters 8) ;;
  image_viewer_body.

Definition previous_image (plotParams : PlotParams) (alpha : float) (X Y : G)
    (Z_ : option G) (Ntau : Z) (tau : option (list float)) : M (Axes * Pages) unit :=
  pages <- the_array ;;
  i <- lift (py_mod (page_index pages - 1) Ntau) ;;
  set_page_index i ;;
  show_page Z_ tau.

Definition next_image (plotParams : PlotParams) (alpha : float) (X Y : G)
    (Z_ : option G) (Ntau : Z) (tau : option (list float)) : M (Axes * Pages) unit :=
  pages <- the_array ;;
  i <- lift (py_mod (page_index pages + 1) Ntau) ;;
  set_page_index i ;;
  show_page Z_ tau.

(** Runs a computation on the axes [fig.axes[k]]. *)
Definition on_axes {S A} (k : Z) (c : M S A) : M (list S) A :=
  fun axs =>
    match py_index axs k with
    | Raise e => (axs, Raise e)
    | Ok s => let (s', r) := c s in (list_update axs (normal_index axs k) s', r)
    end.

(** [process_key_images(event, plotParams, alpha, X, Y, Z, Ntau, tau)],
    [key] being [event.key], on the axes of the figure. *)
Definition process_key_images (key : string) (plotParams : PlotParams)
    (alpha : float) (X Y : G) (Z_ : option G) (Ntau : Z)
    (tau : option (list float)) : M (list (Axes * Pages)) unit :=
  axs <- get ;;
  _ <- lift (py_index axs 0) ;;
  if (String.eqb key "left" || String.eqb key "down")%bool then
    on_axes 0 (previous_image plotParams alpha X Y Z_ Ntau tau)
  else if (String.eqb key "right" || String.eqb key "up")%bool then
    on_axes 0 (next_image plotParams alpha X Y Z_ Ntau tau)
  else ret tt.
End Paging.

(** ** Singular vectors *)

(** [s == t] for a string [s] that may be [None]. *)
Definition is_str (s : option string) (t : string) : bool :=
  match s with
  | Some s => String.eqb s t
  | None => false
  end.

(** The title of a singular vector, numbered [n].  A flag other than
    'left' and 'right' assigns no title. *)
Definition vector_title (flag : string) (n : Z) (cmplx_part : option string)
  : res string :=
  if String.eqb flag "left" then
    if is_str cmplx_part "real" then
      py_format "$\mathrm{Re}\{\widehat{\phi}_{%d}(\mathbf{x}_r,\nu)\}$" [ArgI n]
    else if is_str cmplx_part "imag" then
      py_format "$\mathrm{Im}\{\widehat{\phi}_{%d}(\mathbf{x}_r,\nu)\}$" [ArgI n]
    else
      py_format "Left-Singular Vector $\phi_{%d}(\mathbf{x}_r,t)$" [ArgI n]
  else if String.eqb flag "right" then
    if is_str cmplx_part "real" then
      py_format "$\mathrm{Re}\{\widehat{\psi}_{%d}(\mathbf{x}_s,\nu)\}$" [ArgI n]
    else if is_str cmplx_part "imag" then
      py_format "$\mathrm{Im}\{\widehat{\psi}_{%d}(\mathbf{x}_s,\nu)\}$" [ArgI n]
    else
      py_format "Right-Singular Vector $\psi_{%d}(\mathbf{x}_s,t)$" [ArgI n]
  else Raise UnboundLocalError.

(** What the viewer of singular vectors keeps on an axes: [ax.volume],
    held as its slices [volume[:, :, k]], each a view, and the cursor
    [ax.index]. *)
Record Vectors : Type := mk_Vectors {
  vec_volume : list ndarray2;
  vec_index : Z
}.

(** [ax.index = i] *)
Definition set_vec_index (i : Z) : M (Axes * Vectors) unit :=
  modify (fun s => (fst s, mk_Vectors (vec_volume (snd s)) i)).

(** Runs a render call on the view [volume[:, :, i]]. *)
Definition on_slice {A} (i : Z) (c : M (Axes * ndarray2) A) : M (Axes * Vectors) A :=
  fun s =>
    let ax := fst s in
    let v := snd s in
    match py_index (vec_volume v) i with
    | Raise err => (s, Raise err)
    | Ok X =>
        let (s', r) := c (ax, X) in
        ((fst s',
          mk_Vectors (list_update (vec_volume v) (normal_index (vec_volume v) i) (snd s'))
                     (vec_index v)), r)
    end.

Section FreqVectors.
(** [ax.stem(x, y, linefmt=linefmt, markerfmt=markerfmt)], a call of the
    toolkit that the surface above has no name for. *)
Variable ax_stem : list float -> list float -> string -> string -> M (Axes * ndarray2) unit.

(** The frequency-domain render of a singular vector.  (The artist that
    the function returns is dropped by its callers.) *)
Definition plotFreqVectors (xvals : list float) (interval : list Z)
    (coordinates : option ndarray2) (title flag : string)
    (plotParams : PlotParams) : M (Axes * ndarray2) unit :=
  ax_clear ;;
  ax <- the_axes ;;
  draw (SetTitle title (titlecolor ax)) ;;
  let fu := fu plotParams in
  (if nonempty fu then
     label <- lift (py_format "Frequency (%s)" [ArgS fu]) ;;
     draw (SetXLabel label (labelcolor ax))
   else draw (SetXLabel "Frequency" (labelcolor ax))) ;;
  volume <- the_array ;;
  let N := shape0 volume in
  id_number <- lift (py_index interval 0) ;;
  ylabel <- lift (set_ylabel N coordinates id_number flag plotParams) ;;
  draw (SetYLabel ylabel (labelcolor ax)) ;;
  if 1 <? N then
    scaleFactor <- lift (max_abs volume) ;;
    (if float_neb scaleFactor 0 then set_array (idiv volume scaleFactor) else ret tt) ;;
    let wiggle_cmap := get_cmap_colors (wiggle_colormap plotParams)
                         (view_mode plotParams) false in
    volume <- the_array ;;
    draw (PColorMeshWiggle xvals interval volume (-1) 1 wiggle_cmap)
  else
    draw (OffsetTextSetX (-0.1)%float) ;;
    draw TickLabelFormatSciY ;;
    volume0 <- lift (row volume 0) ;;
    ax_stem xvals volume0 (linecolor ax) "mo".

(** The title and the plot of the vector at the cursor: a wiggle plot
    in the time domain, a frequency plot for a part of a complex vector. *)
Definition render_vector (xvals : list float) (interval : list Z)
    (coordinates : option ndarray2) (flag : string) (cmplx_part : option string)
    (plotParams : PlotParams) : M (Axes * Vectors) unit :=
  v <- the_array ;;
  title <- lift (vector_title flag (vec_index v + 1) cmplx_part) ;;
  match cmplx_part with
  | None =>
      on_slice (vec_index v)
        (plotWiggles xvals interval coordinates title flag plotParams)
  | Some _ =>
      on_slice (vec_index v)
        (plotFreqVectors xvals interval coordinates title flag plotParams)
  end.

Definition next_vector (xvals : list float) (interval : list Z)
    (coordinates : option ndarray2) (flag : string) (cmplx_part : option string)
    (plotParams : PlotParams) : M (Axes * Vectors) unit :=
  v <- the_array ;;
  i <- lift (py_mod (vec_index v + 1) (Z.of_nat (List.length (vec_volume v)))) ;;
  set_vec_index i ;;
  render_vector xvals interval coordinates flag cmplx_part plotParams.

Definition previous_vector (xvals : list float) (interval : list Z)
    (coordinates : option ndarray2) (flag : string) (cmplx_part : option string)
    (plotParams : PlotParams) : M (Axes * Vectors) unit :=
  v <- the_array ;;
  i <- lift (py_mod (vec_index v - 1) (Z.of_nat (List.length (vec_volume v)))) ;;
  set_vec_index i ;;
  render_vector xvals interval coordinates flag cmplx_part plotParams.
End FreqVectors.

(** ** The first display *)

(** The axes of [setFigure(mode='dark')]. *)
Definition dark_axes (i : Z) : Axes := {|
  source_index := i;
  alpha := 0.6%float;
  linecolor := "silver";
  linewidth := 0.95%float;
  labelcolor := "555555";
  titlecolor := "555555";
  receivercolor := "darkgray";
  sourcecolor := "darkgray";
  activesourcecolor := "c";
  inactivesourcecolor := "dimgray";
  scatterercolor := "lightgray";
  surfacecolor := "c";
  calls := []
|}.

(** The attributes [setFigure] attaches to an axes, by mode, as a
    function of the cursor the caller sets next; [None] for a mode that is
    neither 'light' nor 'dark', where the axes is returned without them. *)
Definition mode_axes (mode : string) : option (Z -> Axes) :=
  if String.eqb mode "light" then Some light_axes
  else if String.eqb mode "dark" then Some dark_axes
  else None.

(** [setFigure(num_axes, mode, ax1_dim, ax2_dim)], the axes it returns.
    A dimension other than 2 and 3 leaves the variable of the axes
    unassigned; a number of axes other than 1 and 2 returns [None], which
    no caller can unpack. *)
Definition setFigure (num_axes : Z) (mode : string) (ax1_dim ax2_dim : Z)
  : res (list (option (Z -> Axes))) :=
  let bound dim := ((dim =? 2) || (dim =? 3))%bool in
  if num_axes =? 1 then
    if bound ax1_dim then Ok [mode_axes mode] else Raise UnboundLocalError
  else if num_axes =? 2 then
    if (bound ax1_dim && bound ax2_dim)%bool then Ok [mode_axes mode; mode_axes mode]
    else Raise UnboundLocalError
  else Raise TypeError.

(** [plotWiggles] on an axes without attributes: up to its first read of
    one, [ax.labelcolor]. *)
Definition plotWiggles_unstyled {A} (interval : list Z) (coordinates : option ndarray2)
    (flag : string) (plotParams : PlotParams) (X : ndarray2) : res A :=
  let? id_number := py_index interval 0 in
  let? _ := set_ylabel (shape0 X) coordinates id_number flag plotParams in
  Raise AttributeError.

(** Runs a render call of a new axes on the experiment of the state, and
    returns the axes as the call leaves it. *)
Definition render_on {G} (ax : Axes) (c : M (Axes * Experiment) unit)
  : M (G * Experiment) Axes :=
  fun s =>
    let (s', r) := c (ax, snd s) in
    ((fst s, snd s'),
     match r with
     | Ok _ => Ok (fst s')
     | Raise e => Raise e
     end).

(** Runs a computation on [plt.rcParams]. *)
Definition on_rcParams {E A} (c : M rcParams A) : M (rcParams * E) A :=
  fun s => let (rc', r) := c (fst s) in ((rc', snd s), r).

(** [Experiment.plot(self, scatterer, plotParams, show_map)]: the axes of
    the figure it returns. *)
Definition Experiment_plot (scatterer : option ndarray2) (plotParams : PlotParams)
    (show_map : bool) : M (rcParams * Experiment) (list Axes) :=
  on_rcParams (remove_keymap_conflicts ["left"; "right"; "up"; "down"; "save"]) ;;
  s <- get ;;
  let self := snd s in
  axes <- lift (if show_map then
                  let? rp := attr_of (receiverPoints self) in
                  setFigure 2 (view_mode plotParams) 2 (shape1 rp)
                else setFigure 1 (view_mode plotParams) 2 2) ;;
  ax1 <- lift (py_index axes 0) ;;
  let i := Z.of_nat (List.length (sourceNumbers self)) / 2 in
  title <- lift (wave_title i (sourceNumbers self) (sourcePoints self)
                   (wiggleType self) plotParams) ;;
  match ax1 with
  | None =>
      X <- lift (py_index (data self) i) ;;
      lift (plotWiggles_unstyled (receiverNumbers self) (receiverPoints self)
              (wiggleType self) plotParams X)
  | Some styled =>
      ax1 <- render_on (styled i)
               (on_frame i (plotWiggles (time self) (receiverNumbers self)
                              (receiverPoints self) title (wiggleType self) plotParams)) ;;
      if show_map then
        ax2 <- render_on (styled i)
                 (plotMap plotParams (Some i) (receiverPoints self) (sourcePoints self)
                    scatterer (wiggleType self)) ;;
        ret [ax1; ax2]
      else ret [ax1]
  end.

(** [Plotter.plot(self, scatterer, plotParams, show_map)]: the axes of
    the figure that the two key handlers are connected to. *)
Definition Plotter_plot (scatterer : option ndarray2) (plotParams : PlotParams)
    (show_map : bool) : M (rcParams * Plotter) (list Axes) :=
  on_rcParams (remove_keymap_conflicts ["r"]) ;;
  s <- get ;;
  let self := snd s in
  experiment <- lift (py_index (experiments self) (index self)) ;;
  experiment <- lift (attr_of experiment) ;;
  fun s =>
    let (s', r) := Experiment_plot scatterer plotParams show_map (fst s, experiment) in
    ((fst s',
      mk_Plotter (list_update (experiments self)
                    (normal_index (experiments self) (index self)) (Some (snd s')))
                 (index self)),
     r).

(** * Reasoning about runs *)

(** [wp c Q E s]: the run of [c] from [s] ends normally in a state and
    value satisfying [Q], or with an exception in a state satisfying [E]. *)
Definition wp {S A} (c : M S A) (Q : A -> S -> Prop) (E : exn -> S -> Prop)
    (s : S) : Prop :=
  match c s with
  | (s', Ok a) => Q a s'
  | (s', Raise e) => E e s'
  end.

Section WpRules.
Context {S : Type}.

Lemma wp_ret {A} (a : A) (Q : A -> S -> Prop) E s :
  Q a s -> wp (ret a) Q E s.
Proof. intro H. exact H. Qed.

Lemma wp_bind {A B} (c : M S A) (k : A -> M S B) Q E s :
  wp c (fun a s' => wp (k a) Q E s') E s -> wp (bind c k) Q E s.
Proof.
  unfold wp, bind. destruct (c s) as [s' [a|e]]; intro H; exact H.
Qed.

Lemma wp_lift {A} (r : res A) (Q : A -> S -> Prop) E s :
  match r with Ok a => Q a s | Raise e => E e s end -> wp (lift r) Q E s.
Proof. unfold wp, lift. destruct r; intro H; exact H. Qed.

Lemma wp_get (Q : S -> S -> Prop) E s : Q s s -> wp get Q E s.
Proof. intro H. exact H. Qed.

Lemma wp_modify (f : S -> S) (Q : unit -> S -> Prop) E s :
  Q tt (f s) -> wp (modify f) Q E s.
Proof. intro H. exact H. Qed.

Lemma wp_conseq {A} (c : M S A) (Q Q' : A -> S -> Prop) (E E' : exn -> S -> Prop) s :
  (forall a s', Q a s' -> Q' a s') -> (forall e s', E e s' -> E' e s') ->
  wp c Q E s -> wp c Q' E' s.
Proof.
  unfold wp. intros HQ HE. destruct (c s) as [s' [a|e]]; auto.
Qed.

(** A loop keeps an invariant indexed by the elements already visited. *)
Lemma wp_for_each_from {A} (body : A -> M S unit) (I : list A -> S -> Prop) E :
  forall xs done s,
    (forall pre x s', I pre s' -> In x xs ->
       wp (body x) (fun _ s'' => I (pre ++ [x])%list s'') E s') ->
    I done s ->
    wp (for_each xs body) (fun _ s' => I (done ++ xs)%list s') E s.
Proof.
  induction xs as [|x xs IH]; intros done s Hbody Hinv; simpl.
  - rewrite app_nil_r. exact Hinv.
  - apply wp_bind.
    eapply wp_conseq; [| intros e s' H; exact H | apply (Hbody done x s Hinv); left; reflexivity].
    intros u s' Hs'. simpl in Hs'.
    replace (done ++ x :: xs)%list with ((done ++ [x]) ++ xs)%list
      by (rewrite <- app_assoc; reflexivity).
    apply IH; [| exact Hs'].
    intros pre y s'' Hpre Hy. apply Hbody; [exact Hpre | right; exact Hy].
Qed.

Lemma wp_for_each {A} (body : A -> M S unit) (I : list A -> S -> Prop) E xs s :
  (forall pre x s', I pre s' -> In x xs ->
     wp (body x) (fun _ s'' => I (pre ++ [x])%list s'') E s') ->
  I [] s ->
  wp (for_each xs body) (fun _ s' => I xs s') E s.
Proof. intros Hbody Hinv. exact (wp_for_each_from body I E xs [] s Hbody Hinv). Qed.

End WpRules.

Section WpDrawing.
Context {D : Type}.

Lemma wp_draw (c : call) (Q : unit -> Axes * D -> Prop) E s :
  Q tt (with_calls (calls (fst s) ++ [c])%list (fst s), snd s) ->
  wp (draw c) Q E s.
Proof. intro H. exact H. Qed.

Lemma wp_ax_clear (Q : unit -> Axes * D -> Prop) E s :
  Q tt (with_calls [] (fst s), snd s) -> wp ax_clear Q E s.
Proof. intro H. exact H. Qed.

Lemma wp_the_axes (Q : Axes -> Axes * D -> Prop) E s :
  Q (fst s) s -> wp the_axes Q E s.
Proof. intro H. exact H. Qed.

Lemma wp_the_array (Q : D -> Axes * D -> Prop) E s :
  Q (snd s) s -> wp the_array Q E s.
Proof. intro H. exact H. Qed.

Lemma wp_set_array (d : D) (Q : unit -> Axes * D -> Prop) E s :
  Q tt (fst s, d) -> wp (set_array d) Q E s.
Proof. intro H. exact H. Qed.

Lemma wp_set_source_index (i : Z) (Q : unit -> Axes * D -> Prop) E s :
  Q tt (with_source_index i (fst s), snd s) -> wp (set_source_index i) Q E s.
Proof. intro H. exact H. Qed.
End WpDrawing.

Ltac wp_step :=
  lazymatch goal with
  | |- wp (bind _ _) _ _ _ => apply wp_bind
  | |- wp (ret _) _ _ _ => apply wp_ret
  | |- wp (lift _) _ _ _ => apply wp_lift
  | |- wp (draw _) _ _ _ => apply wp_draw
  | |- wp ax_clear _ _ _ => apply wp_ax_clear
  | |- wp the_axes _ _ _ => apply wp_the_axes
  | |- wp the_array _ _ _ => apply wp_the_array
  | |- wp (set_array _) _ _ _ => apply wp_set_array
  | |- wp (set_source_index _) _ _ _ => apply wp_set_source_index
  | |- wp get _ _ _ => apply wp_get
  | |- wp (if ?b then _ else _) _ _ _ => destruct b eqn:?
  | |- match ?r with Ok _ => _ | Raise _ => _ end => destruct r eqn:?
  end.

Ltac wp_simpl :=
  cbn [fst snd calls with_calls with_source_index source_index alpha linecolor
       linewidth labelcolor titlecolor receivercolor sourcecolor
       activesourcecolor inactivesourcecolor scatterercolor surfacecolor] in *.

(** ** What a render call keeps *)

(** The attributes of an axes object, the calls apart. *)
Definition style (a : Axes) : Axes := with_calls [] a.

(** [grows Q s0 s]: from [s0] to [s] the array and the attributes of the
    axes are kept, and the calls of [s0] are followed by calls in [Q]. *)
Definition grows {D} (Q : call -> Prop) (s0 s : Axes * D) : Prop :=
  style (fst s) = style (fst s0) /\ snd s = snd s0 /\
  exists l, calls (fst s) = (calls (fst s0) ++ l)%list /\ Forall Q l.

Section Grows.
Context {D : Type}.
Variable Q : call -> Prop.

Lemma grows_refl (s : Axes * D) : grows Q s s.
Proof.
  split; [reflexivity | split; [reflexivity |]].
  exists []. rewrite app_nil_r. split; [reflexivity | constructor].
Qed.

Lemma grows_trans (s0 s1 s2 : Axes * D) :
  grows Q s0 s1 -> grows Q s1 s2 -> grows Q s0 s2.
Proof.
  intros (Hs1 & Ha1 & l1 & Hc1 & Hq1) (Hs2 & Ha2 & l2 & Hc2 & Hq2).
  split; [congruence | split; [congruence |]].
  exists (l1 ++ l2)%list. split.
  - rewrite Hc2, Hc1, app_assoc. reflexivity.
  - apply Forall_app. split; assumption.
Qed.

Lemma grows_In (s0 s : Axes * D) (c : call) :
  grows Q s0 s -> In c (calls (fst s0)) -> In c (calls (fst s)).
Proof.
  intros (_ & _ & l & Hl & _) Hin. rewrite Hl. apply in_or_app. left. exact Hin.
Qed.

Lemma grows_Forall (s0 s : Axes * D) :
  grows Q s0 s -> Forall Q (calls (fst s0)) -> Forall Q (calls (fst s)).
Proof.
  intros (_ & _ & l & Hl & Hq) H0. rewrite Hl. apply Forall_app. split; assumption.
Qed.
End Grows.

Lemma grows_weaken {D} (Q Q' : call -> Prop) (s0 s : Axes * D) :
  (forall c, Q c -> Q' c) -> grows Q s0 s -> grows Q' s0 s.
Proof.
  intros HQ (Hs & Ha & l & Hl & Hq).
  split; [exact Hs | split; [exact Ha |]].
  exists l. split; [exact Hl |]. eapply Forall_impl; [| exact Hq]. exact HQ.
Qed.

(** ** The kinds of calls a wiggle plot makes *)

Inductive call_kind : Type := Caption | Ticks | Trace | Raster | Other.

Definition kind (c : call) : call_kind :=
  match c with
  | SetYLabel _ _ | SetXLabel _ _ | SetTitle _ _ | SetXLim _ _
  | OffsetTextSetX _ | TickLabelFormatSciY => Caption
  | SetYTicks _ | SetYTickLabels _
  | SetpYTickLabelsVisible | SetpYTickLinesVisible => Ticks
  | Plot _ _ _ _ | FillBetween _ _ _ _ _ _ => Trace
  | PColorMeshWiggle _ _ _ _ _ _ => Raster
  | _ => Other
  end.

Definition is_caption (c : call) : Prop := kind c = Caption.
Definition is_trace (c : call) : Prop := kind c = Trace.

(** ** Wiggle rendering: what is drawn and what is kept *)

(** The line of trace [n]: the row [X[n, :]] shifted by [interval[n]]. *)
Definition line_of (ax : Axes) (xvals : list float) (interval : list Z)
    (X : ndarray2) (n : Z) (c : call) : Prop :=
  exists k Xn, py_index interval n = Ok k /\ row X n = Ok Xn /\
    c = Plot xvals (offset_row k Xn) (linecolor ax) (linewidth ax).

Definition lines_drawn (ax : Axes) (xvals : list float) (interval : list Z)
    (X : ndarray2) (ns : list Z) (cs : list call) : Prop :=
  forall n, In n ns -> exists c, line_of ax xvals interval X n c /\ In c cs.

Lemma line_of_style a b xvals interval X n c :
  style a = style b -> line_of a xvals interval X n c -> line_of b xvals interval X n c.
Proof.
  intros Hs (k & Xn & Hk & Hr & Hc). exists k, Xn. repeat split; try assumption.
  assert (Hc1 : linecolor a = linecolor b) by exact (f_equal linecolor Hs).
  assert (Hc2 : linewidth a = linewidth b) by exact (f_equal linewidth Hs).
  rewrite <- Hc1, <- Hc2. exact Hc.
Qed.

Ltac grows_tac :=
  split; [reflexivity | split; [reflexivity |]];
  eexists; split;
  [ wp_simpl; rewrite <- ?app_assoc; first [reflexivity | symmetry; apply app_nil_r]
  | cbn [app]; repeat first [apply Forall_nil | apply Forall_cons]; try reflexivity ].

Lemma wp_draw_trace xvals interval pf nf n (s : Axes * ndarray2) :
  wp (draw_trace xvals interval pf nf n)
     (fun _ s' => grows is_trace s s' /\
                  exists c, line_of (fst s) xvals interval (snd s) n c /\
                            In c (calls (fst s')))
     (fun _ s' => grows is_trace s s') s.
Proof.
  unfold draw_trace.
  repeat (wp_step; wp_simpl); try apply grows_refl.
  split.
  - grows_tac.
  - eexists. split.
    + exists a, a0. repeat split; eassumption.
    + wp_simpl. rewrite <- !app_assoc. apply in_or_app. right. left. reflexivity.
Qed.

Lemma wp_traces xvals interval pf nf ns (s : Axes * ndarray2) :
  wp (for_each ns (draw_trace xvals interval pf nf))
     (fun _ s' => grows is_trace s s' /\
                  lines_drawn (fst s) xvals interval (snd s) ns (calls (fst s')))
     (fun _ s' => grows is_trace s s') s.
Proof.
  apply (wp_for_each (draw_trace xvals interval pf nf)
           (fun done s' => grows is_trace s s' /\
              lines_drawn (fst s) xvals interval (snd s) done (calls (fst s')))).
  - intros pre x s' [Hg Hl] _.
    eapply wp_conseq; [| | apply wp_draw_trace].
    + intros _ s'' [Hg' (c & Hc & Hin)]. split.
      * eapply grows_trans; eassumption.
      * intros n Hn. apply in_app_or in Hn. destruct Hn as [Hn | [Hn | []]].
        -- destruct (Hl n Hn) as (c' & Hc' & Hin'). exists c'. split; [exact Hc' |].
           eapply grows_In; eassumption.
        -- subst x. exists c. split; [| exact Hin].
           destruct Hg as (Hs & Ha & _). rewrite <- Ha.
           eapply line_of_style; [exact Hs | exact Hc].
    + intros e s'' Hg'. eapply grows_trans; eassumption.
  - split; [apply grows_refl | intros n []].
Qed.

(** The array [rescale_by_ptp] leaves behind. *)
Definition after_rescale (X : ndarray2) : ndarray2 :=
  match max_ptp X with
  | Ok scaleFactor => if float_neb scaleFactor 0 then idiv X scaleFactor else X
  | Raise _ => X
  end.

Lemma wp_rescale_by_ptp (s : Axes * ndarray2) :
  wp rescale_by_ptp
     (fun _ s' => fst s' = fst s /\ snd s' = after_rescale (snd s))
     (fun _ s' => s' = s) s.
Proof.
  unfold rescale_by_ptp, after_rescale.
  repeat (wp_step; wp_simpl); try (split; reflexivity); try reflexivity.
Qed.

(** The stacked traces of both line regimes: fills, rescaling, loop. *)
Lemma wp_stacked xvals interval (p : PlotParams) (N : Z) (s : Axes * ndarray2) :
  wp (fills <- lift (unpack_fills (get_cmap_colors (wiggle_colormap p)
                                      (view_mode p) true)) ;;
      rescale_by_ptp ;;
      for_each (range N) (draw_trace xvals interval (fst fills) (snd fills)))
     (fun _ s' =>
        grows is_trace (fst s, after_rescale (snd s)) s' /\
        lines_drawn (fst s) xvals interval (after_rescale (snd s)) (range N)
                    (calls (fst s')))
     (fun _ s' =>
        grows is_trace s s' \/ grows is_trace (fst s, after_rescale (snd s)) s') s.
Proof.
  wp_step. wp_step. wp_step.
  2: { left. apply grows_refl. }
  wp_step.
  eapply wp_conseq; [| | apply wp_rescale_by_ptp].
  2: { intros e s' ->. left. apply grows_refl. }
  intros u [ax' X'] [Hax HX]. cbn [fst snd] in Hax, HX. subst ax' X'.
  eapply wp_conseq; [| | apply wp_traces].
  - intros u' s' H. exact H.
  - intros e s' H. right. exact H.
Qed.

(** The array a wiggle render that returns leaves behind: rescaled for
    2 to 70 traces, untouched otherwise. *)
Definition frame_after (X : ndarray2) : ndarray2 :=
  if ((1 <? shape0 X) && (shape0 X <=? 70))%bool then after_rescale X else X.

(** The calls a render of [N] traces may make: captions always, tick
    calls for 2 to 18 traces, lines and fills up to 70 traces, the grid
    above 70, and nothing else. *)
Definition allowed (N : Z) (c : call) : Prop :=
  match kind c with
  | Caption => True
  | Ticks => 1 < N <= 18
  | Trace => N <= 70
  | Raster => 70 < N
  | Other => False
  end.

(** What a render that returns has drawn, by the number of traces. *)
Record rendered (ax : Axes) (xvals : list float) (interval : list Z)
    (X : ndarray2) (cs : list call) : Prop := {
  rendered_ticks :
    1 < shape0 X <= 18 ->
    In (SetYTicks interval) cs /\ In (SetYTickLabels interval) cs;
  rendered_lines :
    1 < shape0 X <= 70 ->
    lines_drawn ax xvals interval (after_rescale X) (range (shape0 X)) cs;
  rendered_raster :
    70 < shape0 X ->
    exists lo hi cmap, In (PColorMeshWiggle xvals interval X lo hi cmap) cs;
  rendered_single :
    shape0 X <= 1 ->
    exists X0, row X 0 = Ok X0 /\
               In (Plot xvals X0 (linecolor ax) (linewidth ax)) cs
}.

Lemma with_calls_twice l l' a : with_calls l (with_calls l' a) = with_calls l a.
Proof. reflexivity. Qed.

Ltac bool_hyps :=
  repeat match goal with
  | H : (_ && _)%bool = true |- _ => apply andb_true_iff in H; destruct H
  | H : (_ && _)%bool = false |- _ => apply andb_false_iff in H
  | H : (_ <? _) = true |- _ => apply Z.ltb_lt in H
  | H : (_ <? _) = false |- _ => apply Z.ltb_ge in H
  | H : (_ <=? _) = true |- _ => apply Z.leb_le in H
  | H : (_ <=? _) = false |- _ => apply Z.leb_gt in H
  | H : _ \/ _ |- _ => destruct H
  end.

Lemma frame_after_lines X :
  1 < shape0 X <= 70 -> frame_after X = after_rescale X.
Proof.
  intros [H1 H2]. unfold frame_after.
  apply Z.ltb_lt in H1. apply Z.leb_le in H2. rewrite H1, H2. reflexivity.
Qed.

Lemma frame_after_other X :
  shape0 X <= 1 \/ 70 < shape0 X -> frame_after X = X.
Proof.
  intros H. unfold frame_after.
  destruct (1 <? shape0 X) eqn:H1; [| reflexivity].
  destruct (shape0 X <=? 70) eqn:H2; [| reflexivity].
  bool_hyps; lia.
Qed.

(** What holds of the state when a render call returns, and when it
    raises. *)
Definition post_ok (ax : Axes) (xvals : list float) (interval : list Z)
    (X : ndarray2) (s' : Axes * ndarray2) : Prop :=
  style (fst s') = style ax /\ snd s' = frame_after X /\
  Forall (allowed (shape0 X)) (calls (fst s')) /\
  rendered ax xvals interval X (calls (fst s')).

Definition post_ex (ax : Axes) (X : ndarray2) (s' : Axes * ndarray2) : Prop :=
  style (fst s') = style ax /\ (snd s' = X \/ snd s' = frame_after X) /\
  Forall (allowed (shape0 X)) (calls (fst s')).

Lemma post_ok_ex ax xvals interval X s :
  post_ok ax xvals interval X s -> post_ex ax X s.
Proof.
  intros (Hs & Ha & Hf & _). split; [exact Hs | split; [right; exact Ha | exact Hf]].
Qed.

Lemma post_ex_grows (Q : call -> Prop) ax X s s' :
  (forall c, Q c -> allowed (shape0 X) c) ->
  grows Q s s' -> post_ex ax X s -> post_ex ax X s'.
Proof.
  intros HQ Hg (Hs & Ha & Hf).
  pose proof (grows_weaken Q (allowed (shape0 X)) s s' HQ Hg) as Hg'.
  destruct Hg as (Hs' & Ha' & _).
  split; [congruence | split; [rewrite Ha'; exact Ha |]].
  eapply grows_Forall; eassumption.
Qed.

Lemma rendered_grows (Q : call -> Prop) ax xvals interval X (s s' : Axes * ndarray2) :
  grows Q s s' ->
  rendered ax xvals interval X (calls (fst s)) ->
  rendered ax xvals interval X (calls (fst s')).
Proof.
  intros Hg [Ht Hl Hr Hs]. split.
  - intros H. destruct (Ht H) as [H1 H2].
    split; eapply grows_In; eassumption.
  - intros H n Hn. destruct (Hl H n Hn) as (c & Hc & Hin).
    exists c. split; [exact Hc | eapply grows_In; eassumption].
  - intros H. destruct (Hr H) as (lo & hi & cm & Hin).
    exists lo, hi, cm. eapply grows_In; eassumption.
  - intros H. destruct (Hs H) as (X0 & HX0 & Hin).
    exists X0. split; [exact HX0 | eapply grows_In; eassumption].
Qed.

Lemma post_ok_grows (Q : call -> Prop) ax xvals interval X s s' :
  (forall c, Q c -> allowed (shape0 X) c) ->
  grows Q s s' -> post_ok ax xvals interval X s -> post_ok ax xvals interval X s'.
Proof.
  intros HQ Hg (Hs & Ha & Hf & Hr).
  pose proof (grows_weaken Q (allowed (shape0 X)) s s' HQ Hg) as Hg'.
  pose proof Hg as (Hs' & Ha' & _).
  split; [congruence | split; [congruence | split]].
  - eapply grows_Forall; eassumption.
  - eapply rendered_grows; eassumption.
Qed.

Lemma caption_allowed N c : is_caption c -> allowed N c.
Proof. unfold is_caption, allowed. intros ->. exact I. Qed.

Lemma trace_allowed N c : N <= 70 -> is_trace c -> allowed N c.
Proof. unfold is_trace, allowed. intros H ->. exact H. Qed.

(** The title, the time label and the limits that end every render. *)
Lemma wp_finish (title : string) (p : PlotParams) (ax : Axes) (xvals : list float)
    (s : Axes * ndarray2) :
  wp (draw (SetTitle title (titlecolor ax)) ;;
      (if nonempty (tu p) then
         label <- lift (py_format "Time (%s)" [ArgS (tu p)]) ;;
         draw (SetXLabel label (labelcolor ax))
       else draw (SetXLabel "Time" (labelcolor ax))) ;;
      lo <- lift (py_index xvals 0) ;;
      hi <- lift (py_index xvals (-1)) ;;
      draw (SetXLim lo hi))
     (fun _ s' => grows is_caption s s')
     (fun _ s' => grows is_caption s s') s.
Proof.
  repeat (wp_step; wp_simpl); rewrite ?with_calls_twice; grows_tac.
Qed.

Ltac wp_run :=
  repeat (lazymatch goal with
          | |- wp (bind (lift (unpack_fills _)) (fun _ => bind rescale_by_ptp _)) _ _ _ => fail
          | |- wp (bind (draw (SetTitle _ _)) _) _ _ _ => fail
          | _ => wp_step; wp_simpl
          end).

Ltac forall_allowed :=
  rewrite ?Forall_app; repeat split;
  repeat first [ apply Forall_nil
               | apply Forall_cons; [unfold allowed; cbn [kind]; first [exact I | lia] |] ].

Ltac post_ex_here :=
  split; [reflexivity | split; [left; reflexivity | forall_allowed]].

Lemma wp_plotWiggles xvals interval coordinates title flag p ax X :
  wp (plotWiggles xvals interval coordinates title flag p)
     (fun _ s' => post_ok ax xvals interval X s')
     (fun _ s' => post_ex ax X s')
     (ax, X).
Proof.
  unfold plotWiggles.
  wp_run; rewrite ?with_calls_twice; try solve [post_ex_here].
  - (* 2 to 18 traces *)
    bool_hyps.
    eapply wp_conseq; [| | apply wp_stacked].
    + intros u s' [Hg Hl]. wp_simpl.
      assert (Hpost : post_ok ax xvals interval X s').
      { pose proof Hg as (Hs & Ha & _).
        split; [exact Hs | split; [| split]].
        - rewrite Ha. symmetry. apply frame_after_lines. lia.
        - eapply grows_Forall.
          + eapply grows_weaken; [| exact Hg]. intros c. apply trace_allowed. lia.
          + wp_simpl. forall_allowed.
        - split; intros Hn; try (exfalso; lia).
          + split; (eapply grows_In; [exact Hg |]); wp_simpl;
              rewrite !in_app_iff; cbn [In]; tauto.
          + exact Hl. }
      eapply wp_conseq; [| | apply wp_finish].
      * intros u' s'' Hg'. eapply post_ok_grows; [apply caption_allowed | exact Hg' | exact Hpost].
      * intros e s'' Hg'. eapply post_ex_grows; [apply caption_allowed | exact Hg' |].
        eapply post_ok_ex. exact Hpost.
    + intros e s' [Hg | Hg];
        (eapply post_ex_grows; [intros c; apply trace_allowed; lia | exact Hg |]).
      * post_ex_here.
      * split; [reflexivity | split; [right; symmetry; apply frame_after_lines; lia |]].
        wp_simpl. forall_allowed.
  - (* 19 to 70 traces *)
    bool_hyps.
    eapply wp_conseq; [| | apply wp_stacked].
    + intros u s' [Hg Hl]. wp_simpl.
      assert (Hpost : post_ok ax xvals interval X s').
      { pose proof Hg as (Hs & Ha & _).
        split; [exact Hs | split; [| split]].
        - rewrite Ha. symmetry. apply frame_after_lines. lia.
        - eapply grows_Forall.
          + eapply grows_weaken; [| exact Hg]. intros c. apply trace_allowed. lia.
          + wp_simpl. forall_allowed.
        - split; intros Hn; try (exfalso; lia).
          exact Hl. }
      eapply wp_conseq; [| | apply wp_finish].
      * intros u' s'' Hg'. eapply post_ok_grows; [apply caption_allowed | exact Hg' | exact Hpost].
      * intros e s'' Hg'. eapply post_ex_grows; [apply caption_allowed | exact Hg' |].
        eapply post_ok_ex. exact Hpost.
    + intros e s' [Hg | Hg];
        (eapply post_ex_grows; [intros c; apply trace_allowed; lia | exact Hg |]).
      * post_ex_here.
      * split; [reflexivity | split; [right; symmetry; apply frame_after_lines; lia |]].
        wp_simpl. forall_allowed.
  - (* more than 70 traces *)
    bool_hyps; try lia.
    match goal with |- wp _ _ _ ?s =>
      assert (Hpost : post_ok ax xvals interval X s) end.
    { split; [reflexivity | split; [| split]]; wp_simpl.
      - symmetry. apply frame_after_other. lia.
      - wp_simpl. forall_allowed.
      - split; intros Hn; try (exfalso; lia).
        do 3 eexists. wp_simpl. rewrite !in_app_iff. right. left. reflexivity. }
    eapply wp_conseq; [| | apply wp_finish].
    + intros u' s'' Hg'. eapply post_ok_grows; [apply caption_allowed | exact Hg' | exact Hpost].
    + intros e s'' Hg'. eapply post_ex_grows; [apply caption_allowed | exact Hg' |].
      eapply post_ok_ex. exact Hpost.
  - (* a single trace *)
    bool_hyps.
    match goal with |- wp _ _ _ ?s =>
      assert (Hpost : post_ok ax xvals interval X s) end.
    { split; [reflexivity | split; [| split]]; wp_simpl.
      - symmetry. apply frame_after_other. lia.
      - wp_simpl. forall_allowed.
      - split; intros Hn; try (exfalso; lia).
        eexists. split; [eassumption |].
        wp_simpl. rewrite !in_app_iff. cbn [In]. tauto. }
    eapply wp_conseq; [| | apply wp_finish].
    + intros u' s'' Hg'. eapply post_ok_grows; [apply caption_allowed | exact Hg' | exact Hpost].
    + intros e s'' Hg'. eapply post_ex_grows; [apply caption_allowed | exact Hg' |].
      eapply post_ok_ex. exact Hpost.
Qed.

(** ** When a render call returns *)

Lemma py_index_ok {A} (xs : list A) (i : Z) :
  0 <= i < Z.of_nat (List.length xs) -> exists a, py_index xs i = Ok a.
Proof.
  intros [H0 H1]. unfold py_index.
  destruct (i <? 0) eqn:Hi; [apply Z.ltb_lt in Hi; lia |].
  destruct (Z.of_nat (List.length xs) <=? i) eqn:Hn; [apply Z.leb_le in Hn; lia |].
  rewrite Hi. cbn [orb].
  destruct (nth_error xs (Z.to_nat i)) eqn:Hnth; [eexists; reflexivity |].
  apply nth_error_None in Hnth. lia.
Qed.

Lemma py_index_last {A} (xs : list A) :
  xs <> [] -> exists a, py_index xs (-1) = Ok a.
Proof.
  intros Hne. unfold py_index. cbn [Z.ltb Z.compare].
  assert (Hlen : 0 < Z.of_nat (List.length xs)).
  { destruct xs; [contradiction | cbn [List.length]; lia]. }
  destruct (-1 + Z.of_nat (List.length xs) <? 0) eqn:H1; [apply Z.ltb_lt in H1; lia |].
  destruct (Z.of_nat (List.length xs) <=? -1 + Z.of_nat (List.length xs)) eqn:H2;
    [apply Z.leb_le in H2; lia |].
  cbn [orb].
  destruct (nth_error xs (Z.to_nat (-1 + Z.of_nat (List.length xs)))) eqn:Hnth;
    [eexists; reflexivity |].
  apply nth_error_None in Hnth. lia.
Qed.

Lemma in_range (N n : Z) : In n (range N) <-> 0 <= n < N.
Proof.
  unfold range. rewrite in_map_iff. split.
  - intros (k & <- & Hk). apply in_seq in Hk. lia.
  - intros H. exists (Z.to_nat n). split; [lia |]. apply in_seq. lia.
Qed.

(** [flag] is one of the four object types. *)
Definition known_flag (flag : string) : Prop :=
  In flag ["data"; "impulse"; "left"; "right"].

(** The colormap is one that [get_cmap_colors] knows. *)
Definition known_colormap (name : string) : Prop :=
  In name ["native"; "grays"; "seismic"].

Lemma set_ylabel_plural (N : Z) coordinates id_number flag p :
  N <> 1 -> known_flag flag ->
  exists label, set_ylabel N coordinates id_number flag p = Ok label.
Proof.
  intros HN Hf. unfold set_ylabel.
  apply Z.eqb_neq in HN. rewrite HN.
  destruct Hf as [<- | [<- | [<- | [<- | []]]]]; eexists; reflexivity.
Qed.

Lemma unpack_fills_known (name mode : string) :
  known_colormap name ->
  exists fills, unpack_fills (get_cmap_colors name mode true) = Ok fills.
Proof.
  intros [<- | [<- | [<- | []]]]; unfold get_cmap_colors; cbn.
  - eexists; reflexivity.
  - destruct (String.eqb mode "light"); eexists; reflexivity.
  - eexists; reflexivity.
Qed.

Lemma np_max_ok (xs : list float) : xs <> [] -> exists m, np_max xs = Ok m.
Proof. destruct xs; [contradiction | intros _; eexists; reflexivity]. Qed.

Lemma np_min_ok (xs : list float) : xs <> [] -> exists m, np_min xs = Ok m.
Proof. destruct xs; [contradiction | intros _; eexists; reflexivity]. Qed.

Lemma map_res_ok {A B} (f : A -> res B) (xs : list A) :
  Forall (fun x => exists y, f x = Ok y) xs ->
  exists ys, map_res f xs = Ok ys /\ List.length ys = List.length xs.
Proof.
  induction 1 as [| x xs [y Hy] _ (ys & Hys & Hlen)]; cbn.
  - exists []. split; reflexivity.
  - rewrite Hy, Hys. cbn. exists (y :: ys). split; [reflexivity | cbn; congruence].
Qed.

(** Every row has an entry, so that its range is defined. *)
Definition rows_nonempty (X : ndarray2) : Prop :=
  Forall (fun r => r <> []) (rows X).

Lemma max_ptp_ok (X : ndarray2) :
  0 < shape0 X -> rows_nonempty X -> exists m, max_ptp X = Ok m.
Proof.
  intros HN Hrows. unfold max_ptp, ptp_axis1.
  destruct (map_res_ok ptp (rows X)) as (ys & Hys & Hlen).
  - eapply Forall_impl; [| exact Hrows]. intros r Hr. unfold ptp.
    destruct (np_max_ok r Hr) as [hi ->]. destruct (np_min_ok r Hr) as [lo ->].
    eexists. reflexivity.
  - rewrite Hys. cbn. apply np_max_ok. intros ->.
    unfold shape0 in HN. rewrite <- Hlen in HN. cbn in HN. lia.
Qed.

Lemma max_abs_ok (X : ndarray2) :
  0 < shape0 X -> rows_nonempty X -> exists m, max_abs X = Ok m.
Proof.
  intros HN Hrows. unfold max_abs. apply np_max_ok.
  unfold shape0 in HN. unfold rows_nonempty in Hrows.
  destruct (rows X) as [| r rs]; [cbn in HN; lia |].
  apply Forall_inv in Hrows.
  destruct r; [congruence | cbn; discriminate].
Qed.

Lemma shape0_after_rescale (X : ndarray2) : shape0 (after_rescale X) = shape0 X.
Proof.
  unfold after_rescale. destruct (max_ptp X); [| reflexivity].
  destruct (float_neb a 0); [| reflexivity].
  unfold shape0, idiv, map_ndarray2. cbn. rewrite length_map. reflexivity.
Qed.

Lemma wp_draw_trace_ok xvals interval pf nf n (s : Axes * ndarray2) :
  0 <= n < Z.of_nat (List.length interval) -> 0 <= n < shape0 (snd s) ->
  wp (draw_trace xvals interval pf nf n)
     (fun _ s' => grows is_trace s s') (fun _ _ => False) s.
Proof.
  intros Hk Hr.
  destruct (py_index_ok interval n Hk) as [k Hk'].
  destruct (py_index_ok (rows (snd s)) n Hr) as [Xn Hr'].
  unfold draw_trace. repeat (wp_step; wp_simpl); rewrite ?with_calls_twice.
  - grows_tac.
  - unfold row in *. congruence.
  - congruence.
Qed.

Lemma wp_traces_ok xvals interval pf nf N (s : Axes * ndarray2) :
  N <= Z.of_nat (List.length interval) -> N <= shape0 (snd s) ->
  wp (for_each (range N) (draw_trace xvals interval pf nf))
     (fun _ s' => grows is_trace s s') (fun _ _ => False) s.
Proof.
  intros Hk Hr.
  apply (wp_for_each (draw_trace xvals interval pf nf)
           (fun _ s' => grows is_trace s s')).
  - intros pre n s' Hg Hn. apply in_range in Hn.
    eapply wp_conseq; [| | apply wp_draw_trace_ok].
    + intros u s'' Hg'. eapply grows_trans; eassumption.
    + intros e s'' [].
    + lia.
    + destruct Hg as (_ & -> & _). lia.
  - apply grows_refl.
Qed.

Lemma wp_rescale_by_ptp_ok (s : Axes * ndarray2) :
  0 < shape0 (snd s) -> rows_nonempty (snd s) ->
  wp rescale_by_ptp
     (fun _ s' => s' = (fst s, after_rescale (snd s))) (fun _ _ => False) s.
Proof.
  intros HN Hrows. destruct (max_ptp_ok (snd s) HN Hrows) as [m Hm].
  unfold rescale_by_ptp, after_rescale.
  wp_step. wp_step. wp_simpl. wp_step. wp_step. rewrite Hm.
  destruct (float_neb m 0); wp_step; [reflexivity | destruct s; reflexivity].
Qed.

Lemma wp_stacked_ok xvals interval (p : PlotParams) (s : Axes * ndarray2) :
  known_colormap (wiggle_colormap p) ->
  0 < shape0 (snd s) -> rows_nonempty (snd s) ->
  shape0 (snd s) <= Z.of_nat (List.length interval) ->
  wp (fills <- lift (unpack_fills (get_cmap_colors (wiggle_colormap p)
                                      (view_mode p) true)) ;;
      rescale_by_ptp ;;
      for_each (range (shape0 (snd s)))
        (draw_trace xvals interval (fst fills) (snd fills)))
     (fun _ s' => grows is_trace (fst s, after_rescale (snd s)) s')
     (fun _ _ => False) s.
Proof.
  intros Hcm HN Hrows Hlen.
  destruct (unpack_fills_known _ (view_mode p) Hcm) as [fills Hfills].
  rewrite Hfills. wp_step. wp_step. wp_step.
  eapply wp_conseq; [| | apply wp_rescale_by_ptp_ok; assumption].
  2: { intros e s' []. }
  intros u s' ->.
  apply wp_traces_ok; cbn [snd]; [exact Hlen | rewrite shape0_after_rescale; lia].
Qed.

Lemma wp_finish_ok (title : string) (p : PlotParams) (ax : Axes) (xvals : list float)
    (s : Axes * ndarray2) :
  xvals <> [] ->
  wp (draw (SetTitle title (titlecolor ax)) ;;
      (if nonempty (tu p) then
         label <- lift (py_format "Time (%s)" [ArgS (tu p)]) ;;
         draw (SetXLabel label (labelcolor ax))
       else draw (SetXLabel "Time" (labelcolor ax))) ;;
      lo <- lift (py_index xvals 0) ;;
      hi <- lift (py_index xvals (-1)) ;;
      draw (SetXLim lo hi))
     (fun _ _ => True) (fun _ _ => False) s.
Proof.
  intros Hne.
  assert (Hlen : 0 <= 0 < Z.of_nat (List.length xvals)).
  { destruct xvals; [contradiction | cbn [List.length]; lia]. }
  destruct (py_index_ok xvals 0 Hlen) as [lo Hlo].
  destruct (py_index_last xvals Hne) as [hi Hhi].
  repeat (wp_step; wp_simpl); try exact I; try congruence.
  cbn in *. discriminate.
Qed.

(** The inputs on which a plural render goes through. *)
Record renderable (xvals : list float) (interval : list Z) (flag : string)
    (p : PlotParams) (X : ndarray2) : Prop := {
  renderable_flag : known_flag flag;
  renderable_xvals : xvals <> [];
  renderable_interval : shape0 X <= Z.of_nat (List.length interval);
  renderable_rows : rows_nonempty X;
  renderable_colormap : shape0 X <= 70 -> known_colormap (wiggle_colormap p)
}.

Lemma plotWiggles_returns xvals interval coordinates title flag p ax X :
  2 <= shape0 X -> renderable xvals interval flag p X ->
  exists s', plotWiggles xvals interval coordinates title flag p (ax, X) = (s', Ok tt).
Proof.
  intros HN [Hflag Hx Hint Hrows Hcm].
  assert (Hwp : wp (plotWiggles xvals interval coordinates title flag p)
                   (fun _ _ => True) (fun _ _ => False) (ax, X)).
  { assert (H0 : 0 <= 0 < Z.of_nat (List.length interval)) by lia.
    destruct (py_index_ok interval 0 H0) as [id Hid].
    destruct (set_ylabel_plural (shape0 X) coordinates id flag p) as [label Hlabel];
      [lia | exact Hflag |].
    destruct (max_abs_ok X) as [m Hm]; [lia | exact Hrows |].
    unfold plotWiggles. wp_run; rewrite ?with_calls_twice; bool_hyps; try lia;
      try congruence.
    - eapply wp_conseq; [| | apply wp_stacked_ok]; cbn [snd];
        try assumption; try lia; [| apply Hcm; lia].
      intros u s' _. apply wp_finish_ok. exact Hx.
    - eapply wp_conseq; [| | apply wp_stacked_ok]; cbn [snd];
        try assumption; try lia; [| apply Hcm; lia].
      intros u s' _. apply wp_finish_ok. exact Hx.
    - apply wp_finish_ok. exact Hx. }
  unfold wp in Hwp.
  destruct (plotWiggles xvals interval coordinates title flag p (ax, X)) as [s' [[] | e]];
    [exists s'; reflexivity | contradiction].
Qed.

(** ** Image rendering: what is drawn and what is kept *)





(** ** The outcome of a wiggle render *)

Lemma plotWiggles_outcome xvals interval coordinates title flag p ax X :
  match plotWiggles xvals interval coordinates title flag p (ax, X) with
  | (s', Ok _) => post_ok ax xvals interval X s'
  | (s', Raise _) => post_ex ax X s'
  end.
Proof. exact (wp_plotWiggles xvals interval coordinates title flag p ax X). Qed.

(** A render starts by clearing the axes: the calls it finds play no part. *)
Lemma plotWiggles_clears xvals interval coordinates title flag p ax ax' X :
  style ax' = style ax ->
  plotWiggles xvals interval coordinates title flag p (ax', X)
  = plotWiggles xvals interval coordinates title flag p (ax, X).
Proof.
  intros Hs. unfold plotWiggles.
  unfold bind at 1. unfold bind at 7.
  unfold ax_clear at 1 2. unfold modify. cbn [fst snd].
  change (with_calls [] ax') with (style ax'). change (with_calls [] ax) with (style ax).
  rewrite Hs. reflexivity.
Qed.

Lemma frame_after_zero X sf :
  max_ptp X = Ok sf -> PrimFloat.eqb sf 0 = true -> frame_after X = X.
Proof.
  intros Hm Hz. unfold frame_after, after_rescale, float_neb.
  rewrite Hm, Hz. cbn [negb].
  destruct ((1 <? shape0 X) && (shape0 X <=? 70))%bool; reflexivity.
Qed.

Lemma after_rescale_zero X sf :
  max_ptp X = Ok sf -> PrimFloat.eqb sf 0 = true -> after_rescale X = X.
Proof.
  intros Hm Hz. unfold after_rescale, float_neb. rewrite Hm, Hz. reflexivity.
Qed.

Lemma frame_after_cases X :
  frame_after X = X \/
  exists sf, max_ptp X = Ok sf /\ PrimFloat.eqb sf 0 = false /\
             1 < shape0 X <= 70 /\ frame_after X = idiv X sf.
Proof.
  unfold frame_after, after_rescale, float_neb.
  destruct (1 <? shape0 X) eqn:H1; [| left; reflexivity].
  destruct (shape0 X <=? 70) eqn:H2; [| left; reflexivity].
  cbn [andb]. destruct (max_ptp X) as [sf |]; [| left; reflexivity].
  destruct (PrimFloat.eqb sf 0) eqn:Hz; cbn [negb]; [left; reflexivity |].
  right. exists sf. bool_hyps. split; [reflexivity | split; [exact Hz | split; [lia | reflexivity]]].
Qed.

Lemma plotWiggles_array xvals interval coordinates title flag p ax X :
  let r := plotWiggles xvals interval coordinates title flag p (ax, X) in
  (snd (fst r) = X \/ snd (fst r) = frame_after X) /\
  (snd r = Ok tt -> snd (fst r) = frame_after X).
Proof.
  cbv zeta.
  pose proof (plotWiggles_outcome xvals interval coordinates title flag p ax X) as H.
  destruct (plotWiggles xvals interval coordinates title flag p (ax, X)) as [s' [[] | e]];
    cbn [fst snd].
  - destruct H as (_ & Ha & _). split; [right; exact Ha | intros _; exact Ha].
  - destruct H as (_ & Ha & _). split; [exact Ha | discriminate].
Qed.


(** ** Sample inputs *)

(** Two traces of two samples: the first has range 5. *)
Definition two_traces : ndarray2 := mk_ndarray2 2 [[2; 7]; [0; 0]]%float.

(** Two traces without any displacement. *)
Definition flat_traces : ndarray2 := mk_ndarray2 2 [[0; 0]; [0; 0]]%float.



Definition sample_grid : ndarray2 := mk_ndarray2 2 [[0; 1]]%float.

(** Whether an array has an entry above [v], for telling two arrays
    apart. *)
Definition has_entry_above (v : float) (a : ndarray2) : bool :=
  existsb (PrimFloat.ltb v) (List.concat (rows a)).






(** C5: the peak normalisation never divides by zero.  With one trace
    the array comes back as it was; with several traces and a largest
    range of zero it comes back as it was and the lines drawn are its own
    rows; and whenever the array has changed, it was divided by a scale
    factor other than zero. *)
Theorem plotWiggles_no_division_by_zero :
  forall xvals interval coordinates title flag p ax X,
    let r := plotWiggles xvals interval coordinates title flag p (ax, X) in
    (shape0 X = 1 -> snd (fst r) = X) /\
    (forall sf, 1 < shape0 X -> max_ptp X = Ok sf -> PrimFloat.eqb sf 0 = true ->
       snd (fst r) = X /\
       (snd r = Ok tt -> shape0 X <= 70 ->
        lines_drawn ax xvals interval X (range (shape0 X)) (calls (fst (fst r))))) /\
    (snd (fst r) = X \/
     exists sf, max_ptp X = Ok sf /\ PrimFloat.eqb sf 0 = false /\
                snd (fst r) = idiv X sf).
Proof.
  intros. subst r.
  pose proof (plotWiggles_array xvals interval coordinates title flag p ax X) as [Harr _].
  cbv zeta in Harr.
  pose proof (plotWiggles_outcome xvals interval coordinates title flag p ax X) as Hout.
  repeat split.
  - intros HN. destruct Harr as [H | H]; [exact H |].
    rewrite H. apply frame_after_other. lia.
  - destruct Harr as [Ha | Ha]; [exact Ha |].
    rewrite Ha. eapply frame_after_zero; eassumption.
  - intros Hok HN.
    destruct (plotWiggles xvals interval coordinates title flag p (ax, X))
      as [s' [[] | e]]; cbn [fst snd] in *; [| discriminate].
    destruct Hout as (_ & _ & _ & Hr).
    rewrite <- (after_rescale_zero X sf) at 1 by assumption.
    apply (rendered_lines _ _ _ _ _ Hr). lia.
  - destruct Harr as [H | H]; [left; exact H |].
    destruct (frame_after_cases X) as [Hk | (sf & Hm & Hz & _ & Hd)].
    + left. congruence.
    + right. exists sf. repeat split; congruence.
Qed.







(** ** The three regimes of a plural render *)

(** No call of the kind [k] was made. *)
Definition no_call_of (k : call_kind) (cs : list call) : Prop :=
  Forall (fun c => kind c <> k) cs.

Lemma allowed_no_raster N cs :
  N <= 70 -> Forall (allowed N) cs -> no_call_of Raster cs.
Proof.
  intros HN H. eapply Forall_impl; [| exact H].
  intros c Hc Hk. unfold allowed in Hc. rewrite Hk in Hc. lia.
Qed.

Lemma allowed_no_ticks N cs :
  18 < N -> Forall (allowed N) cs -> no_call_of Ticks cs.
Proof.
  intros HN H. eapply Forall_impl; [| exact H].
  intros c Hc Hk. unfold allowed in Hc. rewrite Hk in Hc. lia.
Qed.

Lemma allowed_no_trace N cs :
  70 < N -> Forall (allowed N) cs -> no_call_of Trace cs.
Proof.
  intros HN H. eapply Forall_impl; [| exact H].
  intros c Hc Hk. unfold allowed in Hc. rewrite Hk in Hc. lia.
Qed.




Lemma plotWiggles_renders xvals interval coordinates title flag p ax X :
  2 <= shape0 X -> renderable xvals interval flag p X ->
  exists s',
    plotWiggles xvals interval coordinates title flag p (ax, X) = (s', Ok tt) /\
    post_ok ax xvals interval X s'.
Proof.
  intros HN Hr.
  destruct (plotWiggles_returns xvals interval coordinates title flag p ax X HN Hr)
    as [s' Hrun].
  pose proof (plotWiggles_outcome xvals interval coordinates title flag p ax X) as Hout.
  rewrite Hrun in Hout. exists s'. split; [exact Hrun | exact Hout].
Qed.




(** A stack of [n] flat traces of two samples. *)
Definition flat_stack (n : nat) : ndarray2 := mk_ndarray2 2 (repeat [0; 0]%float n).

Lemma flat_stack_renderable (n : nat) :
  renderable [0; 1]%float (range (Z.of_nat n)) "data" default_params (flat_stack n).
Proof.
  split.
  - left. reflexivity.
  - discriminate.
  - unfold shape0, flat_stack, range. cbn [rows].
    rewrite repeat_length, length_map, length_seq. lia.
  - unfold rows_nonempty, flat_stack. cbn [rows].
    apply Forall_forall. intros r Hr. apply repeat_spec in Hr. subst r. discriminate.
  - intros _. right. left. reflexivity.
Qed.

Lemma shape0_flat_stack (n : nat) : shape0 (flat_stack n) = Z.of_nat n.
Proof. unfold shape0, flat_stack. cbn [rows]. rewrite repeat_length. reflexivity. Qed.


(** The boundaries named by the specification: 18, 19 and 71 traces. *)
Example eighteen_traces_have_tick_labels :
  exists s',
    plotWiggles [0; 1]%float (range 18) None "t" "data" default_params
      (light_axes 0, flat_stack 18) = (s', Ok tt) /\
    In (SetYTickLabels (range 18)) (calls (fst s')) /\
    no_call_of Raster (calls (fst s')).
Proof.
  destruct (plotWiggles_renders [0; 1]%float (range 18) None "t" "data" default_params
              (light_axes 0) (flat_stack 18)) as (s' & Hrun & _ & _ & Hf & [Ht _ _ _]).
  - rewrite shape0_flat_stack. lia.
  - exact (flat_stack_renderable 18).
  - exists s'. rewrite shape0_flat_stack in *. split; [exact Hrun | split].
    + apply Ht. lia.
    + eapply allowed_no_raster; [| exact Hf]. lia.
Qed.

Example nineteen_traces_have_no_tick_labels :
  exists s',
    plotWiggles [0; 1]%float (range 19) None "t" "data" default_params
      (light_axes 0, flat_stack 19) = (s', Ok tt) /\
    no_call_of Ticks (calls (fst s')) /\
    no_call_of Raster (calls (fst s')).
Proof.
  destruct (plotWiggles_renders [0; 1]%float (range 19) None "t" "data" default_params
              (light_axes 0) (flat_stack 19)) as (s' & Hrun & _ & _ & Hf & _).
  - rewrite shape0_flat_stack. lia.
  - exact (flat_stack_renderable 19).
  - exists s'. rewrite shape0_flat_stack in *. split; [exact Hrun | split].
    + eapply allowed_no_ticks; [| exact Hf]. lia.
    + eapply allowed_no_raster; [| exact Hf]. lia.
Qed.

Example seventy_one_traces_are_rasterized :
  exists s',
    plotWiggles [0; 1]%float (range 71) None "t" "data" default_params
      (light_axes 0, flat_stack 71) = (s', Ok tt) /\
    (exists lo hi cmap,
        In (PColorMeshWiggle [0; 1]%float (range 71) (flat_stack 71) lo hi cmap)
           (calls (fst s'))) /\
    no_call_of Trace (calls (fst s')).
Proof.
  destruct (plotWiggles_renders [0; 1]%float (range 71) None "t" "data" default_params
              (light_axes 0) (flat_stack 71)) as (s' & Hrun & _ & _ & Hf & [_ _ Hras _]).
  - rewrite shape0_flat_stack. lia.
  - exact (flat_stack_renderable 71).
  - exists s'. rewrite shape0_flat_stack in *. split; [exact Hrun | split].
    + apply Hras. lia.
    + eapply allowed_no_trace; [| exact Hf]. lia.
Qed.

(** ** Navigation: the cursor under advance and retreat *)

(** The state a handler leaves behind, whatever its outcome: an exception
    raised in a key handler does not undo what the handler has written. *)
Definition after {S A} (c : M S A) (s : S) : S := fst (c s).

(** [len(experiment.sourceNumbers)] *)
Definition Ns (s : Axes * Experiment) : Z :=
  Z.of_nat (List.length (sourceNumbers (snd s))).

(** The cursor of the wiggle panel. *)
Definition cursor (s : Axes * Experiment) : Z := source_index (fst s).

Lemma style_source_index a b : style a = style b -> source_index a = source_index b.
Proof. intros H. exact (f_equal source_index H). Qed.

Lemma on_frame_keeps xvals interval coordinates title flag p i (s : Axes * Experiment) :
  let s' := after (on_frame i (plotWiggles xvals interval coordinates title flag p)) s in
  cursor s' = cursor s /\ sourceNumbers (snd s') = sourceNumbers (snd s).
Proof.
  cbv zeta. unfold after, on_frame, cursor.
  destruct (py_index (data (snd s)) i) as [X |]; [| split; reflexivity].
  pose proof (plotWiggles_outcome xvals interval coordinates title flag p (fst s) X) as H.
  destruct (plotWiggles xvals interval coordinates title flag p (fst s, X))
    as [s' [[] | e]]; cbn [fst snd]; destruct H as (Hs & _);
    (split; [apply style_source_index; exact Hs | reflexivity]).
Qed.

Lemma wp_of_after {S A} (c : M S A) (P : S -> Prop) (s : S) :
  P (after c s) -> wp c (fun _ s' => P s') (fun _ s' => P s') s.
Proof. unfold after, wp. destruct (c s) as [s' [a | e]]; intro H; exact H. Qed.

Lemma after_of_wp {S A} (c : M S A) (P : S -> Prop) (s : S) :
  wp c (fun _ s' => P s') (fun _ s' => P s') s -> P (after c s).
Proof. unfold after, wp. destruct (c s) as [s' [a | e]]; intro H; exact H. Qed.

Lemma render_wave_keeps p (s : Axes * Experiment) :
  cursor (after (render_wave p) s) = cursor s /\
  sourceNumbers (snd (after (render_wave p) s)) = sourceNumbers (snd s).
Proof.
  apply (after_of_wp (render_wave p)
           (fun s' => cursor s' = cursor s /\
                      sourceNumbers (snd s') = sourceNumbers (snd s))).
  unfold render_wave. repeat (wp_step; wp_simpl); [| split; reflexivity].
  apply wp_of_after. apply on_frame_keeps.
Qed.

Lemma next_wave_cursor p (s : Axes * Experiment) :
  Ns s <> 0 ->
  cursor (after (next_wave p) s) = (cursor s + 1) mod Ns s /\
  Ns (after (next_wave p) s) = Ns s.
Proof.
  intros HN.
  apply (after_of_wp (next_wave p)
           (fun s' => cursor s' = (cursor s + 1) mod Ns s /\ Ns s' = Ns s)).
  unfold next_wave.
  repeat (wp_step; wp_simpl);
    match goal with H : py_mod _ _ = _ |- _ =>
      unfold py_mod in H; fold (Ns s) in H;
      apply Z.eqb_neq in HN; rewrite HN in H; inversion H; subst; clear H
    end.
  apply wp_of_after.
  match goal with |- context [after (render_wave p) ?s0] =>
    destruct (render_wave_keeps p s0) as [Hc Hn] end.
  split; [rewrite Hc; reflexivity | unfold Ns in *; cbn [snd] in Hn; congruence].
Qed.

Lemma previous_wave_cursor p (s : Axes * Experiment) :
  Ns s <> 0 ->
  cursor (after (previous_wave p) s) = (cursor s - 1) mod Ns s /\
  Ns (after (previous_wave p) s) = Ns s.
Proof.
  intros HN.
  apply (after_of_wp (previous_wave p)
           (fun s' => cursor s' = (cursor s - 1) mod Ns s /\ Ns s' = Ns s)).
  unfold previous_wave.
  repeat (wp_step; wp_simpl);
    match goal with H : py_mod _ _ = _ |- _ =>
      unfold py_mod in H; fold (Ns s) in H;
      apply Z.eqb_neq in HN; rewrite HN in H; inversion H; subst; clear H
    end.
  apply wp_of_after.
  match goal with |- context [after (render_wave p) ?s0] =>
    destruct (render_wave_keeps p s0) as [Hc Hn] end.
  split; [rewrite Hc; reflexivity | unfold Ns in *; cbn [snd] in Hn; congruence].
Qed.

(** C3: advance then retreat, and retreat then advance, restore the
    cursor. *)
Theorem advance_retreat_inverse :
  forall p (s : Axes * Experiment),
    1 <= Ns s -> 0 <= cursor s < Ns s ->
    cursor (after (previous_wave p) (after (next_wave p) s)) = cursor s /\
    cursor (after (next_wave p) (after (previous_wave p) s)) = cursor s.
Proof.
  intros p s HN Hc.
  assert (HN0 : Ns s <> 0) by lia.
  destruct (next_wave_cursor p s HN0) as [Hn1 Hn2].
  destruct (previous_wave_cursor p s HN0) as [Hp1 Hp2].
  split.
  - destruct (previous_wave_cursor p (after (next_wave p) s)) as [H _]; [lia |].
    rewrite H, Hn1, Hn2.
    rewrite Zminus_mod_idemp_l. replace (cursor s + 1 - 1) with (cursor s) by lia.
    apply Z.mod_small. exact Hc.
  - destruct (next_wave_cursor p (after (previous_wave p) s)) as [H _]; [lia |].
    rewrite H, Hp1, Hp2.
    rewrite Zplus_mod_idemp_l. replace (cursor s - 1 + 1) with (cursor s) by lia.
    apply Z.mod_small. exact Hc.
Qed.

(** [n] successive events handled by [c]. *)
Fixpoint events {S A} (n : nat) (c : M S A) (s : S) : S :=
  match n with
  | O => s
  | S n' => events n' c (after c s)
  end.

Lemma advance_events p (n : nat) : forall s : Axes * Experiment,
  Ns s <> 0 ->
  cursor (events n (next_wave p) s) = (cursor s + Z.of_nat n) mod Ns s \/ n = O.
Proof.
  induction n as [| n IH]; intros s HN; [right; reflexivity |]. left.
  cbn [events].
  destruct (next_wave_cursor p s HN) as [Hc Hn].
  destruct (IH (after (next_wave p) s)) as [H | ->]; [rewrite Hn; exact HN | |].
  - rewrite H, Hc, Hn. rewrite Zplus_mod_idemp_l. f_equal. lia.
  - cbn [events]. rewrite Hc. f_equal.
Qed.

(** C4: advancing as many times as there are frames returns the cursor to
    where it started. *)
Theorem advance_full_cycle :
  forall p (s : Axes * Experiment),
    1 <= Ns s -> 0 <= cursor s < Ns s ->
    cursor (events (Z.to_nat (Ns s)) (next_wave p) s) = cursor s.
Proof.
  intros p s HN Hc.
  destruct (advance_events p (Z.to_nat (Ns s)) s) as [H | H]; [lia | | lia].
  rewrite H, Z2Nat.id by lia.
  rewrite <- Zplus_mod_idemp_r, Z.mod_same, Z.add_0_r by lia.
  apply Z.mod_small. exact Hc.
Qed.

(** An experiment of three sources recorded by two receivers. *)
Definition sample_experiment : Experiment := {|
  data := [two_traces; flat_traces; two_traces];
  time := [0; 1]%float;
  receiverNumbers := [0; 1];
  receiverPoints := None;
  sourceNumbers := [1; 2; 3];
  sourcePoints := None;
  wiggleType := "data"
|}.

(** The viewer on the last of the three frames. *)
Definition at_last_frame : Axes * Experiment := (light_axes 2, sample_experiment).

Example advance_wraps_around :
  snd (next_wave default_params at_last_frame) = Ok tt /\
  cursor (after (next_wave default_params) at_last_frame) = 0.
Proof. split; vm_compute; reflexivity. Qed.

Example retreat_wraps_around :
  snd (previous_wave default_params (light_axes 0, sample_experiment)) = Ok tt /\
  cursor (after (previous_wave default_params) (light_axes 0, sample_experiment)) = 2.
Proof. split; vm_compute; reflexivity. Qed.

(** Advance and retreat from the last of three frames, where advancing
    wraps around. *)
Lemma advance_retreat_inverse_witness :
  (1 <= Ns at_last_frame /\ 0 <= cursor at_last_frame < Ns at_last_frame) /\
  cursor (after (previous_wave default_params)
            (after (next_wave default_params) at_last_frame)) = cursor at_last_frame /\
  cursor (after (next_wave default_params)
            (after (previous_wave default_params) at_last_frame)) = cursor at_last_frame.
Proof.
  assert (HN : 1 <= Ns at_last_frame) by (vm_compute; discriminate).
  assert (Hc : 0 <= cursor at_last_frame < Ns at_last_frame)
    by (split; vm_compute; [discriminate | reflexivity]).
  split; [split; [exact HN | exact Hc] |].
  exact (advance_retreat_inverse default_params at_last_frame HN Hc).
Defined.

(** Three advances from the last of three frames. *)
Lemma advance_full_cycle_witness :
  (1 <= Ns at_last_frame /\ 0 <= cursor at_last_frame < Ns at_last_frame) /\
  cursor (events (Z.to_nat (Ns at_last_frame)) (next_wave default_params) at_last_frame)
  = cursor at_last_frame.
Proof.
  assert (HN : 1 <= Ns at_last_frame) by (vm_compute; discriminate).
  assert (Hc : 0 <= cursor at_last_frame < Ns at_last_frame)
    by (split; vm_compute; [discriminate | reflexivity]).
  split; [split; [exact HN | exact Hc] |].
  exact (advance_full_cycle default_params at_last_frame HN Hc).
Defined.

(** ** Switching between the experiments *)

(** Which of the plotter's slots hold an experiment. *)
Definition filled (v : Viewer) : list bool :=
  map (fun e : option Experiment => match e with Some _ => true | None => false end)
      (experiments (plotter v)).

(** [plotter.index] *)
Definition shown (v : Viewer) : Z := index (plotter v).

Lemma py_index_nth {A} (xs : list A) (i : Z) (a : A) :
  py_index xs i = Ok a -> nth_error xs (normal_index xs i) = Some a.
Proof.
  unfold py_index, normal_index.
  destruct ((_ <? 0) || _)%bool; [discriminate |].
  destruct (nth_error xs _) as [b |]; [| discriminate].
  intros H. inversion H. reflexivity.
Qed.

Lemma map_list_update {A B} (f : A -> B) (xs : list A) (j : nat) (x y : A) :
  nth_error xs j = Some x -> f y = f x -> map f (list_update xs j y) = map f xs.
Proof.
  revert j. induction xs as [| z xs IH]; intros [| j] Hn Hf; cbn in *; try discriminate.
  - inversion Hn. subst. rewrite Hf. reflexivity.
  - rewrite (IH j Hn Hf). reflexivity.
Qed.

Lemma on_panel_keeps {A} (k : Z) (c : M (Axes * Experiment) A) (v : Viewer) :
  shown (after (on_panel k c) v) = shown v /\
  filled (after (on_panel k c) v) = filled v.
Proof.
  unfold after, on_panel, shown, filled.
  destruct (py_index (fig_axes v) k) as [ax |]; [| split; reflexivity].
  destruct (py_index (experiments (plotter v)) (index (plotter v))) as [[e |] |] eqn:He;
    try (split; reflexivity).
  destruct (c (ax, e)) as [s' r]. cbn [fst snd plotter experiments index].
  split; [reflexivity |].
  eapply map_list_update; [apply py_index_nth; exact He | reflexivity].
Qed.

Lemma wp_on_panel {A} (k : Z) (c : M (Axes * Experiment) A) (v : Viewer) :
  wp (on_panel k c)
     (fun _ v' => shown v' = shown v /\ filled v' = filled v)
     (fun _ v' => shown v' = shown v /\ filled v' = filled v) v.
Proof.
  apply (wp_of_after (on_panel k c)
           (fun v' => shown v' = shown v /\ filled v' = filled v)).
  apply on_panel_keeps.
Qed.

(** The number of experiments the switch cycles through. *)
Definition Ne (v : Viewer) : Z :=
  match filled v with
  | [_; true] => 2
  | _ => 1
  end.

Lemma switch_experiments_shown key p scatterer show_map (v : Viewer) :
  List.length (filled v) = 2%nat ->
  shown (after (switch_experiments key p scatterer show_map) v)
  = (if String.eqb key "r" then (shown v + 1) mod Ne v else shown v) /\
  filled (after (switch_experiments key p scatterer show_map) v) = filled v.
Proof.
  intros Hlen.
  apply (after_of_wp (switch_experiments key p scatterer show_map)
           (fun v' => shown v' = (if String.eqb key "r"
                                  then (shown v + 1) mod Ne v else shown v) /\
                      filled v' = filled v)).
  unfold switch_experiments.
  assert (Hsecond : exists second,
             py_index (experiments (plotter v)) 1 = Ok second /\
             Ne v = match second with None => 1 | Some _ => 2 end).
  { unfold Ne, filled in *. destruct v as [[es i] axs]. cbn [plotter experiments] in *.
    destruct es as [| e0 [| e1 [| e2 es]]]; try discriminate Hlen.
    exists e1. split; [reflexivity |]. destruct e1; reflexivity. }
  destruct Hsecond as (second & Hsecond & HNe).
  wp_step. wp_step. wp_step. wp_step. rewrite Hsecond.
  wp_step.
  assert (Hstep : forall v1 : Viewer,
            shown v1 = (if String.eqb key "r" then (shown v + 1) mod Ne v else shown v) ->
            filled v1 = filled v ->
            wp (v0 <- get ;;
                _ <- lift (py_index (experiments (plotter v0)) (index (plotter v0))) ;;
                if show_map then
                  _ <- lift (py_index (fig_axes v0) 0) ;;
                  _ <- lift (py_index (fig_axes v0) 1) ;;
                  on_panel 0 (render_wave p) ;;
                  on_panel 1 (render_map scatterer p)
                else on_panel 0 (render_wave p))
               (fun _ v' => shown v' = (if String.eqb key "r"
                                        then (shown v + 1) mod Ne v else shown v) /\
                            filled v' = filled v)
               (fun _ v' => shown v' = (if String.eqb key "r"
                                        then (shown v + 1) mod Ne v else shown v) /\
                            filled v' = filled v) v1).
  { intros v1 Hs Hf.
    repeat (wp_step; try (split; assumption)).
    - eapply wp_conseq; [| | apply (wp_on_panel 0 (render_wave p) v1)].
      + intros u v2 [Hs2 Hf2]. cbv beta.
        eapply wp_conseq;
          [| | apply (wp_on_panel 1 (render_map scatterer p) v2)].
        * intros u' v3 [Hs3 Hf3]. split; congruence.
        * intros e v3 [Hs3 Hf3]. split; congruence.
      + intros e v2 [Hs2 Hf2]. split; congruence.
    - eapply wp_conseq; [| | apply (wp_on_panel 0 (render_wave p) v1)].
      + intros u v2 [Hs2 Hf2]. split; congruence.
      + intros e v2 [Hs2 Hf2]. split; congruence. }
  destruct (String.eqb key "r") eqn:Hkey.
  - wp_step. wp_step. unfold py_mod.
    destruct (match second with Some _ => 2 | None => 1 end =? 0) eqn:H0;
      [destruct second; discriminate H0 |].
    unfold set_index. apply wp_modify. apply Hstep.
    + unfold shown. cbn [plotter index]. rewrite HNe. reflexivity.
    + reflexivity.
  - wp_step. apply Hstep; reflexivity.
Qed.

Lemma Ne_filled (v v' : Viewer) : filled v' = filled v -> Ne v' = Ne v.
Proof. unfold Ne. intros ->. reflexivity. Qed.

Lemma events_snoc {S A} (n : nat) (c : M S A) : forall s : S,
  events (Datatypes.S n) c s = after c (events n c s).
Proof.
  induction n as [| n IH]; intros s; [reflexivity |].
  change (events (Datatypes.S (Datatypes.S n)) c s)
    with (events (Datatypes.S n) c (after c s)).
  rewrite IH. reflexivity.
Qed.

Lemma switch_events p scatterer show_map (n : nat) : forall v : Viewer,
  List.length (filled v) = 2%nat ->
  let v' := events n (switch_experiments "r" p scatterer show_map) v in
  filled v' = filled v /\
  (n <> O -> shown v' = (shown v + Z.of_nat n) mod Ne v).
Proof.
  induction n as [| n IH]; intros v Hlen; cbv zeta.
  - split; [reflexivity | congruence].
  - rewrite events_snoc.
    destruct (IH v Hlen) as [Hf Hs]. cbv zeta in Hf, Hs.
    destruct (switch_experiments_shown "r" p scatterer show_map
                (events n (switch_experiments "r" p scatterer show_map) v))
      as [Hs' Hf']; [rewrite Hf; exact Hlen |].
    cbn [String.eqb Ascii.eqb Bool.eqb] in Hs'.
    split; [congruence | intros _].
    rewrite Hs', (Ne_filled _ _ Hf).
    destruct n as [| n].
    + cbn [events]. f_equal.
    + rewrite Hs by discriminate. rewrite Zplus_mod_idemp_l. f_equal. lia.
Qed.

(** C8: with a single experiment the switch key never moves the index
    from 0, and does what any other key does, a redraw of that experiment;
    with two experiments every switch event toggles the index between 0
    and 1. *)
Theorem switch_experiments_cycle :
  forall p scatterer show_map original axes,
    let switch := switch_experiments "r" p scatterer show_map in
    let alone := mk_Viewer (Plotter_init original None) axes in
    (forall n, shown (events n switch alone) = 0) /\
    (forall key, switch alone = switch_experiments key p scatterer show_map alone) /\
    (forall reciprocal n,
       let paired := mk_Viewer (Plotter_init original (Some reciprocal)) axes in
       shown (events n switch paired) = Z.of_nat n mod 2 /\
       shown (events (S n) switch paired) = 1 - shown (events n switch paired)).
Proof.
  intros p scatterer show_map original axes switch alone. subst switch alone.
  split; [| split].
  - intros n. destruct n as [| n]; [reflexivity |].
    destruct (switch_events p scatterer show_map (S n)
                (mk_Viewer (Plotter_init original None) axes)) as [_ Hs];
      [reflexivity |].
    rewrite Hs by discriminate.
    change (Ne (mk_Viewer (Plotter_init original None) axes)) with 1.
    apply Z.mod_1_r.
  - intros key. unfold switch_experiments.
    destruct (String.eqb key "r"); reflexivity.
  - intros reciprocal n paired. subst paired.
    assert (Hn : forall k,
               shown (events k (switch_experiments "r" p scatterer show_map)
                        (mk_Viewer (Plotter_init original (Some reciprocal)) axes))
               = Z.of_nat k mod 2).
    { intros k. destruct k as [| k]; [reflexivity |].
      destruct (switch_events p scatterer show_map (S k)
                  (mk_Viewer (Plotter_init original (Some reciprocal)) axes)) as [_ Hs];
        [reflexivity |].
      rewrite Hs by discriminate. reflexivity. }
    split; [apply Hn |].
    rewrite (Hn (S n)), (Hn n). rewrite Nat2Z.inj_succ.
    pose proof (Z.mod_pos_bound (Z.of_nat n) 2 ltac:(lia)) as Hb.
    rewrite <- Z.add_1_r, Zplus_mod.
    destruct (Z.eq_dec (Z.of_nat n mod 2) 0) as [-> | Hne]; [reflexivity |].
    replace (Z.of_nat n mod 2) with 1 by lia. reflexivity.
Qed.

(** The viewer of one experiment, and of two. *)
Definition viewer_alone : Viewer :=
  mk_Viewer (Plotter_init sample_experiment None) [light_axes 0].

Definition viewer_paired : Viewer :=
  mk_Viewer (Plotter_init sample_experiment (Some sample_experiment)) [light_axes 0].

Example switch_alone_returns :
  snd (switch_experiments "r" default_params None false viewer_alone) = Ok tt /\
  shown (after (switch_experiments "r" default_params None false) viewer_alone) = 0.
Proof. split; vm_compute; reflexivity. Qed.

Example switch_paired_toggles :
  snd (switch_experiments "r" default_params None false viewer_paired) = Ok tt /\
  shown (events 1 (switch_experiments "r" default_params None false) viewer_paired) = 1 /\
  shown (events 2 (switch_experiments "r" default_params None false) viewer_paired) = 0 /\
  shown (events 3 (switch_experiments "r" default_params None false) viewer_paired) = 1.
Proof. repeat split; vm_compute; reflexivity. Qed.

(** ** Captions: sample labels *)

(** C6: the label of a single trace at receiver 3, located at
    (1.23, 4.56): with metres as units of length, and with every unit
    string empty. *)
Theorem set_ylabel_sample_captions :
  forall p q coordinates,
    shape1 coordinates = 2 ->
    item coordinates 0 0 = Ok 1.23%float ->
    item coordinates 0 1 = Ok 4.56%float ->
    au p = "" -> xu p = "m" -> yu p = "m" ->
    au q = "" -> xu q = "" -> yu q = "" -> zu q = "" ->
    set_ylabel 1 (Some coordinates) 3 "data" p
    = Ok "Amplitude [Receiver 3 @ (1.23 m, 4.56 m)]" /\
    set_ylabel 1 (Some coordinates) 3 "data" q
    = Ok "Amplitude [Receiver 3 @ (1.23, 4.56)]".
Proof.
  intros p q coordinates Hshape H0 H1 Hau Hxu Hyu Hau' Hxu' Hyu' Hzu'.
  split; unfold set_ylabel; cbv zeta; rewrite Hshape, H0, H1.
  - rewrite Hau, Hxu, Hyu. vm_compute. reflexivity.
  - rewrite Hau', Hxu', Hyu'. vm_compute. reflexivity.
Qed.

(** The parameters [p] with the units of length set to [x], [y], [z]. *)
Definition with_length_units (x y z : string) (p : PlotParams) : PlotParams :=
  mk_PlotParams (pltformat p) (view_mode p) (isolevel p) (xlabel p) (ylabel p)
    (zlabel p) x y z (image_colormap p) (wiggle_colormap p) (colorbar p)
    (shading p) (vmin p) (vmax p) (levels p) (invert_xaxis p) (invert_yaxis p)
    (invert_zaxis p) (show_scatterer p) (show_sources p) (show_receivers p)
    (pclip p) (tu p) (au p) (data_title p) (impulse_title p) (fu p) (fmin p)
    (fmax p) (freq_title p) (freq_ylabel p).

(** The two labels at the sample location, with the default parameters
    and with metres set. *)
Lemma set_ylabel_sample_captions_witness :
  (shape1 coords_2d = 2 /\
   item coords_2d 0 0 = Ok 1.23%float /\
   item coords_2d 0 1 = Ok 4.56%float) /\
  (au (with_length_units "m" "m" "" default_params) = "" /\
   xu (with_length_units "m" "m" "" default_params) = "m" /\
   yu (with_length_units "m" "m" "" default_params) = "m") /\
  (au default_params = "" /\ xu default_params = "" /\
   yu default_params = "" /\ zu default_params = "") /\
  set_ylabel 1 (Some coords_2d) 3 "data" (with_length_units "m" "m" "" default_params)
  = Ok "Amplitude [Receiver 3 @ (1.23 m, 4.56 m)]" /\
  set_ylabel 1 (Some coords_2d) 3 "data" default_params
  = Ok "Amplitude [Receiver 3 @ (1.23, 4.56)]".
Proof.
  split; [repeat split; reflexivity |].
  split; [repeat split; reflexivity |].
  split; [repeat split; reflexivity |].
  exact (set_ylabel_sample_captions (with_length_units "m" "m" "" default_params)
           default_params coords_2d eq_refl eq_refl eq_refl
           eq_refl eq_refl eq_refl eq_refl eq_refl eq_refl eq_refl).
Defined.

Example set_ylabel_with_metres :
  set_ylabel 1 (Some coords_2d) 3 "data" (with_length_units "m" "m" "" default_params)
  = Ok "Amplitude [Receiver 3 @ (1.23 m, 4.56 m)]".
Proof. vm_compute. reflexivity. Qed.

Example set_ylabel_without_units :
  set_ylabel 1 (Some coords_2d) 3 "data" default_params
  = Ok "Amplitude [Receiver 3 @ (1.23, 4.56)]".
Proof. vm_compute. reflexivity. Qed.

(** ** Captions and their units *)

(** The caption as the specification words it: a coordinate is followed
    by its unit exactly when the unit string is not empty, each unit on
    its own. *)
Definition with_unit (value unit_ : string) : string :=
  if nonempty unit_ then value ++ " " ++ unit_ else value.

Definition location (coords : list (float * string)) : string :=
  "(" ++ String.concat ", "
           (map (fun cu => with_unit (format_2f (fst cu)) (snd cu)) coords)
      ++ ")".

Definition ylabel_by_units (au entity : string) (id_number : Z)
    (coords : list (float * string)) : string :=
  (if nonempty au then "Amplitude (" ++ au ++ ")" else "Amplitude")
  ++ " [" ++ entity ++ " " ++ str_of_Z id_number ++ " @ " ++ location coords ++ "]".

Definition source_title_by_units (data_title : string) (number : Z)
    (coords : list (float * string)) : string :=
  data_title ++ " [Source " ++ str_of_Z number ++ " @ " ++ location coords ++ "]".

Definition impulse_title_by_units (impulse_title : string)
    (coords : list (float * string)) : string :=
  impulse_title ++ " [$\bf{z}$ @ " ++ location coords ++ "]".

(** The entity a flag stands for. *)
Definition entity_name (flag : string) : option string :=
  if (String.eqb flag "data" || String.eqb flag "impulse" || String.eqb flag "left")%bool
  then Some "Receiver"
  else if String.eqb flag "right" then Some "Source"
  else None.

(** Every unit string is set, or none is. *)
Definition all_or_none (units : list string) : bool :=
  forallb nonempty units || forallb empty units.

Lemma append_assoc (a b c : string) : (a ++ b) ++ c = a ++ b ++ c.
Proof. induction a as [| x a IH]; cbn; [reflexivity | rewrite IH; reflexivity]. Qed.

(** C7, as stated, fails: with a unit for x and none for y a data title
    shows no unit at all, where the claim has the x coordinate followed by
    its unit; and the label of a single trace is then the bare entity
    name, without id, coordinates or unit. *)
Lemma mixed_units_lose_caption :
  let p := with_length_units "m" "" "" default_params in
  (wave_title 0 [7; 8] (Some coords_2d) "data" p = Ok "Data [Source 7 @ (1.23, 4.56)]" /\
   wave_title 0 [7; 8] (Some coords_2d) "data" p
   <> Ok (source_title_by_units (data_title p) 7
            [(1.23%float, xu p); (4.56%float, yu p)])) /\
  (set_ylabel 1 (Some coords_2d) 3 "data" p = Ok "Receiver" /\
   set_ylabel 1 (Some coords_2d) 3 "data" p
   <> Ok (ylabel_by_units (au p) "Receiver" 3
            [(1.23%float, xu p); (4.56%float, yu p)])).
Proof.
  cbv zeta. split; (split; [vm_compute; reflexivity |]);
    intros H; vm_compute in H; discriminate H.
Qed.

Ltac caption_tac :=
  cbn -[format_2f str_of_Z];
  repeat (rewrite append_assoc; cbn -[format_2f str_of_Z]);
  reflexivity.

Lemma set_ylabel_2d p c id_number flag entity c0 c1 :
  entity_name flag = Some entity ->
  shape1 c = 2 -> item c 0 0 = Ok c0 -> item c 0 1 = Ok c1 ->
  all_or_none [xu p; yu p] = true ->
  set_ylabel 1 (Some c) id_number flag p
  = Ok (ylabel_by_units (au p) entity id_number [(c0, xu p); (c1, yu p)]).
Proof.
  intros He Hs H0 H1 Hu.
  unfold set_ylabel. fold (entity_name flag). rewrite He. cbv zeta.
  rewrite Hs, H0, H1. unfold ylabel_by_units, location, with_unit.
  destruct (au p) as [| a1 s1]; destruct (xu p) as [| a2 s2];
    destruct (yu p) as [| a3 s3]; try discriminate Hu; caption_tac.
Qed.

Lemma set_ylabel_3d p c id_number flag entity c0 c1 c2 :
  entity_name flag = Some entity ->
  shape1 c = 3 -> item c 0 0 = Ok c0 -> item c 0 1 = Ok c1 -> item c 0 2 = Ok c2 ->
  all_or_none [xu p; yu p; zu p] = true ->
  set_ylabel 1 (Some c) id_number flag p
  = Ok (ylabel_by_units (au p) entity id_number
          [(c0, xu p); (c1, yu p); (c2, zu p)]).
Proof.
  intros He Hs H0 H1 H2 Hu.
  unfold set_ylabel. fold (entity_name flag). rewrite He. cbv zeta.
  rewrite Hs, H0, H1, H2. unfold ylabel_by_units, location, with_unit.
  destruct (au p) as [| a1 s1]; destruct (xu p) as [| a2 s2];
    destruct (yu p) as [| a3 s3]; destruct (zu p) as [| a4 s4];
    try discriminate Hu; caption_tac.
Qed.

(** The units a data title shows: all of them, or none. *)
Definition shown_units (units : list string) : list string :=
  if forallb nonempty units then units else map (fun _ => "") units.

Lemma wave_title_data_2d p pts index numbers n c0 c1 :
  shape1 pts = 2 -> py_index numbers index = Ok n ->
  item pts index 0 = Ok c0 -> item pts index 1 = Ok c1 ->
  wave_title index numbers (Some pts) "data" p
  = Ok (source_title_by_units (data_title p) n
          (combine [c0; c1] (shown_units [xu p; yu p]))).
Proof.
  intros Hs Hn H0 H1.
  unfold wave_title. cbv zeta. cbn [String.eqb Ascii.eqb Bool.eqb].
  rewrite Hs, Hn, H0, H1.
  unfold source_title_by_units, location, with_unit, shown_units.
  destruct (xu p) as [| a2 s2]; destruct (yu p) as [| a3 s3]; caption_tac.
Qed.

Lemma wave_title_data_3d p pts index numbers n c0 c1 c2 :
  shape1 pts = 3 -> py_index numbers index = Ok n ->
  item pts index 0 = Ok c0 -> item pts index 1 = Ok c1 -> item pts index 2 = Ok c2 ->
  wave_title index numbers (Some pts) "data" p
  = Ok (source_title_by_units (data_title p) n
          (combine [c0; c1; c2] (shown_units [xu p; yu p; zu p]))).
Proof.
  intros Hs Hn H0 H1 H2.
  unfold wave_title. cbv zeta. cbn [String.eqb Ascii.eqb Bool.eqb].
  rewrite Hs, Hn, H0, H1, H2.
  unfold source_title_by_units, location, with_unit, shown_units.
  destruct (xu p) as [| a2 s2]; destruct (yu p) as [| a3 s3];
    destruct (zu p) as [| a4 s4]; caption_tac.
Qed.

Lemma wave_title_impulse_2d p pts index numbers flag c0 c1 :
  String.eqb flag "data" = false ->
  shape1 pts = 2 -> item pts index 0 = Ok c0 -> item pts index 1 = Ok c1 ->
  all_or_none [xu p; yu p] = true ->
  wave_title index numbers (Some pts) flag p
  = Ok (impulse_title_by_units (impulse_title p) [(c0, xu p); (c1, yu p)]).
Proof.
  intros Hf Hs H0 H1 Hu.
  unfold wave_title. cbv zeta. rewrite Hf, Hs, H0, H1.
  unfold impulse_title_by_units, location, with_unit.
  destruct (xu p) as [| a2 s2]; destruct (yu p) as [| a3 s3];
    try discriminate Hu; caption_tac.
Qed.

Lemma wave_title_impulse_3d p pts index numbers flag c0 c1 c2 :
  String.eqb flag "data" = false ->
  shape1 pts = 3 -> item pts index 0 = Ok c0 -> item pts index 1 = Ok c1 ->
  item pts index 2 = Ok c2 ->
  all_or_none [xu p; yu p; zu p] = true ->
  wave_title index numbers (Some pts) flag p
  = Ok (impulse_title_by_units (impulse_title p)
          [(c0, xu p); (c1, yu p); (c2, zu p)]).
Proof.
  intros Hf Hs H0 H1 H2 Hu.
  unfold wave_title. cbv zeta. rewrite Hf, Hs, H0, H1, H2.
  unfold impulse_title_by_units, location, with_unit.
  destruct (xu p) as [| a2 s2]; destruct (yu p) as [| a3 s3];
    destruct (zu p) as [| a4 s4]; try discriminate Hu; caption_tac.
Qed.

(** A location in the plane and one in space, with rows to spare. *)
Definition points_2d : ndarray2 := mk_ndarray2 2 [[1.23; 4.56]; [0.5; -2]]%float.
Definition points_3d : ndarray2 := mk_ndarray2 3 [[1.23; 4.56; 7]; [0.5; -2; 0]]%float.

(** C7, amended: the units of length are shown all or none.  When every
    coordinate unit is set, or none is, the caption names the entity, its
    id and its coordinates, each coordinate followed by its unit exactly
    when that unit is set; the amplitude unit is shown on its own terms.
    A data title with only some of the units set shows none of them. *)
Theorem captions_units_all_or_none :
  forall p id_number flag entity index numbers n,
    entity_name flag = Some entity ->
    py_index numbers index = Ok n ->
    (forall c c0 c1,
        shape1 c = 2 -> item c 0 0 = Ok c0 -> item c 0 1 = Ok c1 ->
        all_or_none [xu p; yu p] = true ->
        set_ylabel 1 (Some c) id_number flag p
        = Ok (ylabel_by_units (au p) entity id_number [(c0, xu p); (c1, yu p)])) /\
    (forall c c0 c1 c2,
        shape1 c = 3 -> item c 0 0 = Ok c0 -> item c 0 1 = Ok c1 ->
        item c 0 2 = Ok c2 ->
        all_or_none [xu p; yu p; zu p] = true ->
        set_ylabel 1 (Some c) id_number flag p
        = Ok (ylabel_by_units (au p) entity id_number
                [(c0, xu p); (c1, yu p); (c2, zu p)])) /\
    (forall pts c0 c1,
        shape1 pts = 2 -> item pts index 0 = Ok c0 -> item pts index 1 = Ok c1 ->
        wave_title index numbers (Some pts) "data" p
        = Ok (source_title_by_units (data_title p) n
                (combine [c0; c1] (shown_units [xu p; yu p])))) /\
    (forall pts c0 c1 c2,
        shape1 pts = 3 -> item pts index 0 = Ok c0 -> item pts index 1 = Ok c1 ->
        item pts index 2 = Ok c2 ->
        wave_title index numbers (Some pts) "data" p
        = Ok (source_title_by_units (data_title p) n
                (combine [c0; c1; c2] (shown_units [xu p; yu p; zu p])))) /\
    (forall pts c0 c1,
        shape1 pts = 2 -> item pts index 0 = Ok c0 -> item pts index 1 = Ok c1 ->
        all_or_none [xu p; yu p] = true ->
        wave_title index numbers (Some pts) "impulse" p
        = Ok (impulse_title_by_units (impulse_title p) [(c0, xu p); (c1, yu p)])) /\
    (forall pts c0 c1 c2,
        shape1 pts = 3 -> item pts index 0 = Ok c0 -> item pts index 1 = Ok c1 ->
        item pts index 2 = Ok c2 ->
        all_or_none [xu p; yu p; zu p] = true ->
        wave_title index numbers (Some pts) "impulse" p
        = Ok (impulse_title_by_units (impulse_title p)
                [(c0, xu p); (c1, yu p); (c2, zu p)])).
Proof.
  intros p id_number flag entity index numbers n He Hn.
  repeat split; intros.
  - apply set_ylabel_2d; assumption.
  - apply set_ylabel_3d; assumption.
  - apply wave_title_data_2d; assumption.
  - apply wave_title_data_3d; assumption.
  - apply wave_title_impulse_2d; try assumption; reflexivity.
  - apply wave_title_impulse_3d; try assumption; reflexivity.
Qed.

(** Captions in the plane and in space, with all units, none and some. *)
Lemma captions_units_all_or_none_witness :
  (entity_name "right" = Some "Source" /\ py_index [7; 8] 1 = Ok 8) /\
  set_ylabel 1 (Some points_2d) 3 "right" (with_length_units "m" "km" "" default_params)
  = Ok "Amplitude [Source 3 @ (1.23 m, 4.56 km)]" /\
  set_ylabel 1 (Some points_3d) 3 "right" (with_length_units "" "" "" default_params)
  = Ok "Amplitude [Source 3 @ (1.23, 4.56, 7.00)]" /\
  wave_title 1 [7; 8] (Some points_2d) "data" (with_length_units "m" "" "" default_params)
  = Ok "Data [Source 8 @ (0.50, -2.00)]" /\
  wave_title 1 [7; 8] (Some points_3d) "impulse"
    (with_length_units "m" "m" "m" default_params)
  = Ok "Impulse Response [$\bf{z}$ @ (0.50 m, -2.00 m, 0.00 m)]".
Proof.
  split; [split; reflexivity |].
  pose proof (fun p =>
    captions_units_all_or_none p 3 "right" "Source" 1 [7; 8] 8 eq_refl eq_refl) as H.
  split; [| split; [| split]].
  - destruct (H (with_length_units "m" "km" "" default_params)) as (H2 & _).
    rewrite (H2 points_2d 1.23%float 4.56%float) by reflexivity.
    vm_compute. reflexivity.
  - destruct (H (with_length_units "" "" "" default_params)) as (_ & H3 & _).
    rewrite (H3 points_3d 1.23%float 4.56%float 7%float) by reflexivity.
    vm_compute. reflexivity.
  - destruct (H (with_length_units "m" "" "" default_params)) as (_ & _ & Hd & _).
    rewrite (Hd points_2d 0.5%float (-2)%float) by reflexivity.
    vm_compute. reflexivity.
  - destruct (H (with_length_units "m" "m" "m" default_params))
      as (_ & _ & _ & _ & _ & Hi).
    rewrite (Hi points_3d 0.5%float (-2)%float 0%float) by reflexivity.
    vm_compute. reflexivity.
Defined.

(** * Further properties of the code *)

(** ** Captions: the paths that assign nothing *)

Lemma entity_name_unknown (flag : string) :
  ~ known_flag flag -> entity_name flag = None.
Proof.
  intros H. unfold entity_name, known_flag in *. cbn [In] in H.
  destruct (String.eqb_spec flag "data"); [subst; tauto |].
  destruct (String.eqb_spec flag "impulse"); [subst; tauto |].
  destruct (String.eqb_spec flag "left"); [subst; tauto |].
  destruct (String.eqb_spec flag "right"); [subst; tauto |].
  reflexivity.
Qed.

(** With no entity for the flag the local [ylabel] is never assigned, and
    every path of [set_ylabel] reads it. *)
Lemma set_ylabel_unbound N coordinates id_number flag p :
  entity_name flag = None ->
  set_ylabel N coordinates id_number flag p = Raise UnboundLocalError.
Proof.
  intros H.
  unfold set_ylabel. fold (entity_name flag). rewrite H.
  cbv zeta. cbn [load pure_bind].
  destruct (N =? 1); [| reflexivity].
  destruct coordinates as [c |].
  - destruct (shape1 c =? 2).
    + repeat match goal with |- context [if ?b then _ else _] => destruct b end; reflexivity.
    + destruct (shape1 c =? 3); [| reflexivity].
      repeat match goal with |- context [if ?b then _ else _] => destruct b end; reflexivity.
  - destruct (nonempty (au p)); reflexivity.
Qed.

(** X1: for a flag other than 'data', 'impulse', 'left' and 'right',
    [set_ylabel] raises [UnboundLocalError], whatever the number of traces,
    the coordinates and the units. *)
Theorem set_ylabel_unknown_flag :
  forall N coordinates id_number flag p,
    ~ known_flag flag ->
    set_ylabel N coordinates id_number flag p = Raise UnboundLocalError.
Proof.
  intros N coordinates id_number flag p H.
  apply set_ylabel_unbound. apply entity_name_unknown. exact H.
Qed.

(** The label of a single trace under the flag 'middle'. *)
Lemma set_ylabel_unknown_flag_witness :
  ~ known_flag "middle" /\
  set_ylabel 1 (Some coords_2d) 3 "middle" default_params = Raise UnboundLocalError.
Proof.
  assert (H : ~ known_flag "middle").
  { unfold known_flag. cbn [In]. intros [H | [H | [H | [H | []]]]]; discriminate H. }
  split; [exact H |].
  exact (set_ylabel_unknown_flag 1 (Some coords_2d) 3 "middle" default_params H).
Defined.

(** X2: the title of anything but a data plot needs the source points and
    uniform units.  Without source points [wave_title] raises
    [AttributeError]; with points in the plane or in space and only some of
    the length units set, or with points of another dimension, no title is
    assigned and it raises [UnboundLocalError]. *)
Theorem impulse_title_errors :
  forall index numbers flag p,
    String.eqb flag "data" = false ->
    wave_title index numbers None flag p = Raise AttributeError /\
    (forall pts,
        (shape1 pts = 2 /\ all_or_none [xu p; yu p] = false) \/
        (shape1 pts = 3 /\ all_or_none [xu p; yu p; zu p] = false) \/
        (shape1 pts <> 2 /\ shape1 pts <> 3) ->
        wave_title index numbers (Some pts) flag p = Raise UnboundLocalError).
Proof.
  intros index numbers flag p Hf. unfold wave_title. rewrite Hf. cbv zeta.
  split; [reflexivity |].
  intros pts [[Hs Hu] | [[Hs Hu] | [H2 H3]]].
  - rewrite Hs. cbn [Z.eqb Pos.eqb].
    unfold all_or_none, nonempty, empty in *. cbn [forallb] in Hu.
    destruct (String.eqb (xu p) ""); destruct (String.eqb (yu p) "");
      cbn in *; try discriminate Hu; reflexivity.
  - rewrite Hs. cbn [Z.eqb Pos.eqb].
    unfold all_or_none, nonempty, empty in *. cbn [forallb] in Hu.
    destruct (String.eqb (xu p) ""); destruct (String.eqb (yu p) "");
      destruct (String.eqb (zu p) "");
      cbn in *; try discriminate Hu; reflexivity.
  - apply Z.eqb_neq in H2, H3. rewrite H2, H3. reflexivity.
Qed.

(** An impulse title with a unit for x only. *)
Lemma impulse_title_errors_witness :
  String.eqb "impulse" "data" = false /\
  wave_title 0 [7; 8] (Some points_2d) "impulse"
    (with_length_units "m" "" "" default_params) = Raise UnboundLocalError.
Proof.
  split; [reflexivity |].
  apply (impulse_title_errors 0 [7; 8] "impulse"
           (with_length_units "m" "" "" default_params) eq_refl).
  left. split; reflexivity.
Defined.

(** ** Wiggle rendering: when it fails and what it leaves *)

Lemma wp_top {S A} (c : M S A) (s : S) :
  wp c (fun _ _ => True) (fun _ _ => True) s.
Proof. unfold wp. destruct (c s) as [s' [a | e]]; exact I. Qed.

Lemma get_cmap_colors_unknown (name mode : string) (fills : bool) :
  ~ known_colormap name -> get_cmap_colors name mode fills = NoColors.
Proof.
  intros H. unfold get_cmap_colors, known_colormap in *. cbn [In] in H.
  destruct (String.eqb_spec name "native"); [subst; tauto |].
  destruct (String.eqb_spec name "grays"); [subst; tauto |].
  destruct (String.eqb_spec name "seismic"); [subst; tauto |].
  reflexivity.
Qed.

Lemma known_colormap_dec (name : string) : {known_colormap name} + {~ known_colormap name}.
Proof. apply In_dec. exact string_dec. Defined.

Lemma known_flag_dec (flag : string) : {known_flag flag} + {~ known_flag flag}.
Proof. apply In_dec. exact string_dec. Defined.

Lemma py_index_nil {A} (i : Z) : py_index (@nil A) i = Raise IndexError.
Proof.
  unfold py_index. cbn [List.length Z.of_nat].
  destruct (i <? 0) eqn:Hi.
  - replace (i + 0 <? 0) with true by (symmetry; apply Z.ltb_lt; apply Z.ltb_lt in Hi; lia).
    reflexivity.
  - rewrite Hi. cbn [orb].
    replace (0 <=? i) with true by (symmetry; apply Z.leb_le; apply Z.ltb_ge in Hi; lia).
    reflexivity.
Qed.

(** The title, the time label and the limits cannot be completed without
    a first abscissa. *)
Lemma wp_finish_empty (title : string) (p : PlotParams) (ax : Axes)
    (s : Axes * ndarray2) :
  wp (draw (SetTitle title (titlecolor ax)) ;;
      (if nonempty (tu p) then
         label <- lift (py_format "Time (%s)" [ArgS (tu p)]) ;;
         draw (SetXLabel label (labelcolor ax))
       else draw (SetXLabel "Time" (labelcolor ax))) ;;
      lo <- lift (py_index [] 0) ;;
      hi <- lift (py_index [] (-1)) ;;
      draw (SetXLim lo hi))
     (fun _ _ => False) (fun e s' => e = IndexError /\ snd s' = snd s) s.
Proof.
  repeat (wp_step; wp_simpl);
    try (cbn in *; discriminate);
    try (split; [cbn in *; congruence | reflexivity]).
Qed.

(** Steps through a render up to the choice of regime. *)
Ltac wp_prefix :=
  repeat (lazymatch goal with
          | |- wp (bind (if 1 <? _ then _ else _) _) _ _ _ => fail
          | _ => wp_step; wp_simpl
          end).

(** [plotParams] with another [wiggle_colormap]. *)
Definition with_wiggle_colormap (name : string) (p : PlotParams) : PlotParams :=
  mk_PlotParams (pltformat p) (view_mode p) (isolevel p) (xlabel p) (ylabel p)
    (zlabel p) (xu p) (yu p) (zu p) (image_colormap p) name (colorbar p)
    (shading p) (vmin p) (vmax p) (levels p) (invert_xaxis p) (invert_yaxis p)
    (invert_zaxis p) (show_scatterer p) (show_sources p) (show_receivers p)
    (pclip p) (tu p) (au p) (data_title p) (impulse_title p) (fu p) (fmin p)
    (fmax p) (freq_title p) (freq_ylabel p).

(** X3: a wiggle render never changes the attributes of the axes, the
    cursor among them, whether it returns or raises; and it starts from a
    cleared surface, so that its whole outcome is the same from any two
    axes that differ only in what was drawn on them. *)
Theorem plotWiggles_erases_and_keeps_style :
  forall xvals interval coordinates title flag p ax ax' X,
    let r := plotWiggles xvals interval coordinates title flag p (ax, X) in
    style (fst (fst r)) = style ax /\
    (style ax' = style ax ->
     plotWiggles xvals interval coordinates title flag p (ax', X) = r).
Proof.
  intros xvals interval coordinates title flag p ax ax' X r. subst r. split.
  - pose proof (plotWiggles_outcome xvals interval coordinates title flag p ax X) as H.
    destruct (plotWiggles xvals interval coordinates title flag p (ax, X))
      as [s' [[] | e]]; cbn [fst]; destruct H as (Hs & _); exact Hs.
  - apply plotWiggles_clears.
Qed.

(** X4: a wiggle render returns only if the flag is one of the four
    object types, the interval and the abscissae are not empty, the array
    has a row, and, up to 70 traces, the colormap is one of 'native',
    'grays' and 'seismic'. *)
Theorem plotWiggles_returns_only_if :
  forall xvals interval coordinates title flag p ax X,
    snd (plotWiggles xvals interval coordinates title flag p (ax, X)) = Ok tt ->
    known_flag flag /\ interval <> [] /\ xvals <> [] /\ 1 <= shape0 X /\
    (shape0 X <= 70 -> known_colormap (wiggle_colormap p)).
Proof.
  intros xvals interval coordinates title flag p ax X Hok.
  assert (Hwp : forall Q : Prop,
             (Q -> wp (plotWiggles xvals interval coordinates title flag p)
                      (fun _ _ => False) (fun _ _ => True) (ax, X)) ->
             ~ Q).
  { intros Q HQ Hq. specialize (HQ Hq). unfold wp in HQ.
    destruct (plotWiggles xvals interval coordinates title flag p (ax, X)) as [s' [[] | e]];
      [exact HQ | discriminate Hok]. }
  assert (Hflag : known_flag flag).
  { destruct (known_flag_dec flag) as [H | H]; [exact H | exfalso].
    apply (Hwp (~ known_flag flag)); [| exact H]. intros H'.
    unfold plotWiggles. wp_prefix; try exact I.
    rewrite set_ylabel_unbound in * by (apply entity_name_unknown; exact H').
    discriminate. }
  assert (Hint : interval <> []).
  { intros ->. apply (Hwp True); [| exact I]. intros _.
    unfold plotWiggles. wp_prefix; try exact I. rewrite py_index_nil in *. discriminate. }
  assert (Hx : xvals <> []).
  { intros ->. apply (Hwp True); [| exact I]. intros _.
    unfold plotWiggles. wp_prefix; try exact I.
    apply wp_bind. eapply wp_conseq; [| | apply wp_top].
    - intros u s' _. eapply wp_conseq; [| | apply wp_finish_empty].
      + intros u' s'' [].
      + intros e s'' _. exact I.
    - intros e s' _. exact I. }
  assert (HN : 1 <= shape0 X).
  { destruct (Z_lt_le_dec (shape0 X) 1) as [H | H]; [exfalso | exact H].
    apply (Hwp True); [| exact I]. intros _.
    assert (Hrow : row X 0 = Raise IndexError).
    { unfold row. unfold shape0 in H. destruct (rows X); [apply py_index_nil | cbn in H; lia]. }
    unfold plotWiggles. repeat (wp_step; wp_simpl); bool_hyps; try lia; try exact I;
      try congruence. }
  repeat split; try assumption.
  intros H70.
  destruct (known_colormap_dec (wiggle_colormap p)) as [H | H]; [exact H | exfalso].
  apply (Hwp True); [| exact I]. intros _.
  unfold plotWiggles.
  rewrite (get_cmap_colors_unknown _ (view_mode p) true H). cbn [unpack_fills].
  repeat (wp_step; wp_simpl); bool_hyps; try lia; try exact I.
Qed.

(** A render of two traces that returns. *)
Lemma plotWiggles_returns_only_if_witness :
  snd (plotWiggles [0; 1]%float [0; 1] None "t" "data" default_params
         (light_axes 0, two_traces)) = Ok tt /\
  (known_flag "data" /\ [0; 1] <> [] /\ [0; 1]%float <> [] /\ 1 <= shape0 two_traces /\
   (shape0 two_traces <= 70 -> known_colormap (wiggle_colormap default_params))).
Proof.
  assert (H : snd (plotWiggles [0; 1]%float [0; 1] None "t" "data" default_params
                     (light_axes 0, two_traces)) = Ok tt)
    by (vm_compute; reflexivity).
  split; [exact H |].
  exact (plotWiggles_returns_only_if [0; 1]%float [0; 1] None "t" "data"
           default_params (light_axes 0) two_traces H).
Defined.

(** X5: with a colormap that [get_cmap_colors] does not know and at most
    70 traces, a render whose label could be made raises [TypeError] when
    it unpacks the fill colours: the array is left as it was and no line
    or fill has been drawn. *)
Theorem plotWiggles_unknown_colormap :
  forall xvals interval coordinates title flag p ax X id_number label,
    ~ known_colormap (wiggle_colormap p) ->
    shape0 X <= 70 ->
    py_index interval 0 = Ok id_number ->
    set_ylabel (shape0 X) coordinates id_number flag p = Ok label ->
    let r := plotWiggles xvals interval coordinates title flag p (ax, X) in
    snd r = Raise TypeError /\ snd (fst r) = X /\
    no_call_of Trace (calls (fst (fst r))).
Proof.
  intros xvals interval coordinates title flag p ax X id_number label Hcm HN Hid Hl r.
  subst r.
  assert (Hwp : wp (plotWiggles xvals interval coordinates title flag p)
                   (fun _ _ => False)
                   (fun e s' => e = TypeError /\ snd s' = X /\
                                no_call_of Trace (calls (fst s')))
                   (ax, X)).
  { unfold plotWiggles.
    rewrite (get_cmap_colors_unknown _ (view_mode p) true Hcm). cbn [unpack_fills].
    repeat (wp_step; wp_simpl); rewrite ?with_calls_twice; bool_hyps;
      try lia; try congruence;
      (split; [reflexivity | split; [reflexivity |]]);
      unfold no_call_of; repeat (apply Forall_cons; [cbn [kind]; discriminate |]);
      apply Forall_nil. }
  unfold wp in Hwp.
  destruct (plotWiggles xvals interval coordinates title flag p (ax, X)) as [s' [[] | e]];
    cbn [fst snd]; [contradiction |].
  destruct Hwp as (-> & Ha & Hc). repeat split; assumption.
Qed.

(** Two traces under the colormap 'viridis'. *)
Lemma plotWiggles_unknown_colormap_witness :
  let p := with_wiggle_colormap "viridis" default_params in
  (~ known_colormap (wiggle_colormap p) /\ shape0 two_traces <= 70 /\
   py_index [0; 1] 0 = Ok 0 /\
   set_ylabel (shape0 two_traces) None 0 "data" p = Ok "Receiver") /\
  (let r := plotWiggles [0; 1]%float [0; 1] None "t" "data" p (light_axes 0, two_traces) in
   snd r = Raise TypeError /\ snd (fst r) = two_traces /\
   no_call_of Trace (calls (fst (fst r)))).
Proof.
  cbv zeta.
  assert (Hcm : ~ known_colormap
                  (wiggle_colormap (with_wiggle_colormap "viridis" default_params))).
  { unfold known_colormap. cbn. intros [H | [H | [H | []]]]; discriminate H. }
  assert (HN : shape0 two_traces <= 70) by (vm_compute; discriminate).
  split; [split; [exact Hcm | split; [exact HN | split; reflexivity]] |].
  exact (plotWiggles_unknown_colormap [0; 1]%float [0; 1] None "t" "data"
           (with_wiggle_colormap "viridis" default_params) (light_axes 0) two_traces
           0 "Receiver" Hcm HN eq_refl eq_refl).
Defined.



(** ** Image rendering: redrawing and the colour limits *)






(** ** The map panel: what it keeps, and going forth and back *)

(** A computation that only adds calls to the axes: in both outcomes the
    attributes and the data are kept and the calls found are a prefix of
    the calls left. *)
Definition paints {D A} (c : M (Axes * D) A) : Prop :=
  forall s, wp c (fun _ s' => grows (fun _ => True) s s')
                 (fun _ s' => grows (fun _ => True) s s') s.

Section Paints.
Context {D : Type}.

Lemma paints_ret {A} (a : A) : paints (D := D) (ret a).
Proof. intros s. apply wp_ret. apply grows_refl. Qed.

Lemma paints_lift {A} (r : res A) : paints (D := D) (lift r).
Proof. intros s. apply wp_lift. destruct r; apply grows_refl. Qed.

Lemma paints_the_axes : paints (D := D) the_axes.
Proof. intros s. apply wp_the_axes. apply grows_refl. Qed.

Lemma paints_the_array : paints (D := D) the_array.
Proof. intros s. apply wp_the_array. apply grows_refl. Qed.

Lemma paints_draw (c : call) : paints (D := D) (draw c).
Proof.
  intros s. apply wp_draw. split; [reflexivity | split; [reflexivity |]].
  exists [c]. split; [reflexivity | repeat constructor].
Qed.

Lemma paints_bind {A B} (c : M (Axes * D) A) (k : A -> M (Axes * D) B) :
  paints c -> (forall a, paints (k a)) -> paints (bind c k).
Proof.
  intros Hc Hk s. apply wp_bind.
  eapply wp_conseq; [| | apply Hc].
  - intros a s' Hg. eapply wp_conseq; [| | apply Hk].
    + intros b s'' Hg'. exact (grows_trans _ _ _ _ Hg Hg').
    + intros e s'' Hg'. exact (grows_trans _ _ _ _ Hg Hg').
  - intros e s' Hg. exact Hg.
Qed.
End Paints.

Ltac paints_tac :=
  repeat first
    [ apply paints_ret | apply paints_lift | apply paints_the_axes
    | apply paints_the_array | apply paints_draw
    | apply paints_bind; [| intros ?]
    | match goal with
      | |- paints (if ?b then _ else _) => destruct b
      | |- paints (match ?x with Some _ => _ | None => _ end) => destruct x
      end ].

Section PlotMap.
Context {D : Type}.
Variable p : PlotParams.
Variables receiverPoints sourcePoints scatterer : option ndarray2.
Variable flag : string.

Lemma paints_plotMap_None :
  paints (D := D) (plotMap p None receiverPoints sourcePoints scatterer flag).
Proof. unfold plotMap. paints_tac. Qed.

(** The surface a map with a cursor starts from: cleared, then titled. *)
Definition titled_map (ax : Axes) : Axes :=
  with_calls [SetTitle "Map" (titlecolor ax)] ax.

Lemma wp_plotMap_Some (i : Z) (s : Axes * D) :
  wp (plotMap p (Some i) receiverPoints sourcePoints scatterer flag)
     (fun _ s' => grows (fun _ => True) (titled_map (fst s), snd s) s')
     (fun _ s' => grows (fun _ => True) (titled_map (fst s), snd s) s') s.
Proof.
  unfold plotMap.
  apply wp_bind. apply wp_bind. apply wp_ax_clear.
  apply wp_bind. apply wp_the_axes. apply wp_bind. apply wp_draw. wp_simpl.
  match goal with |- wp ?c _ _ ?s1 =>
    assert (Hc : paints c) by paints_tac;
    eapply wp_conseq; [| | apply (Hc s1)]
  end.
  - intros u s' Hg.
    match goal with |- wp ?c _ _ _ =>
      assert (Ht : paints c) by paints_tac;
      eapply wp_conseq; [| | apply (Ht s')]
    end.
    + intros u' s'' Hg'. exact (grows_trans _ _ _ _ Hg Hg').
    + intros e s'' Hg'. exact (grows_trans _ _ _ _ Hg Hg').
  - intros e s' Hg. exact Hg.
Qed.

(** A computation that starts with [ax.clear()] runs from the bare
    attributes. *)
Lemma run_cleared {A B} (k1 : unit -> M (Axes * D) A) (k2 : A -> M (Axes * D) B)
    (ax : Axes) (d : D) :
  bind (bind ax_clear k1) k2 (ax, d) = bind (k1 tt) k2 (style ax, d).
Proof. reflexivity. Qed.

Lemma plotMap_clears (i : Z) (ax ax' : Axes) (d : D) :
  style ax' = style ax ->
  plotMap p (Some i) receiverPoints sourcePoints scatterer flag (ax', d)
  = plotMap p (Some i) receiverPoints sourcePoints scatterer flag (ax, d).
Proof.
  intros Hs. unfold plotMap. rewrite !run_cleared, Hs. reflexivity.
Qed.
End PlotMap.

(** X9: the map panel never touches the data it is handed nor the
    attributes of the axes, whether it returns or raises.  Without a
    cursor it draws over what is on the axes; with a cursor it starts from
    a cleared surface, titled 'Map', and redrawing it is idempotent: a
    second render ends in the same state with the same outcome. *)
Theorem plotMap_keeps_data_and_style :
  forall (D : Type) p index receiverPoints sourcePoints scatterer flag (ax : Axes) (d : D),
    let r := plotMap p index receiverPoints sourcePoints scatterer flag (ax, d) in
    snd (fst r) = d /\ style (fst (fst r)) = style ax /\
    match index with
    | None => exists l, calls (fst (fst r)) = (calls ax ++ l)%list
    | Some _ =>
        (exists l, calls (fst (fst r)) = SetTitle "Map" (titlecolor ax) :: l) /\
        plotMap p index receiverPoints sourcePoints scatterer flag (fst r) = r
    end.
Proof.
  intros D p index receiverPoints sourcePoints scatterer flag ax d r. subst r.
  destruct index as [i |].
  - pose proof (wp_plotMap_Some p receiverPoints sourcePoints scatterer flag i (ax, d)) as H.
    unfold wp in H.
    destruct (plotMap p (Some i) receiverPoints sourcePoints scatterer flag (ax, d))
      as [[ax' d'] r] eqn:Hrun.
    assert (Hg : grows (fun _ => True) (titled_map ax, d) (ax', d'))
      by (destruct r; exact H).
    destruct Hg as (Hs & Hd & l & Hl & _). cbn [fst snd] in *. subst d'.
    split; [reflexivity | split; [exact Hs | split]].
    + exists l. exact Hl.
    + rewrite <- Hrun. apply plotMap_clears. exact Hs.
  - pose proof (paints_plotMap_None p receiverPoints sourcePoints scatterer flag (ax, d)) as H.
    unfold wp in H.
    destruct (plotMap p None receiverPoints sourcePoints scatterer flag (ax, d))
      as [[ax' d'] r] eqn:Hrun.
    assert (Hg : grows (fun _ => True) (ax, d) (ax', d'))
      by (destruct r; exact H).
    destruct Hg as (Hs & Hd & l & Hl & _). cbn [fst snd] in *.
    split; [exact Hd | split; [exact Hs | exists l; exact Hl]].
Qed.

Section MapNavigation.
Context {D : Type}.
Variable p : PlotParams.
Variables receiverPoints scatterer : option ndarray2.
Variable pts : ndarray2.
Variable flag : string.

(** With source points, a step on the map is a render at the moved cursor. *)
Lemma next_map_run (ax : Axes) (d : D) :
  shape0 pts <> 0 ->
  next_map receiverPoints (Some pts) scatterer flag p (ax, d)
  = plotMap p (Some ((source_index ax + 1) mod shape0 pts))
      receiverPoints (Some pts) scatterer flag
      (with_source_index ((source_index ax + 1) mod shape0 pts) ax, d).
Proof.
  intros HN. unfold next_map, py_mod.
  unfold bind at 1. unfold the_axes at 1. cbn [fst].
  unfold bind at 1. unfold lift at 1.
  destruct (shape0 pts =? 0) eqn:H0; [apply Z.eqb_eq in H0; contradiction |].
  reflexivity.
Qed.

Lemma previous_map_run (ax : Axes) (d : D) :
  shape0 pts <> 0 ->
  previous_map receiverPoints (Some pts) scatterer flag p (ax, d)
  = plotMap p (Some ((source_index ax - 1) mod shape0 pts))
      receiverPoints (Some pts) scatterer flag
      (with_source_index ((source_index ax - 1) mod shape0 pts) ax, d).
Proof.
  intros HN. unfold previous_map, py_mod.
  unfold bind at 1. unfold the_axes at 1. cbn [fst].
  unfold bind at 1. unfold lift at 1.
  destruct (shape0 pts =? 0) eqn:H0; [apply Z.eqb_eq in H0; contradiction |].
  reflexivity.
Qed.

Lemma plotMap_after (i : Z) (sp : option ndarray2) (ax : Axes) (d : D) :
  exists ax', after (plotMap p (Some i) receiverPoints sp scatterer flag) (ax, d) = (ax', d)
              /\ style ax' = style ax.
Proof.
  pose proof (wp_plotMap_Some p receiverPoints sp scatterer flag i (ax, d)) as H.
  unfold wp in H. unfold after.
  destruct (plotMap p (Some i) receiverPoints sp scatterer flag (ax, d))
    as [[ax' d'] r].
  assert (Hg : grows (fun _ => True) (titled_map ax, d) (ax', d'))
    by (destruct r; exact H).
  destruct Hg as (Hs & Hd & _). cbn [fst snd] in *. subst d'.
  exists ax'. split; [reflexivity | exact Hs].
Qed.

Lemma style_moved_back (ax ax' : Axes) (i j : Z) :
  style ax' = style (with_source_index j ax) -> i = source_index ax ->
  style (with_source_index i ax') = style ax.
Proof.
  intros Hs ->. destruct ax, ax'. cbn in *. injection Hs as -> -> -> -> -> -> -> -> -> -> -> ->.
  reflexivity.
Qed.
End MapNavigation.

(** X10: navigation on the map panel is reversible.  From a cursor
    within the rows of the source points, [next_map] then [previous_map],
    and [previous_map] then [next_map], end with the outcome and in the
    state of the map rendered at the original cursor: same cursor, same
    drawing, same data. *)
Theorem map_navigation_reversible :
  forall (D : Type) p receiverPoints pts scatterer flag (ax : Axes) (d : D),
    0 <= source_index ax < shape0 pts ->
    let shown := plotMap p (Some (source_index ax)) receiverPoints (Some pts)
                   scatterer flag (ax, d) in
    previous_map receiverPoints (Some pts) scatterer flag p
      (after (next_map receiverPoints (Some pts) scatterer flag p) (ax, d)) = shown /\
    next_map receiverPoints (Some pts) scatterer flag p
      (after (previous_map receiverPoints (Some pts) scatterer flag p) (ax, d)) = shown.
Proof.
  intros D p receiverPoints pts scatterer flag ax d Hc shown. subst shown.
  assert (HN : shape0 pts <> 0) by lia.
  split.
  - unfold after at 1. rewrite next_map_run by exact HN.
    destruct (plotMap_after p receiverPoints scatterer flag
                ((source_index ax + 1) mod shape0 pts) (Some pts)
                (with_source_index ((source_index ax + 1) mod shape0 pts) ax) d)
      as (ax' & Hrun & Hs).
    unfold after in Hrun. rewrite Hrun.
    rewrite previous_map_run by exact HN.
    assert (Hi : source_index ax' = (source_index ax + 1) mod shape0 pts)
      by exact (style_source_index _ _ Hs).
    rewrite Hi, Zminus_mod_idemp_l.
    replace (source_index ax + 1 - 1) with (source_index ax) by lia.
    rewrite Z.mod_small by exact Hc.
    apply plotMap_clears. eapply style_moved_back; [exact Hs | reflexivity].
  - unfold after at 1. rewrite previous_map_run by exact HN.
    destruct (plotMap_after p receiverPoints scatterer flag
                ((source_index ax - 1) mod shape0 pts) (Some pts)
                (with_source_index ((source_index ax - 1) mod shape0 pts) ax) d)
      as (ax' & Hrun & Hs).
    unfold after in Hrun. rewrite Hrun.
    rewrite next_map_run by exact HN.
    assert (Hi : source_index ax' = (source_index ax - 1) mod shape0 pts)
      by exact (style_source_index _ _ Hs).
    rewrite Hi, Zplus_mod_idemp_l.
    replace (source_index ax - 1 + 1) with (source_index ax) by lia.
    rewrite Z.mod_small by exact Hc.
    apply plotMap_clears. eapply style_moved_back; [exact Hs | reflexivity].
Qed.

(** Forth and back over two sources in the plane. *)
Lemma map_navigation_reversible_witness :
  0 <= source_index (light_axes 0) < shape0 points_2d /\
  (let shown := plotMap default_params (Some (source_index (light_axes 0)))
                  (Some points_2d) (Some points_2d) None "data" (light_axes 0, tt) in
   previous_map (Some points_2d) (Some points_2d) None "data" default_params
     (after (next_map (Some points_2d) (Some points_2d) None "data" default_params)
        (light_axes 0, tt)) = shown /\
   next_map (Some points_2d) (Some points_2d) None "data" default_params
     (after (previous_map (Some points_2d) (Some points_2d) None "data" default_params)
        (light_axes 0, tt)) = shown).
Proof.
  assert (H : 0 <= source_index (light_axes 0) < shape0 points_2d)
    by (vm_compute; split; [discriminate | reflexivity]).
  split; [exact H |].
  exact (map_navigation_reversible unit default_params (Some points_2d) points_2d None
           "data" (light_axes 0) tt H).
Defined.

(** ** Key handlers: the cursors *)

(** X11: with at least one source, [next_wave] and [previous_wave] leave
    the cursor within the frames, [0 <= cursor < Ns], wherever it was
    before and whether the render that follows returns or raises.  With no
    source both raise [ZeroDivisionError] and change nothing. *)
Theorem wave_cursor_stays_in_range :
  forall p (s : Axes * Experiment),
    (0 < Ns s ->
     (0 <= cursor (after (next_wave p) s) < Ns (after (next_wave p) s)) /\
     (0 <= cursor (after (previous_wave p) s) < Ns (after (previous_wave p) s))) /\
    (Ns s = 0 ->
     next_wave p s = (s, Raise ZeroDivisionError) /\
     previous_wave p s = (s, Raise ZeroDivisionError)).
Proof.
  intros p s. split.
  - intros HN.
    destruct (next_wave_cursor p s) as [Hc Hn]; [lia |].
    destruct (previous_wave_cursor p s) as [Hc' Hn']; [lia |].
    rewrite Hc, Hn, Hc', Hn'. split; apply Z.mod_pos_bound; exact HN.
  - intros HN. unfold Ns in HN. destruct s as [ax e]. cbn [snd] in HN.
    split; [unfold next_wave | unfold previous_wave]; unfold py_mod;
      (unfold bind at 1; unfold the_axes at 1; cbn [fst snd];
       unfold bind at 1; unfold the_array at 1; cbn [fst snd];
       unfold bind at 1; unfold lift at 1;
       rewrite HN; reflexivity).
Qed.

(** The cursors of the panels of the figure. *)
Definition cursors (v : Viewer) : list Z := map source_index (fig_axes v).

Lemma on_panel_cursors {A} (k : Z) (c : M (Axes * Experiment) A) (v : Viewer) :
  (forall s, cursor (after c s) = cursor s) ->
  cursors (after (on_panel k c) v) = cursors v.
Proof.
  intros Hc. unfold after, on_panel, cursors.
  destruct (py_index (fig_axes v) k) as [ax |] eqn:Hax; [| reflexivity].
  destruct (py_index (experiments (plotter v)) (index (plotter v))) as [[e |] |];
    try reflexivity.
  specialize (Hc (ax, e)). unfold after, cursor in Hc.
  destruct (c (ax, e)) as [s' r]. cbn [fst snd fig_axes] in *.
  eapply map_list_update; [apply py_index_nth; exact Hax | exact Hc].
Qed.

Lemma render_map_cursor scatterer p (s : Axes * Experiment) :
  cursor (after (render_map scatterer p) s) = cursor s.
Proof.
  unfold render_map, after, cursor.
  unfold bind at 1. unfold the_axes at 1. cbn [fst snd].
  unfold bind at 1. unfold the_array at 1. cbn [fst snd].
  destruct s as [ax e]. cbn [fst snd].
  destruct (plotMap_after p (receiverPoints e) scatterer (wiggleType e)
              (source_index ax) (sourcePoints e) ax e) as (ax' & Hrun & Hs).
  unfold after in Hrun. rewrite Hrun. cbn [fst].
  apply style_source_index. exact Hs.
Qed.

(** X12: [switch_experiments] never moves a cursor: whatever the key and
    the outcome, every panel of the figure has the cursor it had, so that
    the experiment switched to is shown at the cursor of the one switched
    from. *)
Theorem switch_experiments_keeps_cursors :
  forall key p scatterer show_map (v : Viewer),
    cursors (after (switch_experiments key p scatterer show_map) v) = cursors v.
Proof.
  intros key p scatterer show_map v.
  apply (after_of_wp (switch_experiments key p scatterer show_map)
           (fun v' => cursors v' = cursors v)).
  unfold switch_experiments.
  assert (Hstep : forall v1 : Viewer,
            cursors v1 = cursors v ->
            wp (v0 <- get ;;
                _ <- lift (py_index (experiments (plotter v0)) (index (plotter v0))) ;;
                if show_map then
                  _ <- lift (py_index (fig_axes v0) 0) ;;
                  _ <- lift (py_index (fig_axes v0) 1) ;;
                  on_panel 0 (render_wave p) ;;
                  on_panel 1 (render_map scatterer p)
                else on_panel 0 (render_wave p))
               (fun _ v' => cursors v' = cursors v)
               (fun _ v' => cursors v' = cursors v) v1).
  { intros v1 Hv1.
    assert (Hw : forall v2, cursors (after (on_panel 0 (render_wave p)) v2) = cursors v2).
    { intros v2. apply on_panel_cursors. intros s. apply render_wave_keeps. }
    assert (Hm : forall v2,
               cursors (after (on_panel 1 (render_map scatterer p)) v2) = cursors v2).
    { intros v2. apply on_panel_cursors. intros s. apply render_map_cursor. }
    repeat (wp_step; try assumption).
    - eapply wp_conseq;
        [| | apply (wp_of_after (on_panel 0 (render_wave p))
                      (fun v' => cursors v' = cursors v1)); apply Hw].
      + intros u v2 H2. cbv beta.
        eapply wp_conseq;
          [| | apply (wp_of_after (on_panel 1 (render_map scatterer p))
                        (fun v' => cursors v' = cursors v2)); apply Hm].
        * intros u' v3 H3. cbv beta in *. congruence.
        * intros e v3 H3. cbv beta in *. congruence.
      + intros e v2 H2. cbv beta in *. congruence.
    - eapply wp_conseq;
        [| | apply (wp_of_after (on_panel 0 (render_wave p))
                      (fun v' => cursors v' = cursors v1)); apply Hw].
      + intros u v2 H2. cbv beta in *. congruence.
      + intros e v2 H2. cbv beta in *. congruence. }
  wp_step. wp_step. wp_step. wp_step. wp_step; [| reflexivity].
  destruct (String.eqb key "r").
  - wp_step. wp_step. wp_step. wp_step; [| reflexivity].
    unfold set_index. apply wp_modify. apply Hstep. reflexivity.
  - wp_step. wp_step. apply Hstep. reflexivity.
Qed.

(** X13: on a key other than the four arrows [process_key_waves] changes
    nothing: no cursor, no drawing, no data. *)
Theorem process_key_waves_ignores_other_keys :
  forall key p scatterer show_map (v : Viewer),
    ~ In key ["left"; "down"; "right"; "up"] ->
    after (process_key_waves key p scatterer show_map) v = v.
Proof.
  intros key p scatterer show_map v Hkey.
  assert (Hl : (String.eqb key "left" || String.eqb key "down")%bool = false).
  { apply orb_false_iff. split; apply String.eqb_neq; intros ->; apply Hkey; cbn; tauto. }
  assert (Hr : (String.eqb key "right" || String.eqb key "up")%bool = false).
  { apply orb_false_iff. split; apply String.eqb_neq; intros ->; apply Hkey; cbn; tauto. }
  apply (after_of_wp (process_key_waves key p scatterer show_map) (fun v' => v' = v)).
  unfold process_key_waves. rewrite Hl, Hr.
  repeat wp_step; reflexivity.
Qed.

(** The key 'q' on the viewer of one experiment. *)
Lemma process_key_waves_ignores_other_keys_witness :
  ~ In "q" ["left"; "down"; "right"; "up"] /\
  after (process_key_waves "q" default_params None false) viewer_alone = viewer_alone.
Proof.
  assert (H : ~ In "q" ["left"; "down"; "right"; "up"]).
  { cbn [In]. intros [H | [H | [H | [H | []]]]]; discriminate H. }
  split; [exact H |].
  exact (process_key_waves_ignores_other_keys "q" default_params None false
           viewer_alone H).
Defined.

(** ** Key handlers: the two panels together *)

(** The step an arrow key stands for: back for 'left' and 'down', forth
    for 'right' and 'up'. *)
Definition arrow (key : string) : option Z :=
  if (String.eqb key "left" || String.eqb key "down")%bool then Some (-1)
  else if (String.eqb key "right" || String.eqb key "up")%bool then Some 1
  else None.

(** An experiment, its recording apart. *)
Definition setup (e : Experiment) : Experiment := with_data [] e.

Lemma on_frame_setup {A} (i : Z) (c : M (Axes * ndarray2) A) (s : Axes * Experiment) :
  setup (snd (after (on_frame i c) s)) = setup (snd s).
Proof.
  unfold after, on_frame.
  destruct (py_index (data (snd s)) i); [| reflexivity].
  destruct (c (fst s, a)). reflexivity.
Qed.

Lemma render_wave_setup p (s : Axes * Experiment) :
  setup (snd (after (render_wave p) s)) = setup (snd s).
Proof.
  apply (after_of_wp (render_wave p) (fun s' => setup (snd s') = setup (snd s))).
  unfold render_wave. repeat (wp_step; wp_simpl); [| reflexivity].
  apply wp_of_after. apply on_frame_setup.
Qed.

Lemma next_wave_setup p (s : Axes * Experiment) :
  setup (snd (after (next_wave p) s)) = setup (snd s).
Proof.
  apply (after_of_wp (next_wave p) (fun s' => setup (snd s') = setup (snd s))).
  unfold next_wave. repeat (wp_step; wp_simpl); [| reflexivity].
  apply wp_of_after. rewrite render_wave_setup. reflexivity.
Qed.

Lemma previous_wave_setup p (s : Axes * Experiment) :
  setup (snd (after (previous_wave p) s)) = setup (snd s).
Proof.
  apply (after_of_wp (previous_wave p) (fun s' => setup (snd s') = setup (snd s))).
  unfold previous_wave. repeat (wp_step; wp_simpl); [| reflexivity].
  apply wp_of_after. rewrite render_wave_setup. reflexivity.
Qed.

Lemma py_index_list_update {A} (xs : list A) (i : Z) (a b : A) :
  py_index xs i = Ok a ->
  py_index (list_update xs (normal_index xs i) b) i = Ok b.
Proof.
  intros H.
  assert (Hlen : forall (ys : list A) j y, List.length (list_update ys j y) = List.length ys).
  { induction ys as [| z ys IH]; intros [| j] y; cbn; try reflexivity.
    rewrite IH. reflexivity. }
  assert (Hnth : forall (ys : list A) j y z,
             nth_error ys j = Some z -> nth_error (list_update ys j y) j = Some y).
  { induction ys as [| w ys IH]; intros [| j] y z Hj; cbn in *; try discriminate.
    - reflexivity.
    - eapply IH. exact Hj. }
  pose proof (py_index_nth xs i a H) as Hn.
  unfold py_index in *. rewrite Hlen.
  destruct ((_ <? 0) || _)%bool; [discriminate |].
  unfold normal_index in *. rewrite (Hnth _ _ b a Hn). reflexivity.
Qed.

Lemma on_panel_run {A} (k : Z) (c : M (Axes * Experiment) A) (v : Viewer) ax e :
  py_index (fig_axes v) k = Ok ax ->
  py_index (experiments (plotter v)) (index (plotter v)) = Ok (Some e) ->
  on_panel k c v
  = (mk_Viewer
       (mk_Plotter
          (list_update (experiments (plotter v))
             (normal_index (experiments (plotter v)) (index (plotter v)))
             (Some (snd (after c (ax, e)))))
          (index (plotter v)))
       (list_update (fig_axes v) (normal_index (fig_axes v) k) (fst (after c (ax, e)))),
     snd (c (ax, e))).
Proof.
  intros Hax He. unfold on_panel, after. rewrite Hax, He.
  destruct (c (ax, e)) as [s' r]. reflexivity.
Qed.

Lemma py_index_second {A} (a b : A) (rest : list A) :
  py_index (a :: b :: rest) 1 = Ok b.
Proof.
  unfold py_index. cbn [Z.ltb Z.compare].
  destruct (Z.of_nat (List.length (a :: b :: rest)) <=? 1) eqn:H;
    [apply Z.leb_le in H; cbn [List.length] in H; lia | reflexivity].
Qed.

Section Synchronised.
Variable p : PlotParams.
Variable scatterer : option ndarray2.
Variable step : Z.
(** The handler of the wiggle panel and that of the map panel, for one
    direction. *)
Variable wave : M (Axes * Experiment) unit.
Variable map_ : M (Axes * Experiment) unit.
Hypothesis wave_cursor : forall s,
  Ns s <> 0 -> cursor (after wave s) = (cursor s + step) mod Ns s.
Hypothesis wave_setup : forall s, setup (snd (after wave s)) = setup (snd s).
Hypothesis map_cursor : forall ax e pts,
  sourcePoints e = Some pts -> shape0 pts <> 0 ->
  source_index (fst (after map_ (ax, e))) = (source_index ax + step) mod shape0 pts.

Lemma both_panels (v : Viewer) ax1 ax2 rest e pts :
  fig_axes v = ax1 :: ax2 :: rest ->
  py_index (experiments (plotter v)) (index (plotter v)) = Ok (Some e) ->
  sourcePoints e = Some pts ->
  shape0 pts = Z.of_nat (List.length (sourceNumbers e)) -> shape0 pts <> 0 ->
  source_index ax2 = source_index ax1 ->
  let r := (on_panel 0 wave ;; on_panel 1 map_) v in
  exists ax1' ax2',
    fig_axes (fst r) = ax1' :: ax2' :: rest /\
    source_index ax1' = (source_index ax1 + step) mod shape0 pts /\
    (snd r = Ok tt -> source_index ax2' = source_index ax1') /\
    (source_index ax2' = source_index ax1' \/ ax2' = ax2).
Proof.
  intros Hax He Hpts HN HN0 Hsync. cbv zeta.
  assert (H0 : py_index (fig_axes v) 0 = Ok ax1) by (rewrite Hax; reflexivity).
  unfold bind. rewrite (on_panel_run 0 wave v ax1 e H0 He).
  pose proof (wave_cursor (ax1, e)) as Hc. pose proof (wave_setup (ax1, e)) as Hs.
  unfold Ns, cursor in Hc. cbn [fst snd] in Hc, Hs. rewrite <- HN in Hc.
  specialize (Hc HN0).
  destruct (wave (ax1, e)) as [[ax1' e1] r1] eqn:Hrun.
  unfold after in *. rewrite Hrun in *. cbn [fst snd] in *.
  rewrite Hax. cbn [normal_index Z.ltb Z.compare Z.to_nat list_update].
  destruct r1 as [[] | err].
  - match goal with |- context [on_panel 1 map_ ?v1] => set (v1_ := v1) end.
    assert (H1 : py_index (fig_axes v1_) 1 = Ok ax2) by apply py_index_second.
    assert (He1 : py_index (experiments (plotter v1_)) (index (plotter v1_)) = Ok (Some e1)).
    { subst v1_. cbn [plotter experiments index].
      eapply py_index_list_update. exact He. }
    rewrite (on_panel_run 1 map_ v1_ ax2 e1 H1 He1).
    assert (Hpts1 : sourcePoints e1 = Some pts).
    { rewrite <- Hpts. exact (f_equal sourcePoints Hs). }
    pose proof (map_cursor ax2 e1 pts Hpts1 HN0) as Hm. unfold after in *.
    destruct (map_ (ax2, e1)) as [[ax2' e2] r2]. cbn [fst snd] in *.
    exists ax1', ax2'. subst v1_. cbn [fig_axes].
    cbn [normal_index Z.ltb Z.compare Z.to_nat Pos.to_nat Pos.iter_op Nat.add list_update].
    split; [reflexivity | split; [exact Hc | split; [intros _ | left]]]; congruence.
  - exists ax1', ax2. cbn [fst snd fig_axes].
    split; [reflexivity | split; [exact Hc | split; [discriminate | right; reflexivity]]].
Qed.
End Synchronised.

Lemma next_map_cursor p scatterer ax e pts :
  sourcePoints e = Some pts -> shape0 pts <> 0 ->
  source_index
    (fst (after (e0 <- the_array ;;
                 next_map (receiverPoints e0) (sourcePoints e0) scatterer
                   (wiggleType e0) p) (ax, e)))
  = (source_index ax + 1) mod shape0 pts.
Proof.
  intros Hpts HN. unfold after. unfold bind at 1. unfold the_array at 1. cbn [fst snd].
  rewrite Hpts, next_map_run by exact HN.
  destruct (plotMap_after p (receiverPoints e) scatterer (wiggleType e)
              ((source_index ax + 1) mod shape0 pts) (Some pts)
              (with_source_index ((source_index ax + 1) mod shape0 pts) ax) e)
    as (ax' & Hrun & Hs).
  unfold after in Hrun. rewrite Hrun. cbn [fst].
  exact (style_source_index _ _ Hs).
Qed.

Lemma previous_map_cursor p scatterer ax e pts :
  sourcePoints e = Some pts -> shape0 pts <> 0 ->
  source_index
    (fst (after (e0 <- the_array ;;
                 previous_map (receiverPoints e0) (sourcePoints e0) scatterer
                   (wiggleType e0) p) (ax, e)))
  = (source_index ax + -1) mod shape0 pts.
Proof.
  intros Hpts HN. unfold after. unfold bind at 1. unfold the_array at 1. cbn [fst snd].
  rewrite Hpts, previous_map_run by exact HN.
  destruct (plotMap_after p (receiverPoints e) scatterer (wiggleType e)
              ((source_index ax - 1) mod shape0 pts) (Some pts)
              (with_source_index ((source_index ax - 1) mod shape0 pts) ax) e)
    as (ax' & Hrun & Hs).
  unfold after in Hrun. rewrite Hrun. cbn [fst].
  exact (style_source_index _ _ Hs).
Qed.

(** X14: the two panels move together.  In a figure with a wiggle panel
    and a map panel at the same cursor, showing an experiment with as many
    source points as source numbers, an arrow key moves the cursor of the
    wiggle panel by one step, wrapping around; the cursor of the map panel
    follows whenever the handler returns, and more generally unless the
    wiggle render raises, in which case the map panel is left as it was. *)
Theorem process_key_waves_moves_both_cursors :
  forall key step p scatterer (v : Viewer) ax1 ax2 rest e pts,
    arrow key = Some step ->
    fig_axes v = ax1 :: ax2 :: rest ->
    py_index (experiments (plotter v)) (index (plotter v)) = Ok (Some e) ->
    sourcePoints e = Some pts ->
    shape0 pts = Z.of_nat (List.length (sourceNumbers e)) -> shape0 pts <> 0 ->
    source_index ax2 = source_index ax1 ->
    let r := process_key_waves key p scatterer true v in
    exists ax1' ax2',
      fig_axes (fst r) = ax1' :: ax2' :: rest /\
      source_index ax1' = (source_index ax1 + step) mod shape0 pts /\
      (snd r = Ok tt -> source_index ax2' = source_index ax1') /\
      (source_index ax2' = source_index ax1' \/ ax2' = ax2).
Proof.
  intros key step p scatterer v ax1 ax2 rest e pts Hkey Hax He Hpts HN HN0 Hsync r.
  subst r.
  assert (H0 : py_index (fig_axes v) 0 = Ok ax1) by (rewrite Hax; reflexivity).
  assert (H1 : py_index (fig_axes v) 1 = Ok ax2) by (rewrite Hax; apply py_index_second).
  assert (Hrun : process_key_waves key p scatterer true v
                 = (if (String.eqb key "left" || String.eqb key "down")%bool then
                      on_panel 0 (previous_wave p) ;;
                      on_panel 1 (e0 <- the_array ;;
                                  previous_map (receiverPoints e0) (sourcePoints e0)
                                    scatterer (wiggleType e0) p)
                    else if (String.eqb key "right" || String.eqb key "up")%bool then
                      on_panel 0 (next_wave p) ;;
                      on_panel 1 (e0 <- the_array ;;
                                  next_map (receiverPoints e0) (sourcePoints e0)
                                    scatterer (wiggleType e0) p)
                    else ret tt) v).
  { unfold process_key_waves.
    unfold bind at 1. unfold get at 1. cbv beta iota.
    unfold bind at 1. unfold lift at 1. rewrite He. cbv beta iota.
    unfold bind at 1. unfold lift at 1. rewrite H0. cbv beta iota.
    unfold bind at 1. unfold lift at 1. rewrite H1. reflexivity. }
  rewrite Hrun. clear Hrun.
  unfold arrow in Hkey.
  destruct (String.eqb key "left" || String.eqb key "down")%bool.
  - inversion Hkey; subst step.
    apply (both_panels (-1) (previous_wave p) _) with (e := e); try assumption.
    + intros s Hs. destruct (previous_wave_cursor p s Hs) as [Hc _]. exact Hc.
    + intros s. apply previous_wave_setup.
    + intros ax e0 pts0. apply previous_map_cursor.
  - destruct (String.eqb key "right" || String.eqb key "up")%bool; [| discriminate Hkey].
    inversion Hkey; subst step.
    apply (both_panels 1 (next_wave p) _) with (e := e); try assumption.
    + intros s Hs. destruct (next_wave_cursor p s Hs) as [Hc _]. exact Hc.
    + intros s. apply next_wave_setup.
    + intros ax e0 pts0. apply next_map_cursor.
Qed.

(** Two sources in the plane, recorded by two receivers. *)
Definition mapped_experiment : Experiment := {|
  data := [two_traces; flat_traces];
  time := [0; 1]%float;
  receiverNumbers := [0; 1];
  receiverPoints := Some points_2d;
  sourceNumbers := [1; 2];
  sourcePoints := Some points_2d;
  wiggleType := "data"
|}.

Definition viewer_mapped : Viewer :=
  mk_Viewer (Plotter_init mapped_experiment None) [light_axes 0; light_axes 0].

(** The key 'right' on two panels at the first of two sources. *)
Lemma process_key_waves_moves_both_cursors_witness :
  (arrow "right" = Some 1 /\
   fig_axes viewer_mapped = [light_axes 0; light_axes 0] /\
   py_index (experiments (plotter viewer_mapped)) (index (plotter viewer_mapped))
   = Ok (Some mapped_experiment) /\
   sourcePoints mapped_experiment = Some points_2d /\
   shape0 points_2d = Z.of_nat (List.length (sourceNumbers mapped_experiment)) /\
   shape0 points_2d <> 0 /\
   source_index (light_axes 0) = source_index (light_axes 0)) /\
  (let r := process_key_waves "right" default_params None true viewer_mapped in
   exists ax1' ax2',
     fig_axes (fst r) = [ax1'; ax2'] /\
     source_index ax1' = (source_index (light_axes 0) + 1) mod shape0 points_2d /\
     (snd r = Ok tt -> source_index ax2' = source_index ax1') /\
     (source_index ax2' = source_index ax1' \/ ax2' = light_axes 0)).
Proof.
  assert (HN0 : shape0 points_2d <> 0) by (vm_compute; discriminate).
  split; [repeat split; exact HN0 |].
  exact (process_key_waves_moves_both_cursors "right" 1 default_params None
           viewer_mapped (light_axes 0) (light_axes 0) [] mapped_experiment points_2d
           eq_refl eq_refl eq_refl eq_refl eq_refl HN0 eq_refl).
Defined.

Example right_key_moves_both_panels :
  let r := process_key_waves "right" default_params None true viewer_mapped in
  snd r = Ok tt /\ cursors (fst r) = [1; 1].
Proof. split; vm_compute; reflexivity. Qed.

(** ** Keyboard shortcuts: what is removed *)

(** What [keys.remove(key)] does to a list that has the key. *)
Lemma list_remove_spec (key : string) (keys : list string) :
  In key keys ->
  exists keys',
    list_remove key keys = Ok keys' /\
    count_occ string_dec keys' key = Nat.pred (count_occ string_dec keys key) /\
    (forall k, k <> key -> count_occ string_dec keys' k = count_occ string_dec keys k) /\
    (forall f : string -> bool, f key = false -> filter f keys' = filter f keys).
Proof.
  induction keys as [| k keys IH]; intros Hin; [destruct Hin |].
  cbn [list_remove]. destruct (String.eqb_spec k key) as [-> | Hne].
  - exists keys. split; [reflexivity |]. split; [| split].
    + cbn [count_occ]. destruct (string_dec key key); [reflexivity | congruence].
    + intros k Hk. cbn [count_occ]. destruct (string_dec key k); [congruence | reflexivity].
    + intros f Hf. cbn [filter]. rewrite Hf. reflexivity.
  - destruct Hin as [Hin | Hin]; [congruence |].
    destruct (IH Hin) as (keys' & Hrun & Hc & Ho & Hf). rewrite Hrun. cbn [pure_bind].
    exists (k :: keys'). split; [reflexivity |]. split; [| split].
    + cbn [count_occ]. destruct (string_dec k key); [congruence | exact Hc].
    + intros k0 Hk0. cbn [count_occ]. rewrite (Ho k0 Hk0). reflexivity.
    + intros f Hfk. cbn [filter]. rewrite (Hf f Hfk). reflexivity.
Qed.

Lemma count_occ_In_iff (keys : list string) (k : string) :
  In k keys <-> (0 < count_occ string_dec keys k)%nat.
Proof. apply count_occ_In. Qed.

(** The inner loop, over keys that are distinct and all in the list. *)
Lemma remove_each_spec (remove_list : list string) : forall keys : list string,
  NoDup remove_list -> (forall k, In k remove_list -> In k keys) ->
  exists keys',
    for_each remove_list keys_remove keys = (keys', Ok tt) /\
    (forall k, In k remove_list ->
       count_occ string_dec keys' k = Nat.pred (count_occ string_dec keys k)) /\
    (forall k, ~ In k remove_list ->
       count_occ string_dec keys' k = count_occ string_dec keys k) /\
    (forall f : string -> bool, (forall k, In k remove_list -> f k = false) ->
       filter f keys' = filter f keys).
Proof.
  induction remove_list as [| key l IH]; intros keys Hnd Hsub.
  - exists keys. cbn [for_each]. split; [reflexivity |].
    split; [intros k [] | split; reflexivity].
  - inversion Hnd as [| ? ? Hnotin Hnd']; subst.
    destruct (list_remove_spec key keys (Hsub key (or_introl eq_refl)))
      as (keys1 & Hrun & Hc & Ho & Hf).
    destruct (IH keys1 Hnd') as (keys' & Hrun' & Hc' & Ho' & Hf').
    { intros k Hk. apply count_occ_In_iff. rewrite Ho by (intros ->; contradiction).
      apply count_occ_In_iff. apply Hsub. right. exact Hk. }
    exists keys'. split; [| split; [| split]].
    + cbn [for_each]. unfold bind. unfold keys_remove at 1. rewrite Hrun. exact Hrun'.
    + intros k [<- | Hk].
      * rewrite Ho' by exact Hnotin. exact Hc.
      * rewrite (Hc' k Hk). rewrite Ho by (intros ->; contradiction). reflexivity.
    + intros k Hk. rewrite Ho' by (intros H; apply Hk; right; exact H).
      apply Ho. intros ->. apply Hk. left. reflexivity.
    + intros f Hfl. rewrite Hf' by (intros k Hk; apply Hfl; right; exact Hk).
      apply Hf. apply Hfl. left. reflexivity.
Qed.

Lemma mem_In (k : string) (s : list string) : mem k s = true <-> In k s.
Proof.
  unfold mem. rewrite existsb_exists. split.
  - intros (x & Hx & Heq). apply String.eqb_eq in Heq. subst. exact Hx.
  - intros H. exists k. split; [exact H | apply String.eqb_refl].
Qed.

Lemma set_inter_In (keys new : list string) (k : string) :
  In k (set_inter keys new) <-> In k keys /\ mem k new = true.
Proof. unfold set_inter. rewrite nodup_In, filter_In. reflexivity. Qed.

Lemma set_inter_NoDup (keys new : list string) : NoDup (set_inter keys new).
Proof. apply NoDup_nodup. Qed.

Lemma filter_all (f : string -> bool) (keys : list string) :
  (forall k, In k keys -> f k = true) -> filter f keys = keys.
Proof.
  induction keys as [| k keys IH]; intros H; cbn [filter]; [reflexivity |].
  rewrite (H k (or_introl eq_refl)), IH; [reflexivity |].
  intros k0 Hk0. apply H. right. exact Hk0.
Qed.

(** What the loop body leaves of the keys of one setting. *)
Definition keys_kept (new old now : list string) : Prop :=
  filter (fun k => negb (mem k new)) now = filter (fun k => negb (mem k new)) old /\
  (forall k, mem k new = true ->
     count_occ string_dec now k = Nat.pred (count_occ string_dec old k)) /\
  (NoDup old -> now = filter (fun k => negb (mem k new)) old).

Lemma remove_conflicts_keymap (new keys : list string) :
  exists keys',
    for_each (set_inter keys new) keys_remove keys = (keys', Ok tt) /\
    keys_kept new keys keys'.
Proof.
  destruct (remove_each_spec (set_inter keys new) keys (set_inter_NoDup keys new))
    as (keys' & Hrun & Hc & Ho & Hf).
  { intros k Hk. apply set_inter_In in Hk. tauto. }
  exists keys'. split; [exact Hrun |].
  assert (Hfilter : filter (fun k => negb (mem k new)) keys'
                    = filter (fun k => negb (mem k new)) keys).
  { apply Hf. intros k Hk. apply set_inter_In in Hk. destruct Hk as [_ ->]. reflexivity. }
  assert (Hcount : forall k, mem k new = true ->
             count_occ string_dec keys' k = Nat.pred (count_occ string_dec keys k)).
  { intros k Hk. destruct (in_dec string_dec k keys) as [Hin | Hnin].
    - apply Hc. apply set_inter_In. split; assumption.
    - rewrite Ho by (intros H; apply set_inter_In in H; tauto).
      apply (count_occ_not_In string_dec) in Hnin. rewrite Hnin. reflexivity. }
  split; [exact Hfilter | split; [exact Hcount |]].
  intros Hnd. rewrite <- Hfilter. symmetry. apply filter_all.
  intros k Hk. apply negb_true_iff. destruct (mem k new) eqn:Hm; [exfalso | reflexivity].
  apply count_occ_In_iff in Hk. rewrite (Hcount k Hm) in Hk.
  pose proof (proj1 (NoDup_count_occ string_dec keys) Hnd k). lia.
Qed.

(** X15: [remove_keymap_conflicts] never raises.  It keeps the settings
    and their order, and leaves untouched every setting whose name does not
    start with 'keymap.'.  In a keymap setting the keys outside the new set
    are kept, in order, and each key of the new set loses one occurrence,
    its first; so a key list without duplicates comes back with no key of
    the new set in it. *)
Theorem remove_keymap_conflicts_effect :
  forall (new_keys_set : list string) (rc : rcParams),
    let r := remove_keymap_conflicts new_keys_set rc in
    snd r = Ok tt /\
    Forall2 (fun old now =>
               fst now = fst old /\
               if String.prefix "keymap." (fst old)
               then keys_kept new_keys_set (snd old) (snd now)
               else snd now = snd old)
            rc (fst r).
Proof.
  intros new rc. cbv zeta. unfold remove_keymap_conflicts.
  induction rc as [| [prop keys] rc [IHr IHf]]; cbn [for_each_item].
  - split; [reflexivity | constructor].
  - assert (Hbody : exists keys',
               remove_conflicts new prop keys = (keys', Ok tt) /\
               if String.prefix "keymap." prop then keys_kept new keys keys'
               else keys' = keys).
    { unfold remove_conflicts. destruct (String.prefix "keymap." prop).
      - destruct (remove_conflicts_keymap new keys) as (keys' & Hrun & Hk).
        exists keys'. split; [exact Hrun | exact Hk].
      - exists keys. split; reflexivity. }
    destruct Hbody as (keys' & Hrun & Hk). rewrite Hrun.
    destruct (for_each_item (remove_conflicts new) rc) as [rc' r]. cbn [fst snd] in *.
    split; [exact IHr |]. constructor; [| exact IHf].
    cbn [fst snd]. split; [reflexivity | exact Hk].
Qed.

(** Removing two different keys, in either order. *)
Lemma list_remove_comm (x y : string) (keys : list string) :
  x <> y ->
  pure_bind (list_remove x keys) (list_remove y)
  = pure_bind (list_remove y keys) (list_remove x).
Proof.
  intros Hxy. induction keys as [| k keys IH]; [reflexivity |].
  cbn [list_remove].
  destruct (String.eqb_spec k x) as [Hx | Hx]; destruct (String.eqb_spec k y) as [Hy | Hy].
  - congruence.
  - cbn [pure_bind].
    destruct (list_remove y keys) as [keys' |]; cbn [pure_bind list_remove];
      [| reflexivity].
    apply String.eqb_eq in Hx. rewrite Hx. reflexivity.
  - cbn [pure_bind].
    destruct (list_remove x keys) as [keys' |]; cbn [pure_bind list_remove];
      [| reflexivity].
    apply String.eqb_eq in Hy. rewrite Hy. reflexivity.
  - apply String.eqb_neq in Hx, Hy.
    destruct (list_remove x keys) as [kx |]; destruct (list_remove y keys) as [ky |];
      cbn [pure_bind list_remove] in *; rewrite ?Hx, ?Hy.
    + rewrite IH. reflexivity.
    + rewrite IH. reflexivity.
    + rewrite <- IH. reflexivity.
    + exact IH.
Qed.

Lemma keys_remove_run (key : string) (keys : list string) :
  In key keys ->
  exists keys',
    list_remove key keys = Ok keys' /\ keys_remove key keys = (keys', Ok tt) /\
    (forall k, k <> key -> In k keys -> In k keys').
Proof.
  intros Hin. destruct (list_remove_spec key keys Hin) as (keys' & Hrun & _ & Ho & _).
  exists keys'. split; [exact Hrun |]. split; [unfold keys_remove; rewrite Hrun; reflexivity |].
  intros k Hk Hkin. apply count_occ_In_iff. rewrite (Ho k Hk).
  apply count_occ_In_iff. exact Hkin.
Qed.

Lemma remove_each_permutation (l l' : list string) :
  Permutation l l' -> forall keys : list string,
  NoDup l -> (forall k, In k l -> In k keys) ->
  for_each l keys_remove keys = for_each l' keys_remove keys.
Proof.
  induction 1 as [| x l l' Hp IH | x y l | l l' l'' Hp1 IH1 Hp2 IH2];
    intros keys Hnd Hsub.
  - reflexivity.
  - inversion Hnd as [| ? ? Hx Hnd']; subst.
    destruct (keys_remove_run x keys (Hsub x (or_introl eq_refl))) as (k1 & _ & Hrun & Hin).
    cbn [for_each]. unfold bind. rewrite Hrun. apply IH; [exact Hnd' |].
    intros k Hk. apply Hin; [intros ->; contradiction | apply Hsub; right; exact Hk].
  - inversion Hnd as [| ? ? Hy Hnd']; subst. inversion Hnd' as [| ? ? Hx Hnd'']; subst.
    assert (Hxy : x <> y) by (intros ->; apply Hy; left; reflexivity).
    destruct (keys_remove_run y keys (Hsub y (or_introl eq_refl)))
      as (ky & Hly & Hry & Hiny).
    destruct (keys_remove_run x keys (Hsub x (or_intror (or_introl eq_refl))))
      as (kx & Hlx & Hrx & Hinx).
    destruct (keys_remove_run x ky) as (kyx & Hlyx & Hryx & _).
    { apply Hiny; [exact Hxy | apply Hsub; right; left; reflexivity]. }
    destruct (keys_remove_run y kx) as (kxy & Hlxy & Hrxy & _).
    { apply Hinx; [congruence | apply Hsub; left; reflexivity]. }
    pose proof (list_remove_comm x y keys Hxy) as Hc.
    rewrite Hlx, Hly in Hc. cbn [pure_bind] in Hc. rewrite Hlxy, Hlyx in Hc.
    inversion Hc; subst.
    cbn [for_each]. unfold bind. rewrite Hry, Hrx, Hryx, Hrxy. reflexivity.
  - rewrite (IH1 keys Hnd Hsub). apply IH2.
    + eapply Permutation_NoDup; eassumption.
    + intros k Hk. apply Hsub. eapply Permutation_in; [apply Permutation_sym |]; eassumption.
Qed.

(** X16: the order in which the keys to remove are visited plays no
    part: for every listing of the set [set(keys) & new_keys_set] the loop
    of removals returns, and leaves the same key list. *)
Theorem remove_conflicts_any_order :
  forall (new_keys_set keys order : list string),
    Permutation order (set_inter keys new_keys_set) ->
    for_each order keys_remove keys
    = for_each (set_inter keys new_keys_set) keys_remove keys /\
    snd (for_each order keys_remove keys) = Ok tt.
Proof.
  intros new keys order Hp.
  assert (Heq : for_each order keys_remove keys
                = for_each (set_inter keys new) keys_remove keys).
  { apply remove_each_permutation; [exact Hp | |].
    - eapply Permutation_NoDup; [apply Permutation_sym; exact Hp | apply set_inter_NoDup].
    - intros k Hk. apply (Permutation_in k Hp) in Hk. apply set_inter_In in Hk. tauto. }
  split; [exact Heq |]. rewrite Heq.
  destruct (remove_conflicts_keymap new keys) as (keys' & Hrun & _). rewrite Hrun. reflexivity.
Qed.

(** The arrows 'left' and 'right', removed in the other order. *)
Lemma remove_conflicts_any_order_witness :
  Permutation ["right"; "left"] (set_inter ["left"; "a"; "right"] ["left"; "right"]) /\
  (for_each ["right"; "left"] keys_remove ["left"; "a"; "right"]
   = for_each (set_inter ["left"; "a"; "right"] ["left"; "right"]) keys_remove
       ["left"; "a"; "right"] /\
   snd (for_each ["right"; "left"] keys_remove ["left"; "a"; "right"]) = Ok tt).
Proof.
  assert (H : Permutation ["right"; "left"]
                (set_inter ["left"; "a"; "right"] ["left"; "right"]))
    by (vm_compute; apply perm_swap).
  split; [exact H |].
  exact (remove_conflicts_any_order ["left"; "right"] ["left"; "a"; "right"]
           ["right"; "left"] H).
Defined.

(** A shortcut bound twice keeps one binding. *)
Example remove_keymap_conflicts_sample :
  remove_keymap_conflicts ["left"; "s"]
    [("keymap.back", ["left"; "c"; "backspace"; "left"]);
     ("keymap.save", ["s"; "ctrl+s"]);
     ("font.family", ["s"])]
  = ([("keymap.back", ["c"; "backspace"; "left"]);
      ("keymap.save", ["ctrl+s"]);
      ("font.family", ["s"])], Ok tt).
Proof. vm_compute. reflexivity. Qed.

(** ** Paging through images: the call that cannot be made *)

Section PagingFacts.
Context {G : Type}.
Variable body : M (Axes * Pages) unit.

(** Eight arguments do not fill the nine parameters without default. *)
Lemma image_viewer_call_fails :
  positional_call image_viewer_parameters 8 = Raise TypeError.
Proof. reflexivity. Qed.

Lemma show_page_fails (Z_ : option G) tau (s : Axes * Pages) :
  exists e, show_page body Z_ tau s = (s, Raise e) /\ (e = IndexError \/ e = TypeError).
Proof.
  unfold show_page.
  unfold bind at 1. unfold the_array at 1. cbn [fst snd].
  unfold bind at 1. unfold lift at 1.
  destruct (index_axis _ _ _) as [[] | e] eqn:Hi.
  - unfold bind at 1. unfold lift at 1.
    destruct (subscript tau (page_index (snd s))) as [t | e] eqn:Ht.
    + unfold bind at 1. unfold lift at 1. rewrite image_viewer_call_fails.
      exists TypeError. split; [reflexivity | right; reflexivity].
    + exists e. split; [reflexivity |].
      unfold subscript in Ht. destruct tau as [t |].
      * left. unfold py_index in Ht.
        destruct ((_ <? 0) || _)%bool; [congruence |].
        destruct (nth_error _ _); congruence.
      * right. congruence.
  - exists e. split; [reflexivity |]. left.
    unfold index_axis in Hi. destruct (nth_error _ _); [| congruence].
    destruct ((_ <? _) || _)%bool; congruence.
Qed.

Lemma turn_page_run (step : Z) (Z_ : option G) (Ntau : Z) tau (ax : Axes) (pages : Pages) :
  Ntau <> 0 ->
  (pages0 <- the_array ;;
   i <- lift (py_mod (page_index pages0 + step) Ntau) ;;
   set_page_index i ;;
   show_page body Z_ tau) (ax, pages)
  = show_page body Z_ tau
      (ax, mk_Pages (volume_shape pages) ((page_index pages + step) mod Ntau)).
Proof.
  intros HN. unfold py_mod.
  unfold bind at 1. unfold the_array at 1. cbn [fst snd].
  unfold bind at 1. unfold lift at 1.
  destruct (Ntau =? 0) eqn:H0; [apply Z.eqb_eq in H0; contradiction |].
  reflexivity.
Qed.

Lemma turn_page_stuck (step : Z) (Z_ : option G) tau (s : Axes * Pages) :
  (pages0 <- the_array ;;
   i <- lift (py_mod (page_index pages0 + step) 0) ;;
   set_page_index i ;;
   show_page body Z_ tau) s
  = (s, Raise ZeroDivisionError).
Proof. reflexivity. Qed.

(** One step of the pager, forth ([step] 1) or back ([step] -1). *)
Definition turned (step : Z) (Ntau : Z) (s : Axes * Pages)
    (r : Axes * Pages * res unit) : Prop :=
  fst (fst r) = fst s /\
  volume_shape (snd (fst r)) = volume_shape (snd s) /\
  (Ntau = 0 -> r = (s, Raise ZeroDivisionError)) /\
  (Ntau <> 0 ->
   page_index (snd (fst r)) = (page_index (snd s) + step) mod Ntau /\
   (snd r = Raise IndexError \/ snd r = Raise TypeError)).

Lemma turn_page_turned (step : Z) (Z_ : option G) (Ntau : Z) tau (s : Axes * Pages) :
  turned step Ntau s
    ((pages0 <- the_array ;;
      i <- lift (py_mod (page_index pages0 + step) Ntau) ;;
      set_page_index i ;;
      show_page body Z_ tau) s).
Proof.
  destruct s as [ax pages].
  destruct (Z.eq_dec Ntau 0) as [-> | HN].
  - rewrite turn_page_stuck. unfold turned. cbn [fst snd].
    split; [reflexivity | split; [reflexivity | split; [reflexivity |]]].
    intros H0. contradiction.
  - rewrite turn_page_run by exact HN.
    destruct (show_page_fails Z_ tau
                (ax, mk_Pages (volume_shape pages) ((page_index pages + step) mod Ntau)))
      as (e & -> & He).
    unfold turned. cbn [fst snd volume_shape page_index].
    split; [reflexivity | split; [reflexivity | split; [intros H0; contradiction |]]].
    intros _. split; [reflexivity |].
    destruct He as [-> | ->]; [left | right]; reflexivity.
Qed.
End PagingFacts.

(** X17: paging through images never shows a page.  [next_image] and
    [previous_image] hand [image_viewer] eight positional arguments for its
    nine parameters without default, so that whatever the inputs neither
    returns: with [Ntau] zero they raise [ZeroDivisionError] and change
    nothing; otherwise they move the cursor [ax.index] one step modulo
    [Ntau] and then raise [IndexError] or [TypeError], the axes left as
    they were, nothing cleared and nothing drawn. *)
Theorem image_paging_moves_cursor_and_fails :
  forall (G : Type) (body : M (Axes * Pages) unit) plotParams alpha (X Y : G) Z_ Ntau tau
         (s : Axes * Pages),
    turned 1 Ntau s (next_image body plotParams alpha X Y Z_ Ntau tau s) /\
    turned (-1) Ntau s (previous_image body plotParams alpha X Y Z_ Ntau tau s).
Proof.
  intros G body plotParams alpha X Y Z_ Ntau tau s. split.
  - apply (turn_page_turned body 1).
  - apply (turn_page_turned body (-1)).
Qed.

Lemma turned_fails step Ntau s r :
  turned step Ntau s r -> fst (fst r) = fst s /\ exists e, snd r = Raise e.
Proof.
  intros (Hax & _ & H0 & Hn). split; [exact Hax |].
  destruct (Z.eq_dec Ntau 0) as [HN | HN].
  - rewrite (H0 HN). eexists. reflexivity.
  - destruct (Hn HN) as [_ [-> | ->]]; eexists; reflexivity.
Qed.

Lemma on_axes_fails {A} (c : M (Axes * Pages) A) (axs : list (Axes * Pages)) :
  (forall s, fst (fst (c s)) = fst s /\ exists e, snd (c s) = Raise e) ->
  axs <> [] ->
  map fst (fst (on_axes 0 c axs)) = map fst axs /\
  exists e, snd (on_axes 0 c axs) = Raise e.
Proof.
  intros Hc Hne. unfold on_axes.
  destruct (py_index axs 0) as [s |] eqn:Hs.
  - destruct (Hc s) as [Hax [e He]].
    destruct (c s) as [s' r]. cbn [fst snd] in *. split; [| exists e; exact He].
    eapply map_list_update; [apply py_index_nth; exact Hs | exact Hax].
  - split; [reflexivity | eexists; reflexivity].
Qed.

(** X18: [process_key_images] never changes what is drawn on any axes
    of the figure.  On an arrow key it ends in an exception; on any other
    key it changes nothing at all, and returns when the figure has an
    axes. *)
Theorem process_key_images_never_draws :
  forall (G : Type) (body : M (Axes * Pages) unit) key plotParams alpha (X Y : G)
         Z_ Ntau tau (axs : list (Axes * Pages)),
    let r := process_key_images body key plotParams alpha X Y Z_ Ntau tau axs in
    map fst (fst r) = map fst axs /\
    match arrow key with
    | Some _ => exists e, snd r = Raise e
    | None => fst r = axs /\ (axs <> [] -> snd r = Ok tt)
    end.
Proof.
  intros G body key plotParams alpha X Y Z_ Ntau tau axs r. subst r.
  unfold process_key_images, arrow.
  unfold bind at 1. unfold get at 1. cbv beta iota.
  unfold bind at 1. unfold lift at 1.
  unfold bind at 2. unfold get at 1. cbv beta iota.
  unfold bind at 2. unfold lift at 1.
  destruct axs as [| s0 axs'].
  - cbn [py_index List.length Z.of_nat Z.ltb Z.leb Z.compare orb fst snd map].
    split; [reflexivity |].
    destruct (_ || _)%bool; [eexists; reflexivity |].
    destruct (_ || _)%bool; [eexists; reflexivity |].
    split; [reflexivity | congruence].
  - assert (H0 : py_index (s0 :: axs') 0 = Ok s0) by reflexivity.
    rewrite H0. cbv beta iota.
    destruct (String.eqb key "left" || String.eqb key "down")%bool.
    + apply on_axes_fails; [| discriminate].
      intros s. eapply turned_fails.
      apply (turn_page_turned body (-1)).
    + destruct (String.eqb key "right" || String.eqb key "up")%bool.
      * apply on_axes_fails; [| discriminate].
        intros s. eapply turned_fails.
        apply (turn_page_turned body 1).
      * cbn [ret fst snd]. split; [reflexivity | split; [reflexivity | reflexivity]].
Qed.

(** The key 'right' on the first of three pages: the cursor moves, the
    call fails. *)
Example right_key_on_images :
  process_key_images (ret tt) "right" default_params 0%float
    sample_grid sample_grid None 3 (Some [0; 1; 2]%float)
    [(light_axes 0, mk_Pages [2; 2; 3] 0)]
  = ([(light_axes 0, mk_Pages [2; 2; 3] 1)], Raise TypeError).
Proof. vm_compute. reflexivity. Qed.

(** ** Navigation: what is written to the recording *)

(** The frames of the recording. *)
Definition frames (s : Axes * Experiment) : list ndarray2 := data (snd s).

(** From [s] to [s'] the recording has kept its frames, the one at the
    index [i] apart. *)
Definition kept_but (i : Z) (s s' : Axes * Experiment) : Prop :=
  List.length (frames s') = List.length (frames s) /\
  forall k, k <> normal_index (frames s) i ->
            nth_error (frames s') k = nth_error (frames s) k.

(** The frame at the index [i] has become what a render leaves of it. *)
Definition shown_rescaled (i : Z) (s s' : Axes * Experiment) : Prop :=
  exists X, py_index (frames s) i = Ok X /\
            py_index (frames s') i = Ok (frame_after X).

Lemma length_list_update {A} (xs : list A) (j : nat) (x : A) :
  List.length (list_update xs j x) = List.length xs.
Proof.
  revert j. induction xs as [| y xs IH]; intros [| j]; cbn; try reflexivity.
  rewrite IH. reflexivity.
Qed.

Lemma nth_error_list_update_other {A} (xs : list A) (j k : nat) (x : A) :
  k <> j -> nth_error (list_update xs j x) k = nth_error xs k.
Proof.
  revert j k. induction xs as [| y xs IH]; intros [| j] [| k] Hk; cbn;
    try reflexivity; try congruence.
  apply IH. congruence.
Qed.

Lemma kept_but_refl i s : kept_but i s s.
Proof. split; [reflexivity | intros; reflexivity]. Qed.

Lemma on_frame_touches xvals interval coordinates title flag p i (s : Axes * Experiment) :
  wp (on_frame i (plotWiggles xvals interval coordinates title flag p))
     (fun _ s' => kept_but i s s' /\ shown_rescaled i s s')
     (fun _ s' => kept_but i s s') s.
Proof.
  unfold wp, on_frame.
  destruct (py_index (data (snd s)) i) as [X |] eqn:HX; [| apply kept_but_refl].
  pose proof (plotWiggles_array xvals interval coordinates title flag p (fst s) X) as [_ Hok].
  cbv zeta in Hok.
  destruct (plotWiggles xvals interval coordinates title flag p (fst s, X)) as [s1 r].
  cbn [fst snd] in *.
  assert (Hk : kept_but i s
                 (fst s1, with_data (list_update (data (snd s))
                                       (normal_index (data (snd s)) i) (snd s1)) (snd s))).
  { split; unfold frames; cbn [snd data with_data].
    - apply length_list_update.
    - intros k Hk. apply nth_error_list_update_other. exact Hk. }
  destruct r as [[] | e]; [| exact Hk].
  split; [exact Hk |].
  exists X. split; [exact HX |]. unfold frames. cbn [snd data with_data].
  rewrite (Hok eq_refl). eapply py_index_list_update. exact HX.
Qed.

Lemma render_wave_touches p (s : Axes * Experiment) :
  wp (render_wave p)
     (fun _ s' => kept_but (cursor s) s s' /\ shown_rescaled (cursor s) s s')
     (fun _ s' => kept_but (cursor s) s s') s.
Proof.
  unfold render_wave. repeat (wp_step; wp_simpl).
  - apply on_frame_touches.
  - apply kept_but_refl.
Qed.

(** A step of the cursor followed by the render at the new cursor. *)
Lemma step_touches p (i : Z) (s : Axes * Experiment) :
  let r := (set_source_index i ;; render_wave p) s in
  kept_but (cursor (fst r)) s (fst r) /\
  (snd r = Ok tt -> shown_rescaled (cursor (fst r)) s (fst r)).
Proof.
  cbv zeta.
  set (s1 := (with_source_index i (fst s), snd s)).
  change ((set_source_index i ;; render_wave p) s) with (render_wave p s1).
  pose proof (render_wave_touches p s1) as H.
  destruct (render_wave_keeps p s1) as [Hc _]. unfold after in Hc.
  unfold wp in H.
  destruct (render_wave p s1) as [s' [[] | e]]; cbn [fst snd] in *; rewrite Hc.
  - destruct H as [Hk Hs]. split; [exact Hk | intros _; exact Hs].
  - split; [exact H | discriminate].
Qed.

(** X19: navigation writes to the recording, and only to the frame it
    shows.  Whatever the outcome of [next_wave] and [previous_wave], the
    recording keeps its number of frames and every frame other than the one
    at the new cursor; and when the handler returns, the frame at the new
    cursor has become what the render leaves of it: rescaled in place for
    2 to 70 traces, as it was otherwise. *)
Theorem navigation_touches_only_the_frame_shown :
  forall p (s : Axes * Experiment),
    (let r := next_wave p s in
     kept_but (cursor (fst r)) s (fst r) /\
     (snd r = Ok tt -> shown_rescaled (cursor (fst r)) s (fst r))) /\
    (let r := previous_wave p s in
     kept_but (cursor (fst r)) s (fst r) /\
     (snd r = Ok tt -> shown_rescaled (cursor (fst r)) s (fst r))).
Proof.
  intros p s. split; cbv zeta.
  - change (next_wave p s)
      with (match py_mod (source_index (fst s) + 1)
                    (Z.of_nat (List.length (sourceNumbers (snd s)))) with
            | Ok i => (set_source_index i ;; render_wave p) s
            | Raise e => (s, Raise e)
            end).
    destruct (py_mod _ _) as [i |].
    + apply (step_touches p i s).
    + cbn [fst snd]. split; [apply kept_but_refl | discriminate].
  - change (previous_wave p s)
      with (match py_mod (source_index (fst s) - 1)
                    (Z.of_nat (List.length (sourceNumbers (snd s)))) with
            | Ok i => (set_source_index i ;; render_wave p) s
            | Raise e => (s, Raise e)
            end).
    destruct (py_mod _ _) as [i |].
    + apply (step_touches p i s).
    + cbn [fst snd]. split; [apply kept_but_refl | discriminate].
Qed.

(** Advancing from the last of three frames rescales the first frame in
    the recording and leaves the other two as recorded. *)
Example advance_rescales_the_frame_shown :
  let e' := snd (after (next_wave default_params) at_last_frame) in
  map (has_entry_above 1.5) (data e') = [false; false; true] /\
  map (has_entry_above 1.5) (data sample_experiment) = [true; false; true].
Proof. split; vm_compute; reflexivity. Qed.

(** ** Singular vectors: the frequency render and the cursor *)


Section FreqFacts.
Variable ax_stem : list float -> list float -> string -> string -> M (Axes * ndarray2) unit.
(** The stem plot reads the row it is given and writes to no array. *)
Hypothesis ax_stem_reads : forall x y linefmt markerfmt s,
  snd (fst (ax_stem x y linefmt markerfmt s)) = snd s.


End FreqFacts.




(** [volume.shape[2]] and [ax.index] of the viewer of singular vectors. *)
Definition depth (s : Axes * Vectors) : Z := Z.of_nat (List.length (vec_volume (snd s))).
Definition vec_cursor (s : Axes * Vectors) : Z := vec_index (snd s).

Lemma on_slice_keeps {A} (i : Z) (c : M (Axes * ndarray2) A) (s : Axes * Vectors) :
  vec_cursor (after (on_slice i c) s) = vec_cursor s /\
  depth (after (on_slice i c) s) = depth s.
Proof.
  unfold after, on_slice, vec_cursor, depth.
  destruct (py_index (vec_volume (snd s)) i); [| split; reflexivity].
  destruct (c (fst s, a)) as [s' r]. cbn [fst snd vec_volume vec_index].
  rewrite length_list_update. split; reflexivity.
Qed.

Section VectorFacts.
Variable ax_stem : list float -> list float -> string -> string -> M (Axes * ndarray2) unit.
Variables (xvals : list float) (interval : list Z) (coordinates : option ndarray2).
Variables (flag : string) (cmplx_part : option string) (p : PlotParams).

Lemma render_vector_keeps (s : Axes * Vectors) :
  let s' := after (render_vector ax_stem xvals interval coordinates flag cmplx_part p) s in
  vec_cursor s' = vec_cursor s /\ depth s' = depth s.
Proof.
  cbv zeta.
  apply (after_of_wp (render_vector ax_stem xvals interval coordinates flag cmplx_part p)
           (fun s' => vec_cursor s' = vec_cursor s /\ depth s' = depth s)).
  unfold render_vector. repeat (wp_step; wp_simpl); try (split; reflexivity).
  all: match goal with |- wp ?c _ _ _ =>
         apply (wp_of_after c (fun s' => vec_cursor s' = vec_cursor s /\ depth s' = depth s))
       end; apply on_slice_keeps.
Qed.

Lemma vector_step_run (step : Z) (s : Axes * Vectors) :
  depth s <> 0 ->
  (v <- the_array ;;
   i <- lift (py_mod (vec_index v + step) (Z.of_nat (List.length (vec_volume v)))) ;;
   set_vec_index i ;;
   render_vector ax_stem xvals interval coordinates flag cmplx_part p) s
  = render_vector ax_stem xvals interval coordinates flag cmplx_part p
      (fst s, mk_Vectors (vec_volume (snd s)) ((vec_cursor s + step) mod depth s)).
Proof.
  intros HK. unfold py_mod, depth, vec_cursor in *.
  unfold bind at 1. unfold the_array at 1. cbv beta iota.
  unfold bind at 1. unfold lift at 1.
  destruct (Z.of_nat (List.length (vec_volume (snd s))) =? 0) eqn:H0;
    [apply Z.eqb_eq in H0; contradiction |].
  reflexivity.
Qed.

Lemma vector_step_cursor (step : Z) (s : Axes * Vectors) :
  depth s <> 0 ->
  let s' := after (v <- the_array ;;
                   i <- lift (py_mod (vec_index v + step)
                                (Z.of_nat (List.length (vec_volume v)))) ;;
                   set_vec_index i ;;
                   render_vector ax_stem xvals interval coordinates flag cmplx_part p) s in
  vec_cursor s' = (vec_cursor s + step) mod depth s /\ depth s' = depth s.
Proof.
  intros HK. cbv zeta. unfold after. rewrite vector_step_run by exact HK.
  apply (render_vector_keeps
           (fst s, mk_Vectors (vec_volume (snd s)) ((vec_cursor s + step) mod depth s))).
Qed.
End VectorFacts.

(** X21: the cursor of the viewer of singular vectors.  With an empty
    volume [next_vector] and [previous_vector] raise [ZeroDivisionError]
    and change nothing.  Otherwise they move [ax.index] one step modulo
    [volume.shape[2]], whether the render that follows returns or raises,
    in the time domain as in the frequency domain, and the volume keeps its
    depth; so from a cursor within the volume each undoes the move of the
    other. *)
Theorem vector_cursor_wraps_and_returns :
  forall ax_stem xvals interval coordinates flag cmplx_part p (s : Axes * Vectors),
    let forth := next_vector ax_stem xvals interval coordinates flag cmplx_part p in
    let back := previous_vector ax_stem xvals interval coordinates flag cmplx_part p in
    (depth s = 0 ->
     forth s = (s, Raise ZeroDivisionError) /\ back s = (s, Raise ZeroDivisionError)) /\
    (depth s <> 0 ->
     vec_cursor (after forth s) = (vec_cursor s + 1) mod depth s /\
     vec_cursor (after back s) = (vec_cursor s - 1) mod depth s /\
     depth (after forth s) = depth s /\ depth (after back s) = depth s) /\
    (0 <= vec_cursor s < depth s ->
     vec_cursor (after back (after forth s)) = vec_cursor s /\
     vec_cursor (after forth (after back s)) = vec_cursor s).
Proof.
  intros ax_stem xvals interval coordinates flag cmplx_part p s forth back.
  assert (Hf : forall s0, depth s0 <> 0 ->
             vec_cursor (after forth s0) = (vec_cursor s0 + 1) mod depth s0 /\
             depth (after forth s0) = depth s0).
  { intros s0 H0.
    exact (vector_step_cursor ax_stem xvals interval coordinates flag cmplx_part p 1 s0 H0). }
  assert (Hb : forall s0, depth s0 <> 0 ->
             vec_cursor (after back s0) = (vec_cursor s0 - 1) mod depth s0 /\
             depth (after back s0) = depth s0).
  { intros s0 H0.
    exact (vector_step_cursor ax_stem xvals interval coordinates flag cmplx_part p (-1)
             s0 H0). }
  split; [| split].
  - intros H0. unfold depth in H0. subst forth back.
    unfold next_vector, previous_vector, py_mod.
    split;
      (unfold bind at 1; unfold the_array at 1; cbv beta iota;
       unfold bind at 1; unfold lift at 1; rewrite H0; reflexivity).
  - intros H0. destruct (Hf s H0) as [Hf1 Hf2]. destruct (Hb s H0) as [Hb1 Hb2].
    repeat split; assumption.
  - intros Hc. assert (H0 : depth s <> 0) by lia.
    destruct (Hf s H0) as [Hf1 Hf2]. destruct (Hb s H0) as [Hb1 Hb2].
    split.
    + destruct (Hb (after forth s)) as [H _]; [lia |].
      rewrite H, Hf1, Hf2, Zminus_mod_idemp_l.
      replace (vec_cursor s + 1 - 1) with (vec_cursor s) by lia.
      apply Z.mod_small. exact Hc.
    + destruct (Hf (after back s)) as [H _]; [lia |].
      rewrite H, Hb1, Hb2, Zplus_mod_idemp_l.
      replace (vec_cursor s - 1 + 1) with (vec_cursor s) by lia.
      apply Z.mod_small. exact Hc.
Qed.

(** The titles number the vectors from one. *)
Example vector_title_samples :
  vector_title "left" 3 None = Ok "Left-Singular Vector $\phi_{3}(\mathbf{x}_r,t)$" /\
  vector_title "right" 1 (Some "imag")
  = Ok "$\mathrm{Im}\{\widehat{\psi}_{1}(\mathbf{x}_s,\nu)\}$" /\
  vector_title "data" 1 None = Raise UnboundLocalError.
Proof. repeat split; vm_compute; reflexivity. Qed.

(** ** The first display: where a session starts *)

Lemma plotWiggles_unstyled_raises {A} interval coordinates flag p X :
  exists e, @plotWiggles_unstyled A interval coordinates flag p X = Raise e.
Proof.
  unfold plotWiggles_unstyled.
  destruct (py_index interval 0); cbn [pure_bind]; [| eexists; reflexivity].
  destruct (set_ylabel _ _ _ _ _); cbn [pure_bind]; eexists; reflexivity.
Qed.

Lemma remove_keymap_conflicts_returns (new : list string) (rc : rcParams) :
  snd (remove_keymap_conflicts new rc) = Ok tt.
Proof.
  unfold remove_keymap_conflicts.
  induction rc as [| [prop keys] rc IH]; cbn [for_each_item]; [reflexivity |].
  assert (Hbody : exists keys', remove_conflicts new prop keys = (keys', Ok tt)).
  { unfold remove_conflicts. destruct (String.prefix "keymap." prop).
    - destruct (remove_conflicts_keymap new keys) as (keys' & Hrun & _).
      exists keys'. exact Hrun.
    - exists keys. reflexivity. }
  destruct Hbody as (keys' & ->).
  destruct (for_each_item (remove_conflicts new) rc) as [rc' r]. exact IH.
Qed.

Lemma wp_on_rcParams {E} (new : list string) (s : rcParams * E) :
  wp (on_rcParams (remove_keymap_conflicts new))
     (fun _ s' => snd s' = snd s) (fun _ _ => False) s.
Proof.
  unfold wp, on_rcParams.
  pose proof (remove_keymap_conflicts_returns new (fst s)) as Hr.
  destruct (remove_keymap_conflicts new (fst s)) as [rc' r]. cbn [snd] in Hr.
  rewrite Hr. reflexivity.
Qed.

Lemma on_frame_style xvals interval coordinates title flag p i (s : Axes * Experiment) :
  style (fst (after (on_frame i (plotWiggles xvals interval coordinates title flag p)) s))
  = style (fst s).
Proof.
  unfold after, on_frame.
  destruct (py_index (data (snd s)) i) as [X |]; [| reflexivity].
  pose proof (plotWiggles_outcome xvals interval coordinates title flag p (fst s) X) as H.
  destruct (plotWiggles xvals interval coordinates title flag p (fst s, X))
    as [s' [[] | e]]; cbn [fst snd]; destruct H as (Hs & _); exact Hs.
Qed.

(** What a render of a new axes keeps: the attributes of the axes, and
    of the state everything but the recording. *)
Lemma wp_render_on {G} (ax : Axes) (c : M (Axes * Experiment) unit) (s : G * Experiment) :
  (forall s0, style (fst (after c s0)) = style (fst s0) /\
              setup (snd (after c s0)) = setup (snd s0)) ->
  wp (render_on ax c)
     (fun ax' s' => style ax' = style ax /\ fst s' = fst s /\
                    setup (snd s') = setup (snd s))
     (fun _ _ => True) s.
Proof.
  intros Hc. unfold wp, render_on.
  destruct (Hc (ax, snd s)) as [Hs He]. unfold after in *.
  destruct (c (ax, snd s)) as [s' [[] | e]]; cbn [fst snd] in *; [| exact I].
  split; [exact Hs | split; [reflexivity | exact He]].
Qed.

Lemma mode_axes_style (mode : string) (styled : Z -> Axes) (i : Z) :
  mode_axes mode = Some styled ->
  source_index (styled i) = i /\ calls (styled i) = [] /\
  In mode ["light"; "dark"].
Proof.
  unfold mode_axes.
  destruct (String.eqb_spec mode "light") as [-> | _].
  - intros H. inversion H. subst. repeat split. left. reflexivity.
  - destruct (String.eqb_spec mode "dark") as [-> | _]; [| discriminate].
    intros H. inversion H. subst. repeat split. right. left. reflexivity.
Qed.

(** What holds when the first display returns the axes [axes], for the
    experiment [e] and the cursor [i]. *)
Definition first_display (p : PlotParams) (show_map : bool) (e : Experiment) (i : Z)
    (axes : list Axes) (e' : Experiment) : Prop :=
  exists styled,
    mode_axes (view_mode p) = Some styled /\
    List.length axes = (if show_map then 2 else 1)%nat /\
    Forall (fun ax => style ax = styled i) axes /\
    setup e' = setup e /\
    (exists title, wave_title i (sourceNumbers e) (sourcePoints e) (wiggleType e) p
                   = Ok title).

Lemma wp_Experiment_plot scatterer p show_map (rc : rcParams) (e : Experiment) :
  wp (Experiment_plot scatterer p show_map)
     (fun axes s' =>
        first_display p show_map e (Z.of_nat (List.length (sourceNumbers e)) / 2)
          axes (snd s'))
     (fun _ _ => True) (rc, e).
Proof.
  unfold Experiment_plot.
  apply wp_bind. eapply wp_conseq; [| | apply wp_on_rcParams]; [| intros ? ? []].
  intros u [rc' e'] He. cbn [snd] in He. subst e'.
  wp_step. wp_step. cbn [snd].
  set (i := Z.of_nat (List.length (sourceNumbers e)) / 2).
  wp_step. wp_step.
  destruct (if show_map then _ else _) as [axes |] eqn:Hfig; [| exact I].
  assert (Hax : exists m, axes = m :: (if show_map then [m] else []) /\
                          m = mode_axes (view_mode p)).
  { destruct show_map.
    - destruct (receiverPoints e) as [rp |]; [| discriminate Hfig].
      cbn [attr_of pure_bind] in Hfig. unfold setFigure in Hfig. cbn [Z.eqb Pos.eqb] in Hfig.
      destruct (_ && _)%bool; inversion Hfig. eexists. split; reflexivity.
    - unfold setFigure in Hfig. cbn in Hfig. inversion Hfig.
      eexists. split; reflexivity. }
  destruct Hax as (m & -> & Hm).
  wp_step. wp_step. change (py_index (m :: _) 0) with (Ok (A := option (Z -> Axes)) m).
  cbv beta iota.
  wp_step. wp_step.
  destruct (wave_title i _ _ _ p) as [title |] eqn:Htitle; [| exact I].
  destruct m as [styled |].
  - apply wp_bind.
    eapply wp_conseq; [| | apply wp_render_on]; [| intros ? ? _; exact I |].
    + intros ax1 s1 (Hs1 & _ & He1). cbn [snd] in He1.
      destruct show_map.
      * apply wp_bind.
        eapply wp_conseq; [| | apply wp_render_on]; [| intros ? ? _; exact I |].
        -- intros ax2 s2 (Hs2 & _ & He2). apply wp_ret.
           exists styled. split; [symmetry; exact Hm |].
           split; [reflexivity |].
           destruct (mode_axes_style _ styled i (eq_sym Hm)) as (_ & Hc & _).
           assert (Hst : style (styled i) = styled i).
           { unfold style. destruct (styled i). cbn in *. subst. reflexivity. }
           split; [repeat constructor; congruence |].
           split; [congruence | exists title; exact Htitle].
        -- intros s0. split.
           ++ destruct s0 as [a0 e0].
              destruct (plotMap_after p (receiverPoints e) scatterer (wiggleType e) i
                          (sourcePoints e) a0 e0) as (a' & Hrun & Hs).
              rewrite Hrun. exact Hs.
           ++ destruct s0 as [a0 e0].
              destruct (plotMap_after p (receiverPoints e) scatterer (wiggleType e) i
                          (sourcePoints e) a0 e0) as (a' & Hrun & Hs).
              rewrite Hrun. reflexivity.
      * apply wp_ret.
        exists styled. split; [symmetry; exact Hm |].
        split; [reflexivity |].
        destruct (mode_axes_style _ styled i (eq_sym Hm)) as (_ & Hc & _).
        assert (Hst : style (styled i) = styled i).
        { unfold style. destruct (styled i). cbn in *. subst. reflexivity. }
        split; [repeat constructor; congruence |].
        split; [exact He1 | exists title; exact Htitle].
    + intros s0. split; [apply on_frame_style | apply on_frame_setup].
  - wp_step. wp_step. destruct (py_index (data e) i) as [X |]; [| exact I].
    wp_step. destruct (plotWiggles_unstyled_raises (A := list Axes) (receiverNumbers e)
                         (receiverPoints e) (wiggleType e) p X) as [err ->].
    exact I.
Qed.

Lemma wave_title_data_in_range index numbers sp p title :
  wave_title index numbers sp "data" p = Ok title ->
  exists n, py_index numbers index = Ok n.
Proof.
  unfold wave_title. cbn [String.eqb Ascii.eqb Bool.eqb]. cbv zeta.
  destruct (py_index numbers index) as [n |]; [intros _; exists n; reflexivity |].
  cbn [pure_bind]. destruct sp as [pts |]; [| discriminate].
  destruct (shape1 pts =? 2).
  - destruct (nonempty (xu p) && nonempty (yu p))%bool; discriminate.
  - destruct (shape1 pts =? 3); [| discriminate].
    destruct (nonempty (xu p) && nonempty (yu p) && nonempty (zu p))%bool; discriminate.
Qed.

Lemma py_index_in_range {A} (xs : list A) (i : Z) (a : A) :
  py_index xs i = Ok a -> 0 <= i -> i < Z.of_nat (List.length xs).
Proof.
  unfold py_index. intros H Hi.
  destruct (i <? 0) eqn:Hneg; [apply Z.ltb_lt in Hneg; lia |].
  rewrite Hneg in H. cbn [orb] in H.
  destruct (Z.of_nat (List.length xs) <=? i) eqn:Hle; [discriminate H |].
  apply Z.leb_gt in Hle. exact Hle.
Qed.

Lemma Forall_style_cursor (a : Axes) (axes : list Axes) :
  Forall (fun ax => style ax = a) axes ->
  Forall (fun ax => source_index ax = source_index a) axes.
Proof.
  intros H. eapply Forall_impl; [| exact H].
  intros ax Hs. cbv beta in Hs. rewrite <- Hs. reflexivity.
Qed.

(** X22: the first display shows the middle source.  When
    [Experiment.plot] returns, the view mode is 'light' or 'dark', the
    figure has one axes, or two with the map, each with the attributes of
    the mode and the cursor at [len(sourceNumbers) // 2]; the experiment
    has kept everything but its recording; and for a data plot that cursor
    lies within the sources. *)
Theorem Experiment_plot_shows_the_middle_source :
  forall scatterer p show_map (rc : rcParams) (e : Experiment) axes,
    let r := Experiment_plot scatterer p show_map (rc, e) in
    let Ns := Z.of_nat (List.length (sourceNumbers e)) in
    snd r = Ok axes ->
    In (view_mode p) ["light"; "dark"] /\
    List.length axes = (if show_map then 2 else 1)%nat /\
    Forall (fun ax => source_index ax = Ns / 2) axes /\
    (exists styled, mode_axes (view_mode p) = Some styled /\
                    Forall (fun ax => style ax = styled (Ns / 2)) axes) /\
    setup (snd (fst r)) = setup e /\
    (wiggleType e = "data" -> 0 <= Ns / 2 < Ns).
Proof.
  intros scatterer p show_map rc e axes r Ns Hok. subst r Ns.
  pose proof (wp_Experiment_plot scatterer p show_map rc e) as H. unfold wp in H.
  destruct (Experiment_plot scatterer p show_map (rc, e)) as [s' [axes' | err]];
    cbn [fst snd] in *; [| discriminate Hok].
  inversion Hok; subst axes'. clear Hok.
  destruct H as (styled & Hm & Hlen & Hst & Hsetup & title & Htitle).
  destruct (mode_axes_style _ styled (Z.of_nat (List.length (sourceNumbers e)) / 2) Hm)
    as (Hi & _ & Hmode).
  split; [exact Hmode | split; [exact Hlen | split; [| split; [| split]]]].
  - apply Forall_style_cursor in Hst. rewrite Hi in Hst. exact Hst.
  - exists styled. split; assumption.
  - exact Hsetup.
  - intros Hflag. rewrite Hflag in Htitle.
    destruct (wave_title_data_in_range _ _ _ _ _ Htitle) as [n Hn].
    assert (H0 : 0 <= Z.of_nat (List.length (sourceNumbers e)) / 2)
      by (apply Z.div_pos; lia).
    split; [exact H0 | eapply py_index_in_range; eassumption].
Qed.

(** What holds of the plotter and the axes when [Plotter.plot] returns. *)
Definition in_step (show_map : bool) (pl : Plotter) (axes : list Axes) (pl' : Plotter)
  : Prop :=
  index pl' = index pl /\
  filled (mk_Viewer pl' axes) = filled (mk_Viewer pl axes) /\
  exists e,
    py_index (experiments pl) (index pl) = Ok (Some e) /\
    List.length axes = (if show_map then 2 else 1)%nat /\
    Forall (fun c => c = Z.of_nat (List.length (sourceNumbers e)) / 2)
           (map source_index axes) /\
    exists e', py_index (experiments pl') (index pl') = Ok (Some e') /\
               setup e' = setup e.

(** X23: when [Plotter.plot] returns, the plotter still shows the
    experiment it showed, with the same slots filled; every axes of the
    figure has its cursor at the middle source of that experiment, so that
    the panels start in step; and the experiment on display has kept
    everything but its recording. *)
Theorem Plotter_plot_starts_in_step :
  forall scatterer p show_map (rc : rcParams) (pl : Plotter) axes,
    let r := Plotter_plot scatterer p show_map (rc, pl) in
    snd r = Ok axes -> in_step show_map pl axes (snd (fst r)).
Proof.
  intros scatterer p show_map rc pl axes r Hok. subst r.
  assert (Hwp : wp (Plotter_plot scatterer p show_map)
                   (fun axes s' => in_step show_map pl axes (snd s'))
                   (fun _ _ => True) (rc, pl)).
  { unfold Plotter_plot.
    apply wp_bind. eapply wp_conseq; [| | apply wp_on_rcParams]; [| intros ? ? []].
    intros u [rc' pl'] Hpl. cbn [snd] in Hpl. subst pl'.
    wp_step. wp_step. cbn [fst snd].
    wp_step. wp_step.
    destruct (py_index (experiments pl) (index pl)) as [[e |] |] eqn:He; try exact I.
    wp_step. wp_step. cbn [attr_of].
    unfold wp. cbn [fst snd].
    pose proof (wp_Experiment_plot scatterer p show_map rc' e) as H. unfold wp in H.
    destruct (Experiment_plot scatterer p show_map (rc', e)) as [s' [axes' | err]];
      cbn [fst snd] in *; [| exact I].
    destruct H as (styled & Hm & Hlen & Hst & Hsetup & _).
    destruct (mode_axes_style _ styled (Z.of_nat (List.length (sourceNumbers e)) / 2) Hm)
      as (Hi & _ & _).
    split; [reflexivity | split].
    - unfold filled. cbn [plotter experiments].
      eapply map_list_update; [apply py_index_nth; exact He | reflexivity].
    - exists e. split; [exact He | split; [exact Hlen | split]].
      + apply Forall_map.
        apply Forall_style_cursor in Hst. rewrite Hi in Hst. exact Hst.
      + exists (snd s'). split; [| exact Hsetup].
        cbn [experiments index]. eapply py_index_list_update. exact He. }
  unfold wp in Hwp.
  destruct (Plotter_plot scatterer p show_map (rc, pl)) as [s' [axes' | err]];
    cbn [fst snd] in *; [| discriminate Hok].
  inversion Hok; subst axes'. exact Hwp.
Qed.

(** The first display of two mapped sources, alone and with the map. *)
Lemma Experiment_plot_shows_the_middle_source_witness :
  exists axes,
    snd (Experiment_plot None default_params true ([], mapped_experiment)) = Ok axes /\
    (In (view_mode default_params) ["light"; "dark"] /\
     List.length axes = 2%nat /\
     Forall (fun ax => source_index ax
                       = Z.of_nat (List.length (sourceNumbers mapped_experiment)) / 2) axes /\
     (exists styled, mode_axes (view_mode default_params) = Some styled /\
                     Forall (fun ax => style ax
                                       = styled (Z.of_nat (List.length
                                                   (sourceNumbers mapped_experiment)) / 2))
                            axes) /\
     setup (snd (fst (Experiment_plot None default_params true ([], mapped_experiment))))
     = setup mapped_experiment /\
     (wiggleType mapped_experiment = "data" ->
      0 <= Z.of_nat (List.length (sourceNumbers mapped_experiment)) / 2
        < Z.of_nat (List.length (sourceNumbers mapped_experiment)))).
Proof.
  destruct (snd (Experiment_plot None default_params true ([], mapped_experiment)))
    as [axes | err] eqn:Hok; [| vm_compute in Hok; discriminate Hok].
  exists axes. split; [reflexivity |].
  exact (Experiment_plot_shows_the_middle_source None default_params true []
           mapped_experiment axes Hok).
Defined.

(** The plotter of those two sources, with the map. *)
Lemma Plotter_plot_starts_in_step_witness :
  exists axes,
    snd (Plotter_plot None default_params true
           ([], Plotter_init mapped_experiment None)) = Ok axes /\
    in_step true (Plotter_init mapped_experiment None) axes
      (snd (fst (Plotter_plot None default_params true
                   ([], Plotter_init mapped_experiment None)))).
Proof.
  destruct (snd (Plotter_plot None default_params true
                   ([], Plotter_init mapped_experiment None)))
    as [axes | err] eqn:Hok; [| vm_compute in Hok; discriminate Hok].
  exists axes. split; [reflexivity |].
  exact (Plotter_plot_starts_in_step None default_params true []
           (Plotter_init mapped_experiment None) axes Hok).
Defined.

(** A view mode other than 'light' and 'dark' gets as far as the label
    colour of the wiggle plot. *)
Example Experiment_plot_in_another_mode :
  snd (Experiment_plot None
         (mk_PlotParams "pdf" "sepia" 0.7 "" "" "" "" "" "" "magma" "grays" false "flat"
            0 1 100 false false false false true true 1 "" "" "Data" "Impulse Response"
            "" 0 None "Mean Amplitude Spectrum" "Amplitude")
         false ([], mapped_experiment))
  = Raise AttributeError.
Proof. vm_compute. reflexivity. Qed.
